(** * Format conversion layer of sec-certs-page (common/objformats.py)

    A shallow embedding of the four document formats (Storage, Working,
    Raw, Object), of the walkers that convert between neighbouring
    formats, and of the [load] / [store] entry points, followed by the
    properties proved about them.

    Python values are modelled by the inductive type [value]; a Python
    [str] is the list of its code points, a [dict] is the list of its
    items in insertion order, a [set] is the list of its elements in
    iteration order.  Exceptions are modelled by the [result] type. *)

From Stdlib Require Import String Ascii DecimalString.
From Stdlib Require Import List ZArith NArith Bool Permutation.
Import ListNotations.


(** ** Python strings *)

Module PyStr.

(** A [str] is a sequence of Unicode code points. *)
Definition pystr := list N.

(** The code points of an ASCII literal. *)
Definition lit (s : string) : pystr :=
  List.map N_of_ascii (list_ascii_of_string s).

Fixpoint eqb (a b : pystr) : bool :=
  match a, b with
  | [], [] => true
  | x :: a', y :: b' => N.eqb x y && eqb a' b'
  | _, _ => false
  end.

(** [c in s] for a one-character [c]. *)
Definition contains (c : N) (s : pystr) : bool :=
  existsb (N.eqb c) s.

(** [s.replace(old, new)] where [old] and [new] are one character each. *)
Definition replace (old new : N) (s : pystr) : pystr :=
  List.map (fun c => if N.eqb c old then new else c) s.

(** "." and the full-width substitute "．". *)
Definition dot : N := 46.
Definition fullwidth_dot : N := 65294.

(** [str(n)] for an integer. *)
Definition of_Z (n : Z) : pystr :=
  lit (NilZero.string_of_int (Z.to_int n)).

(** The decimal digits of [n], left-padded with zeros to [width]. *)
Definition zero_padded (width : nat) (n : N) : pystr :=
  let digits := lit (NilZero.string_of_uint (N.to_uint n)) in
  repeat 48%N (width - length digits) ++ digits.

(** [str(x)] for a float [x] that prints in positional notation: the
    sign, the digits before the point, ".", and the digits after it. *)
Definition of_float (negative : bool) (whole : N) (fraction : Decimal.uint) : pystr :=
  (if negative then [45%N] else [])
  ++ lit (NilZero.string_of_uint (N.to_uint whole))
  ++ [dot] ++ lit (NilEmpty.string_of_uint fraction).

End PyStr.

Import PyStr.

(** The reserved vocabulary of the format layer. *)
Definition s_type : pystr := Eval cbv in lit "_type".
Definition s_value : pystr := Eval cbv in lit "_value".
Definition s_hash : pystr := Eval cbv in lit "_hash".
Definition s_set : pystr := Eval cbv in lit "set".
Definition s_frozenset : pystr := Eval cbv in lit "frozenset".
Definition s_Path : pystr := Eval cbv in lit "Path".

(** ** Python values *)

(** Dictionary keys: a [str], a jsondiff [Symbol] (identified by its
    label), an [int], [None], a [bool], or a [float], given by the decimal
    numeral it prints as in positional notation (the sign, the number
    before the point, and the digits after it).  Keys of different kinds
    are different keys: a Python mapping never holds both [1] and [True],
    or both [1] and [1.0].  Tuples and the other hashable objects are
    left out as keys. *)
Inductive key : Type :=
| KStr (s : pystr)
| KSym (label : pystr)
| KInt (n : Z)
| KNone
| KBool (b : bool)
| KFloat (negative : bool) (whole : N) (fraction : Decimal.uint).

(** Identity of a class deriving from [ComplexSerializableType]. *)
Definition class_id := nat.

Unset Elimination Schemes.

(** The values the walkers meet.  [VDict true _] is a [hashdict],
    [VDict false _] a plain [dict].  A domain object is given by its class
    and by the items of the mapping its [to_dict()] returns.  Floats are
    left out of the values; they occur as keys. *)
Inductive value : Type :=
| VNone
| VBool (b : bool)
| VInt (n : Z)
| VStr (s : pystr)
| VDate (year month day : N)
| VSym (label : pystr)
| VPath (p : pystr)
| VList (l : list value)
| VDict (hashdict : bool) (items : list (key * value))
| VSet (l : list value)
| VFrozenset (l : list value)
| VObj (cls : class_id) (fields : list (key * value)).

Set Elimination Schemes.

Definition items := list (key * value).

(** Structural induction that reaches the values nested in lists, sets
    and mappings. *)
Section ValueInd.
Variable P : value -> Prop.
Hypothesis HNone : P VNone.
Hypothesis HBool : forall b, P (VBool b).
Hypothesis HInt : forall n, P (VInt n).
Hypothesis HStr : forall s, P (VStr s).
Hypothesis HDate : forall y m d, P (VDate y m d).
Hypothesis HSym : forall l, P (VSym l).
Hypothesis HPath : forall p, P (VPath p).
Hypothesis HList : forall l, Forall P l -> P (VList l).
Hypothesis HDict : forall h its, Forall (fun kv => P (snd kv)) its -> P (VDict h its).
Hypothesis HSet : forall l, Forall P l -> P (VSet l).
Hypothesis HFrozenset : forall l, Forall P l -> P (VFrozenset l).
Hypothesis HObj : forall c fs, Forall (fun kv => P (snd kv)) fs -> P (VObj c fs).

Fixpoint value_ind (v : value) : P v :=
  let fix on_list (l : list value) : Forall P l :=
    match l with
    | [] => Forall_nil _
    | x :: r => Forall_cons _ (value_ind x) (on_list r)
    end in
  let fix on_items (its : items) : Forall (fun kv => P (snd kv)) its :=
    match its with
    | [] => Forall_nil _
    | kv :: r => Forall_cons _ (value_ind (snd kv)) (on_items r)
    end in
  match v with
  | VNone => HNone
  | VBool b => HBool b
  | VInt n => HInt n
  | VStr s => HStr s
  | VDate y m d => HDate y m d
  | VSym l => HSym l
  | VPath p => HPath p
  | VList l => HList l (on_list l)
  | VDict h its => HDict h its (on_items its)
  | VSet l => HSet l (on_list l)
  | VFrozenset l => HFrozenset l (on_list l)
  | VObj c fs => HObj c fs (on_items fs)
  end.
End ValueInd.

(** ** Exceptions *)

Inductive pyerr : Type :=
| TypeError
| KeyError
| AttributeError
| DecodeError.

Inductive result (A : Type) : Type :=
| Ok (a : A)
| Raise (e : pyerr).
Arguments Ok {A} a.
Arguments Raise {A} e.

Definition bind {A B} (r : result A) (f : A -> result B) : result B :=
  match r with
  | Ok a => f a
  | Raise e => Raise e
  end.

Declare Scope py_scope.
Delimit Scope py_scope with py.
Notation "x <- r ;; k" := (bind r (fun x => k))
  (at level 61, r at next level, right associativity) : py_scope.
Local Open Scope py_scope.

(** [list(map(f, l))] where [f] may raise: the first exception wins. *)
Fixpoint map_result {A B} (f : A -> result B) (l : list A) : result (list B) :=
  match l with
  | [] => Ok []
  | x :: r => y <- f x ;; ys <- map_result f r ;; Ok (y :: ys)
  end.

(** ** Dictionaries *)

Definition key_eqb (a b : key) : bool :=
  match a, b with
  | KStr s, KStr t => PyStr.eqb s t
  | KSym s, KSym t => PyStr.eqb s t
  | KInt n, KInt m => Z.eqb n m
  | KNone, KNone => true
  | KBool x, KBool y => Bool.eqb x y
  | KFloat s i f, KFloat t j g =>
      Bool.eqb s t && N.eqb i j && Decimal.uint_beq f g
  | _, _ => false
  end.

(** [k in d] *)
Definition dict_contains {A} (k : key) (d : list (key * A)) : bool :=
  existsb (fun kv => key_eqb (fst kv) k) d.

(** [d.get(k)] *)
Fixpoint dict_get {A} (k : key) (d : list (key * A)) : option A :=
  match d with
  | [] => None
  | (k', v) :: r => if key_eqb k' k then Some v else dict_get k r
  end.

(** [d[k] = v]: an existing key keeps its place, a new one goes last. *)
Fixpoint dict_set {A} (k : key) (v : A) (d : list (key * A)) : list (key * A) :=
  match d with
  | [] => [(k, v)]
  | (k', v') :: r =>
      if key_eqb k' k then (k', v) :: r else (k', v') :: dict_set k v r
  end.

(** [d.pop(k)] for the remaining mapping. *)
Fixpoint dict_pop {A} (k : key) (d : list (key * A)) : list (key * A) :=
  match d with
  | [] => []
  | (k', v) :: r => if key_eqb k' k then r else (k', v) :: dict_pop k r
  end.

(** [{**d, **e}] *)
Definition dict_update {A} (d e : list (key * A)) : list (key * A) :=
  fold_left (fun acc kv => dict_set (fst kv) (snd kv) acc) e d.

(** [f(d[k])]: [KeyError] when [k] is missing. *)
Fixpoint getitem_with {B} (f : value -> result B) (k : key) (d : items) : result B :=
  match d with
  | [] => Raise KeyError
  | (k', v) :: r => if key_eqb k' k then f v else getitem_with f k r
  end.

Definition dict_keys {A} (d : list (key * A)) : list key := List.map fst d.

(** The items of a comprehension [{key: f(value) for key, value in
    d.items()}]: the keys of a dict are pairwise distinct, so inserting
    the items one by one under their own keys is pointwise. *)
Fixpoint map_items (f : value -> result value) (d : items) : result items :=
  match d with
  | [] => Ok []
  | (k, v) :: r => v' <- f v ;; r' <- map_items f r ;; Ok ((k, v') :: r')
  end.

(** The loop [for key in d.keys(): res[fk(key)] = f(d[key])]: the right
    hand side is evaluated before the subscript. *)
Fixpoint rebuild (fk : key -> result key) (f : value -> result value)
    (d res : items) : result items :=
  match d with
  | [] => Ok res
  | (k, v) :: r =>
      v' <- f v ;; k' <- fk k ;; rebuild fk f r (dict_set k' v' res)
  end.

(** The same loop when neither [fk] nor [f] raises. *)
Fixpoint rebuild_total (fk : key -> key) (f : value -> value)
    (d res : items) : items :=
  match d with
  | [] => res
  | (k, v) :: r => rebuild_total fk f r (dict_set (fk k) (f v) res)
  end.

(** [v == t] for a [str] literal [t]. *)
Definition str_is (t : pystr) (v : value) : bool :=
  match v with
  | VStr s => PyStr.eqb s t
  | _ => false
  end.

(** ["_type" in obj and obj["_type"] == t] *)
Definition tag_is (t : pystr) (d : items) : bool :=
  match dict_get (KStr s_type) d with
  | Some v => str_is t v
  | None => false
  end.

(** [hashdict.__hash__]: [self["_hash"]] when "_hash" is a key, and
    [TypeError("Unhashable")] otherwise. *)
Definition hashdict_hash (d : items) : result value :=
  if dict_contains (KStr s_hash) d
  then getitem_with (fun v => Ok v) (KStr s_hash) d
  else Raise TypeError.

(** ** The Python runtime the walkers rely on *)

(** What the model takes from outside objformats.py: the iteration order
    of a freshly built set, pathlib ([str(Path(s))] and [hash] of a path),
    and the classes deriving from [ComplexSerializableType] (name,
    [__hash__] with [None] for a raised [TypeError], [__eq__],
    [from_dict], and the list [__subclasses__()] returns). *)
Record pyenv : Type := {
  set_order : list value -> list value;
  path_norm : pystr -> pystr;
  path_hash : pystr -> Z;
  cls_name : class_id -> pystr;
  obj_hash : class_id -> items -> option Z;
  obj_eq : class_id -> items -> class_id -> items -> bool;
  from_dict : class_id -> items -> result value;
  subclasses : list class_id
}.

(** A built set iterates over exactly the elements it was given. *)
Definition set_order_ok (E : pyenv) : Prop :=
  forall l, Permutation (set_order E l) l.

Fixpoint list_eqb_with {A B} (f : A -> B -> bool) (la : list A) (lb : list B) : bool :=
  match la, lb with
  | [], [] => true
  | x :: la', y :: lb' => f x y && list_eqb_with f la' lb'
  | _, _ => false
  end.

Section Semantics.
Variable E : pyenv.

(** [a == b].  Numbers compare by value ([True == 1]); lists
    element-wise; mappings by their items, whatever their order and
    whether [hashdict]s or not; sets and frozensets by their elements;
    domain objects by the [__eq__] of the left operand, and never equal to
    anything else.  (Membership in the right-hand set is written with the
    element of the left-hand set on the left.) *)
Fixpoint py_eq (a b : value) {struct a} : bool :=
  match a with
  | VNone => match b with VNone => true | _ => false end
  | VBool x =>
      match b with
      | VBool y => Bool.eqb x y
      | VInt m => Z.eqb (Z.b2z x) m
      | _ => false
      end
  | VInt n =>
      match b with
      | VBool y => Z.eqb n (Z.b2z y)
      | VInt m => Z.eqb n m
      | _ => false
      end
  | VStr s => match b with VStr t => PyStr.eqb s t | _ => false end
  | VDate y m d =>
      match b with
      | VDate y' m' d' => N.eqb y y' && N.eqb m m' && N.eqb d d'
      | _ => false
      end
  | VSym s => match b with VSym t => PyStr.eqb s t | _ => false end
  | VPath p => match b with VPath q => PyStr.eqb p q | _ => false end
  | VList la =>
      match b with
      | VList lb => list_eqb_with py_eq la lb
      | _ => false
      end
  | VDict _ da =>
      match b with
      | VDict _ db =>
          Nat.eqb (length da) (length db)
          && forallb (fun kv => match dict_get (fst kv) db with
                                | Some v' => py_eq (snd kv) v'
                                | None => false
                                end) da
      | _ => false
      end
  | VSet la | VFrozenset la =>
      match b with
      | VSet lb | VFrozenset lb =>
          Nat.eqb (length la) (length lb)
          && forallb (fun x => existsb (fun y => py_eq x y) lb) la
      | _ => false
      end
  | VObj c fs =>
      match b with
      | VObj c' fs' => obj_eq E c fs c' fs'
      | _ => false
      end
  end.

(** [hash(v)] does not raise: lists, sets and plain dicts are
    unhashable; [hash] of a [hashdict] is what its [__hash__] returns,
    which must be an integer. *)
Fixpoint hashable (v : value) : bool :=
  match v with
  | VNone | VBool _ | VInt _ | VStr _ | VDate _ _ _ | VSym _ | VPath _ => true
  | VList _ | VSet _ => false
  | VDict h d =>
      h && match hashdict_hash d with
           | Ok (VInt _) | Ok (VBool _) => true
           | _ => false
           end
  | VFrozenset l => forallb hashable l
  | VObj c fs => match obj_hash E c fs with Some _ => true | None => false end
  end.

(** Two elements a set keeps only one of: equal, with equal hashes.
    For the built-in types equality implies equal hashes. *)
Definition same_elem (a b : value) : bool :=
  py_eq a b &&
  match a, b with
  | VObj c fs, VObj c' fs' =>
      match obj_hash E c fs, obj_hash E c' fs' with
      | Some h, Some h' => Z.eqb h h'
      | _, _ => false
      end
  | _, _ => true
  end.

(** [s.add(x)] on the elements in insertion order. *)
Definition set_add (s : list value) (x : value) : list value :=
  if existsb (fun y => same_elem y x) s then s else s ++ [x].

(** The elements of [set(l)] for a list [l] of already computed
    elements: [TypeError] on an unhashable one. *)
Definition build_set (l : list value) : result (list value) :=
  if forallb hashable l
  then Ok (set_order E (fold_left set_add l []))
  else Raise TypeError.

(** The elements of [set(map(f, l))]: [map] is lazy, so each element is
    hashed before the next one is computed. *)
Fixpoint map_hashed (f : value -> result value) (l : list value) : result (list value) :=
  match l with
  | [] => Ok []
  | x :: r =>
      y <- f x ;;
      if hashable y then ys <- map_hashed f r ;; Ok (y :: ys)
      else Raise TypeError
  end.

Definition set_of_map (f : value -> result value) (l : list value) : result (list value) :=
  ys <- map_hashed f l ;; Ok (set_order E (fold_left set_add ys [])).

(** A key as the element it is when its mapping is iterated.  A float
    has no counterpart among the values, which leave floats out: as an
    element it is given by the string it prints as.  ([load] iterates
    only over mappings it has rebuilt, whose keys are strings.) *)
Definition key_value (k : key) : value :=
  match k with
  | KStr s => VStr s
  | KSym s => VSym s
  | KInt n => VInt n
  | KNone => VNone
  | KBool b => VBool b
  | KFloat s i f => VStr (of_float s i f)
  end.

(** [iter(v)]: the elements [set(v)] and [list(v)] run over. *)
Definition iter_value (v : value) : result (list value) :=
  match v with
  | VList l | VSet l | VFrozenset l => Ok l
  | VDict _ d => Ok (List.map key_value (dict_keys d))
  | VStr s => Ok (List.map (fun c => VStr [c]) s)
  | _ => Raise TypeError
  end.

(** [set(v)] and [frozenset(v)] *)
Definition set_of (v : value) : result value :=
  l <- iter_value v ;; s <- build_set l ;; Ok (VSet s).
Definition frozenset_of (v : value) : result value :=
  l <- iter_value v ;; s <- build_set l ;; Ok (VFrozenset s).

(** [list(v)] *)
Definition list_of (v : value) : result value :=
  l <- iter_value v ;; Ok (VList l).

End Semantics.

(** [str(d)] for a [date]: ISO format. *)
Definition date_str (y m d : N) : pystr :=
  zero_padded 4 y ++ [45%N] ++ zero_padded 2 m ++ [45%N] ++ zero_padded 2 d.

(** ** The type registry *)

Definition registry := list (key * class_id).

(** [{x.__name__: x for x in ComplexSerializableType.__subclasses__()}] *)
Definition build_registry (E : pyenv) (classes : list class_id) : registry :=
  fold_left (fun acc c => dict_set (KStr (cls_name E c)) c acc) classes [].

(** [serializable_complex_types()], with the module global [_sct] passed
    in and out: the registry is built on the first call and cached. *)
Definition serializable_complex_types (E : pyenv) (sct : option registry)
    : registry * option registry :=
  match sct with
  | None => let r := build_registry E (subclasses E) in (r, Some r)
  | Some r => (r, Some r)
  end.

(** [v in serializable_complex_types()]: the value is hashed first. *)
Definition registry_contains (E : pyenv) (reg : registry) (v : value) : result bool :=
  if hashable E v then
    Ok (match v with
        | VStr s => dict_contains (KStr s) reg
        | _ => false
        end)
  else Raise TypeError.

(** [serializable_complex_types()[v]] for a [v] found there. *)
Definition registry_get (reg : registry) (v : value) : result class_id :=
  match v with
  | VStr s => match dict_get (KStr s) reg with
              | Some c => Ok c
              | None => Raise KeyError
              end
  | _ => Raise KeyError
  end.

(** ** The formats *)

(** [Format.get] unwraps the document a format object holds; a format
    object is modelled by that document. *)
Definition get (obj : value) : value := obj.

Module StorageFormat.
Section WithEnv.
Variable E : pyenv.

(** [key.replace("．", ".")], defined on [str] keys only. *)
Definition restore_key (k : key) : result key :=
  match k with
  | KStr s => Ok (KStr (replace fullwidth_dot dot s))
  | _ => Raise AttributeError
  end.

(** [walk] of [to_working_format]: add sets, add dots. *)
Fixpoint to_working_format_walk (obj : value) : result value :=
  match obj with
  | VDict _ d =>
      if tag_is s_set d then
        v <- getitem_with to_working_format_walk (KStr s_value) d ;;
        set_of E v
      else if tag_is s_frozenset d then
        v <- getitem_with to_working_format_walk (KStr s_value) d ;;
        frozenset_of E v
      else
        res <- rebuild restore_key to_working_format_walk d [] ;;
        Ok (VDict false res)
  | VList l => l' <- map_result to_working_format_walk l ;; Ok (VList l')
  | _ => Ok obj
  end.

Definition to_working_format (obj : value) : result value :=
  to_working_format_walk obj.

(** [obj["_type"] in ("set", "frozenset")] under ["_type" in obj]. *)
Definition tag_in_sets (d : items) : bool :=
  tag_is s_set d || tag_is s_frozenset d.

(** [walk] of [to_json_mapping]. *)
Fixpoint to_json_mapping_walk (obj : value) : result value :=
  match obj with
  | VDict _ d =>
      if tag_in_sets d then
        v <- getitem_with to_json_mapping_walk (KStr s_value) d ;;
        list_of v
      else if tag_is s_Path d then
        getitem_with (fun v => Ok v) (KStr s_value) d
      else
        res <- rebuild restore_key to_json_mapping_walk d [] ;;
        Ok (VDict false
              (if dict_contains (KStr s_hash) res
               then dict_pop (KStr s_hash) res else res))
  | VDate y m d => Ok (VStr (date_str y m d))
  | VList l => l' <- map_result to_json_mapping_walk l ;; Ok (VList l')
  | _ => Ok obj
  end.

Definition to_json_mapping (obj : value) : result value :=
  to_json_mapping_walk obj.

End WithEnv.
End StorageFormat.

Module WorkingFormat.
Section WithEnv.
Variable E : pyenv.

(** [map_key] of [to_storage_format]: a [Symbol] is bracketed, a key
    that is no [str] is rendered by [str(key)] and not escaped, and a
    [str] has its dots replaced. *)
Definition map_key (k : key) : key :=
  match k with
  | KSym label => KStr (lit "__" ++ label ++ lit "__")
  | KInt n => KStr (of_Z n)
  | KNone => KStr (lit "None")
  | KBool b => KStr (if b then lit "True" else lit "False")
  | KFloat s i f => KStr (of_float s i f)
  | KStr s =>
      if contains dot s then KStr (replace dot fullwidth_dot s) else KStr s
  end.

(** [walk] of [to_storage_format]: remove sets, remove dots. *)
Fixpoint to_storage_format_walk (obj : value) : value :=
  match obj with
  | VDict _ d =>
      VDict false (rebuild_total map_key to_storage_format_walk d [])
  | VList l => VList (List.map to_storage_format_walk l)
  | VSet l =>
      VDict false [(KStr s_type, VStr s_set);
                   (KStr s_value, VList (List.map to_storage_format_walk l))]
  | VFrozenset l =>
      VDict false [(KStr s_type, VStr s_frozenset);
                   (KStr s_value, VList (List.map to_storage_format_walk l))]
  | _ => obj
  end.

Definition to_storage_format (obj : value) : value :=
  to_storage_format_walk obj.

(** [Path(v)] *)
Definition Path (v : value) : result value :=
  match v with
  | VStr s => Ok (VPath (path_norm E s))
  | VPath p => Ok (VPath p)
  | _ => Raise TypeError
  end.

(** [walk] of [to_raw_format]: add paths. *)
Fixpoint to_raw_format_walk (obj : value) : result value :=
  match obj with
  | VDict _ d =>
      if tag_is s_Path d then
        getitem_with Path (KStr s_value) d
      else
        d' <- map_items to_raw_format_walk d ;; Ok (VDict false d')
  | VList l => l' <- map_result to_raw_format_walk l ;; Ok (VList l')
  | VSet l => s <- set_of_map E to_raw_format_walk l ;; Ok (VSet s)
  | VFrozenset l => s <- set_of_map E to_raw_format_walk l ;; Ok (VFrozenset s)
  | _ => Ok obj
  end.

Definition to_raw_format (obj : value) : result value :=
  to_raw_format_walk obj.

End WithEnv.
End WorkingFormat.

Module RawFormat.
Section WithEnv.
Variable E : pyenv.

(** [walk] of [to_working_format]: remove paths. *)
Fixpoint to_working_format_walk (obj : value) : result value :=
  match obj with
  | VDict _ d =>
      d' <- map_items to_working_format_walk d ;;
      Ok (VDict (dict_contains (KStr s_hash) d') d')
  | VList l => l' <- map_result to_working_format_walk l ;; Ok (VList l')
  | VSet l => s <- set_of_map E to_working_format_walk l ;; Ok (VSet s)
  | VFrozenset l => s <- set_of_map E to_working_format_walk l ;; Ok (VFrozenset s)
  | VPath p =>
      Ok (VDict true [(KStr s_type, VStr s_Path);
                      (KStr s_value, VStr p);
                      (KStr s_hash, VInt (path_hash E p))])
  | _ => Ok obj
  end.

Definition to_working_format (obj : value) : result value :=
  to_working_format_walk obj.

(** The dictionary branch of [walk] of [to_obj_format], after the
    values have been converted into [res]. *)
Definition resolve (reg : registry) (res : items) : result value :=
  match dict_get (KStr s_type) res with
  | Some t =>
      known <- registry_contains E reg t ;;
      if known then
        let res1 := dict_pop (KStr s_type) res in
        let res2 := if dict_contains (KStr s_hash) res1
                    then dict_pop (KStr s_hash) res1 else res1 in
        c <- registry_get reg t ;;
        from_dict E c res2
      else Ok (VDict false res)
  | None => Ok (VDict false res)
  end.

(** [walk] of [to_obj_format]; [reg] is what
    [serializable_complex_types()] returns during the conversion. *)
Fixpoint to_obj_format_walk (reg : registry) (obj : value) : result value :=
  match obj with
  | VDict _ d =>
      res <- map_items (to_obj_format_walk reg) d ;; resolve reg res
  | VList l => l' <- map_result (to_obj_format_walk reg) l ;; Ok (VList l')
  | VSet l => s <- set_of_map E (to_obj_format_walk reg) l ;; Ok (VSet s)
  | VFrozenset l => s <- set_of_map E (to_obj_format_walk reg) l ;; Ok (VFrozenset s)
  | _ => Ok obj
  end.

Definition to_obj_format (sct : option registry) (obj : value) : result value :=
  to_obj_format_walk (fst (serializable_complex_types E sct)) obj.

End WithEnv.
End RawFormat.

Module ObjFormat.
Section WithEnv.
Variable E : pyenv.

(** [{"_type": name, **fields}] and [{"_type": name, "_hash": h, **fields}] *)
Definition tagged (name : pystr) (fs : items) : items :=
  dict_update [(KStr s_type, VStr name)] fs.
Definition tagged_hashed (name : pystr) (h : Z) (fs : items) : items :=
  dict_update [(KStr s_type, VStr name); (KStr s_hash, VInt h)] fs.

(** [walk] of [to_raw_format].  The [try] block covers the encoding of
    the fields as well: a [TypeError] raised there is caught too, and
    the handler then encodes the fields again. *)
Fixpoint to_raw_format_walk (obj : value) : result value :=
  match obj with
  | VObj c fs =>
      let name := cls_name E c in
      let encoded := map_items to_raw_format_walk fs in
      let handler := fs' <- encoded ;; Ok (VDict false (tagged name fs')) in
      match obj_hash E c fs with
      | Some h =>
          match encoded with
          | Ok fs' => Ok (VDict true (tagged_hashed name h fs'))
          | Raise TypeError => handler
          | Raise e => Raise e
          end
      | None => handler
      end
  | VDict _ d => d' <- map_items to_raw_format_walk d ;; Ok (VDict false d')
  | VList l => l' <- map_result to_raw_format_walk l ;; Ok (VList l')
  | VSet l => s <- set_of_map E to_raw_format_walk l ;; Ok (VSet s)
  | VFrozenset l => s <- set_of_map E to_raw_format_walk l ;; Ok (VFrozenset s)
  | _ => Ok obj
  end.

Definition to_raw_format (obj : value) : result value :=
  to_raw_format_walk obj.

End WithEnv.
End ObjFormat.

(** [load] and [store] *)
Definition load (E : pyenv) (doc : value) : result value :=
  r <- StorageFormat.to_working_format E doc ;; Ok (get r).

Definition store (doc : value) : value :=
  get (WorkingFormat.to_storage_format doc).

(** ** A sample runtime, used to run the walkers on concrete documents *)

(** Structural equality of values. *)
Definition key_value_eqb (f : value -> value -> bool) (a b : key * value) : bool :=
  key_eqb (fst a) (fst b) && f (snd a) (snd b).

Fixpoint value_eqb (a b : value) {struct a} : bool :=
  match a, b with
  | VNone, VNone => true
  | VBool x, VBool y => Bool.eqb x y
  | VInt n, VInt m => Z.eqb n m
  | VStr s, VStr t => PyStr.eqb s t
  | VDate y m d, VDate y' m' d' => N.eqb y y' && N.eqb m m' && N.eqb d d'
  | VSym s, VSym t => PyStr.eqb s t
  | VPath s, VPath t => PyStr.eqb s t
  | VList la, VList lb => list_eqb_with value_eqb la lb
  | VDict h da, VDict h' db =>
      Bool.eqb h h'
      && list_eqb_with (fun x y => key_eqb (fst x) (fst y) && value_eqb (snd x) (snd y)) da db
  | VSet la, VSet lb => list_eqb_with value_eqb la lb
  | VFrozenset la, VFrozenset lb => list_eqb_with value_eqb la lb
  | VObj c da, VObj c' db =>
      Nat.eqb c c'
      && list_eqb_with (fun x y => key_eqb (fst x) (fst y) && value_eqb (snd x) (snd y)) da db
  | _, _ => false
  end.

Module Sample.

Definition Widget : class_id := 0.
Definition Gadget : class_id := 1.

(** Sets iterate in reverse insertion order; paths are kept as written;
    a [Widget] is hashable, a [Gadget] is not; instances are equal when
    their classes and fields are; decoding keeps the fields. *)
Definition env : pyenv := {|
  set_order := @rev value;
  path_norm := fun s => s;
  path_hash := fun s => Z.of_nat (length s);
  cls_name := fun c => match c with
                       | O => lit "Widget"
                       | _ => lit "Gadget"
                       end;
  obj_hash := fun c fs => match c with
                          | O => Some (Z.of_nat (length fs))
                          | _ => None
                          end;
  obj_eq := fun c fs c' fs' => value_eqb (VObj c fs) (VObj c' fs');
  from_dict := fun c fs => Ok (VObj c fs);
  subclasses := [Widget; Gadget]
|}.

End Sample.


Module Clash.

(** Two distinct classes that are both named "Widget". *)
Definition env : pyenv := {|
  set_order := @rev value;
  path_norm := fun s => s;
  path_hash := fun s => Z.of_nat (length s);
  cls_name := fun _ => lit "Widget";
  obj_hash := fun c fs => Some (Z.of_nat c);
  obj_eq := fun c fs c' fs' => value_eqb (VObj c fs) (VObj c' fs');
  from_dict := fun c fs => Ok (VObj c fs);
  subclasses := [0; 1]
|}.

End Clash.

Module Indirect.

(** The sample runtime when [Widget] derives from [Gadget]:
    [__subclasses__()] returns the direct subclasses only. *)
Definition env : pyenv := {|
  set_order := set_order Sample.env;
  path_norm := path_norm Sample.env;
  path_hash := path_hash Sample.env;
  cls_name := cls_name Sample.env;
  obj_hash := obj_hash Sample.env;
  obj_eq := obj_eq Sample.env;
  from_dict := from_dict Sample.env;
  subclasses := [Sample.Gadget]
|}.

End Indirect.

(** * Notions used to state the properties *)

(** The conversion raises. *)
Definition raises {A} (r : result A) : Prop := exists e, r = Raise e.

(** The key is a [str]. *)
Definition is_str (k : key) : bool :=
  match k with
  | KStr _ => true
  | _ => false
  end.

(** The keys are pairwise distinct. *)
Fixpoint nodupb (l : list key) : bool :=
  match l with
  | [] => true
  | k :: r => negb (existsb (key_eqb k) r) && nodupb r
  end.

(** ** Malformed tagged mappings *)

(** A mapping tagged "set" or "frozenset" that has no "_value" field. *)
Definition malformed_set (d : items) : bool :=
  StorageFormat.tag_in_sets d && negb (dict_contains (KStr s_value) d).

(** Such a mapping lies where the Storage -> Working conversion goes: it
    is the document, or it lies in an element of a list, in a field of a
    mapping that is not set-tagged, or in the "_value" of a set-tagged
    mapping. *)
Inductive has_malformed_set : value -> Prop :=
| hms_here : forall h d,
    malformed_set d = true -> has_malformed_set (VDict h d)
| hms_element : forall l x,
    In x l -> has_malformed_set x -> has_malformed_set (VList l)
| hms_field : forall h d k v,
    StorageFormat.tag_in_sets d = false ->
    In (k, v) d -> has_malformed_set v -> has_malformed_set (VDict h d)
| hms_value : forall h d v,
    StorageFormat.tag_in_sets d = true ->
    dict_get (KStr s_value) d = Some v ->
    has_malformed_set v -> has_malformed_set (VDict h d).

(** [x] occurs in the document: it is the document, or it occurs in an
    element of a list or in a field of a mapping. *)
Inductive occurs (x : value) : value -> Prop :=
| occ_here : occurs x x
| occ_element : forall l y, In y l -> occurs x y -> occurs x (VList l)
| occ_field : forall h d k v, In (k, v) d -> occurs x v -> occurs x (VDict h d).

(** "_type" or "_value" *)
Definition set_field (k : key) : bool :=
  key_eqb k (KStr s_type) || key_eqb k (KStr s_value).

(** A tree of lists and mappings in which a mapping tagged "set" or
    "frozenset" has no field besides "_type" and "_value". *)
Fixpoint two_field_sets (v : value) : bool :=
  match v with
  | VList l => forallb two_field_sets l
  | VDict _ d =>
      forallb (fun kv => two_field_sets (snd kv)) d
      && (if StorageFormat.tag_in_sets d
          then forallb (fun kv => set_field (fst kv)) d && nodupb (dict_keys d)
          else true)
  | _ => true
  end.

(** ** Symbol keys *)

(** The key is a [Symbol]. *)
Definition is_symbol (k : key) : bool :=
  match k with
  | KSym _ => true
  | _ => false
  end.

(** No mapping of the document has a [Symbol] key.  Domain objects are
    opaque to [load] and [store]. *)
Fixpoint symbol_free (v : value) : bool :=
  match v with
  | VList l | VSet l | VFrozenset l => forallb symbol_free l
  | VDict _ d => forallb (fun kv => negb (is_symbol (fst kv)) && symbol_free (snd kv)) d
  | _ => true
  end.

(** The bracketed string a [Symbol] key is rendered as. *)
Definition bracketed (label : pystr) : pystr := lit "__" ++ label ++ lit "__".

(** The items of a mapping. *)
Definition items_of (v : value) : items :=
  match v with
  | VDict _ d => d
  | _ => []
  end.

(** The shape of what [store] returns: no native set or frozenset is
    left, and every mapping key is a [str]. *)
Fixpoint storage_shaped (v : value) : bool :=
  match v with
  | VList l => forallb storage_shaped l
  | VDict _ d => forallb (fun kv => is_str (fst kv) && storage_shaped (snd kv)) d
  | VSet _ | VFrozenset _ => false
  | _ => true
  end.

(** ** Paths *)

(** No native path is left in the document (domain objects are opaque). *)
Fixpoint path_free (v : value) : bool :=
  match v with
  | VPath _ => false
  | VList l | VSet l | VFrozenset l => forallb path_free l
  | VDict _ d => forallb (fun kv => path_free (snd kv)) d
  | _ => true
  end.

(** No mapping tagged "Path" is left in the document. *)
Fixpoint path_tag_free (v : value) : bool :=
  match v with
  | VList l | VSet l | VFrozenset l => forallb path_tag_free l
  | VDict _ d =>
      negb (tag_is s_Path d) && forallb (fun kv => path_tag_free (snd kv)) d
  | _ => true
  end.

(** The hash-carrying mapping a path is turned into. *)
Definition path_mapping (E : pyenv) (p : pystr) : value :=
  VDict true [(KStr s_type, VStr s_Path);
              (KStr s_value, VStr p);
              (KStr s_hash, VInt (path_hash E p))].

(** The elements of the set built from [l]. *)
Definition set_elements (E : pyenv) (l : list value) : list value :=
  set_order E (fold_left (set_add E) l []).

(** Neither a mapping, nor a date, nor a list. *)
Definition json_passthrough (v : value) : bool :=
  match v with
  | VDict _ _ | VDate _ _ _ | VList _ => false
  | _ => true
  end.

(** A plain JSON tree: null, booleans, integers, strings, lists, and
    plain mappings with string keys, none of them "_hash". *)
Fixpoint json_shaped (v : value) : bool :=
  match v with
  | VNone | VBool _ | VInt _ | VStr _ => true
  | VList l => forallb json_shaped l
  | VDict h d =>
      negb h
      && forallb (fun kv => is_str (fst kv) && json_shaped (snd kv)) d
      && negb (dict_contains (KStr s_hash) d)
  | _ => false
  end.

(** The "_value" of a tagged mapping fits its tag: a list for "set" and
    "frozenset", a string for "Path". *)
Definition tagged_value_ok (d : items) : bool :=
  if StorageFormat.tag_in_sets d then
    match dict_get (KStr s_value) d with
    | Some (VList _) => true
    | _ => false
    end
  else if tag_is s_Path d then
    match dict_get (KStr s_value) d with
    | Some (VStr _) => true
    | _ => false
    end
  else true.

(** A stored document as [to_json_mapping] expects it: null, booleans,
    integers, strings, dates, lists, and mappings with string keys whose
    tagged mappings carry a fitting "_value". *)
Fixpoint json_source (v : value) : bool :=
  match v with
  | VNone | VBool _ | VInt _ | VStr _ | VDate _ _ _ => true
  | VList l => forallb json_source l
  | VDict _ d =>
      forallb (fun kv => is_str (fst kv) && json_source (snd kv)) d
      && tagged_value_ok d
  | _ => false
  end.

(** Neither a mapping, nor a list, nor a set or frozenset. *)
Definition is_leaf (v : value) : bool :=
  match v with
  | VDict _ _ | VList _ | VSet _ | VFrozenset _ => false
  | _ => true
  end.

(** ** Domain objects and the registry *)

(** The class a tag resolves to: the last subclass carrying that name. *)
Definition last_named (E : pyenv) (classes : list class_id) (name : pystr)
    : option class_id :=
  find (fun c => PyStr.eqb (cls_name E c) name) (rev classes).

(** The mapping is not tagged, or tagged with a string that is not in the
    registry. *)
Definition tag_unknown (reg : registry) (d : items) : bool :=
  match dict_get (KStr s_type) d with
  | None => true
  | Some (VStr t) => negb (dict_contains (KStr t) reg)
  | Some _ => false
  end.

(** A document of lists, mappings and leaves none of whose mappings
    carries a registered tag. *)
Fixpoint tags_unknown (reg : registry) (v : value) : bool :=
  match v with
  | VList l => forallb (tags_unknown reg) l
  | VDict _ d =>
      tag_unknown reg d && forallb (fun kv => tags_unknown reg (snd kv)) d
  | VSet _ | VFrozenset _ => false
  | _ => true
  end.

(** The same document with every [hashdict] turned into a plain [dict]. *)
Fixpoint plain (v : value) : value :=
  match v with
  | VList l => VList (List.map plain l)
  | VDict _ d => VDict false (List.map (fun kv => (fst kv, plain (snd kv))) d)
  | _ => v
  end.

(** What [to_obj_format] hands to [from_dict]: the converted fields
    without "_type" and "_hash". *)
Definition stripped (res : items) : items :=
  let res1 := dict_pop (KStr s_type) res in
  if dict_contains (KStr s_hash) res1 then dict_pop (KStr s_hash) res1 else res1.

(** ** Stored documents and their round trip *)

(** The mapping a set or frozenset is stored as. *)
Definition set_mapping (tag : pystr) (l : list value) : value :=
  VDict false [(KStr s_type, VStr tag); (KStr s_value, VList l)].

(** A key the database accepts: a string without ".". *)
Definition storage_key (k : key) : bool :=
  match k with
  | KStr s => negb (contains dot s)
  | _ => false
  end.

(** The items are exactly "_type" (a string) and "_value" (a list). *)
Definition set_mapping_items (d : items) : bool :=
  match d with
  | [(k1, VStr _); (k2, VList _)] =>
      key_eqb k1 (KStr s_type) && key_eqb k2 (KStr s_value)
  | _ => false
  end.

(** A Storage document: null, booleans, integers, strings, dates, lists,
    and plain mappings with pairwise distinct dot-free string keys; a
    mapping tagged "set" or "frozenset" has the two items [store] writes. *)
Fixpoint storage_doc (v : value) : bool :=
  match v with
  | VNone | VBool _ | VInt _ | VStr _ | VDate _ _ _ => true
  | VList l => forallb storage_doc l
  | VDict h d =>
      negb h
      && forallb (fun kv => storage_key (fst kv) && storage_doc (snd kv)) d
      && nodupb (dict_keys d)
      && (if StorageFormat.tag_in_sets d then set_mapping_items d else true)
  | _ => false
  end.

(** No element of [l] is kept out of a set by an earlier one: building a
    set from [l] after the elements [seen] adds every element of [l]. *)
Fixpoint distinct_after (E : pyenv) (seen l : list value) : bool :=
  match l with
  | [] => true
  | x :: r =>
      negb (existsb (fun y => same_elem E y x) seen)
      && distinct_after E (seen ++ [x]) r
  end.

Definition distinct (E : pyenv) (l : list value) : bool := distinct_after E [] l.

(** The elements of every stored set load to hashable, pairwise distinct
    values. *)
Fixpoint sets_loadable (E : pyenv) (v : value) : bool :=
  match v with
  | VList l => forallb (sets_loadable E) l
  | VDict _ d =>
      forallb (fun kv => sets_loadable E (snd kv)) d
      && (if StorageFormat.tag_in_sets d then
            match dict_get (KStr s_value) d with
            | Some (VList l) =>
                match map_result (StorageFormat.to_working_format_walk E) l with
                | Ok ws => forallb (hashable E) ws && distinct E ws
                | Raise _ => false
                end
            | _ => false
            end
          else true)
  | _ => true
  end.

(** "set" or "frozenset" *)
Definition is_set_tag (tag : pystr) : bool :=
  PyStr.eqb tag s_set || PyStr.eqb tag s_frozenset.

Unset Elimination Schemes.

(** Two Storage documents that differ at most in the order of the
    elements of their stored sets. *)
Inductive stored_equiv : value -> value -> Prop :=
| se_same : forall v, stored_equiv v v
| se_list : forall l l',
    Forall2 stored_equiv l l' -> stored_equiv (VList l) (VList l')
| se_dict : forall h d d',
    Forall2 (fun kv kv' => fst kv = fst kv' /\ stored_equiv (snd kv) (snd kv')) d d' ->
    stored_equiv (VDict h d) (VDict h d')
| se_set : forall tag l l0 l',
    is_set_tag tag = true ->
    Forall2 stored_equiv l l0 -> Permutation l0 l' ->
    stored_equiv (set_mapping tag l) (set_mapping tag l').

Set Elimination Schemes.

(** [load] succeeds on the stored document, and [store] gives it back up
    to the order of the elements of its stored sets. *)
Definition restores (E : pyenv) (d : value) : Prop :=
  storage_doc d = true -> sets_loadable E d = true ->
  exists w, StorageFormat.to_working_format_walk E d = Ok w
            /\ stored_equiv d (WorkingFormat.to_storage_format_walk w).

(** No mapping of the document is tagged "set" or "frozenset". *)
Fixpoint set_mapping_free (v : value) : bool :=
  match v with
  | VList l | VSet l | VFrozenset l => forallb set_mapping_free l
  | VDict _ d =>
      negb (StorageFormat.tag_in_sets d)
      && forallb (fun kv => set_mapping_free (snd kv)) d
  | _ => true
  end.

(** ** Working documents and their round trip *)

(** A string key without the full-width dot. *)
Definition working_key (k : key) : bool :=
  match k with
  | KStr s => negb (contains fullwidth_dot s)
  | _ => false
  end.

(** A value that is hashable without the help of a "_hash" field: a
    hashable leaf, or a frozenset of such values. *)
Fixpoint plain_hashable (E : pyenv) (v : value) : bool :=
  match v with
  | VFrozenset l => forallb (plain_hashable E) l
  | VList _ | VSet _ | VDict _ _ => false
  | _ => hashable E v
  end.

(** The Working documents the round trip is proved for: leaves, lists,
    mappings that are not tagged "set" or "frozenset" and whose keys are
    pairwise distinct strings without the full-width dot, and sets and
    frozensets of pairwise distinct [plain_hashable] elements. *)
Fixpoint working_doc (E : pyenv) (v : value) : bool :=
  match v with
  | VList l => forallb (working_doc E) l
  | VDict _ d =>
      forallb (fun kv => working_key (fst kv) && working_doc E (snd kv)) d
      && nodupb (dict_keys d)
      && negb (StorageFormat.tag_in_sets d)
  | VSet l | VFrozenset l =>
      forallb (working_doc E) l && forallb (plain_hashable E) l && distinct E l
  | _ => true
  end.

Unset Elimination Schemes.

(** Two documents that differ at most in the iteration order of their
    sets and frozensets, and in mappings being [hashdict]s or plain. *)
Inductive working_equiv : value -> value -> Prop :=
| we_same : forall v, working_equiv v v
| we_list : forall l l',
    Forall2 working_equiv l l' -> working_equiv (VList l) (VList l')
| we_dict : forall h h' d d',
    Forall2 (fun kv kv' => fst kv = fst kv' /\ working_equiv (snd kv) (snd kv')) d d' ->
    working_equiv (VDict h d) (VDict h' d')
| we_set : forall l l0 l',
    Forall2 working_equiv l l0 -> Permutation l0 l' ->
    working_equiv (VSet l) (VSet l')
| we_frozenset : forall l l0 l',
    Forall2 working_equiv l l0 -> Permutation l0 l' ->
    working_equiv (VFrozenset l) (VFrozenset l').

Set Elimination Schemes.

(** What was stored loads, and gives the Working document back up to the
    iteration order of its sets. *)
Definition reloads (E : pyenv) (w : value) : Prop :=
  working_doc E w = true ->
  exists w', StorageFormat.to_working_format_walk E
               (WorkingFormat.to_storage_format_walk w) = Ok w'
             /\ working_equiv w w'.

(** A Working document in the sense of the data model: null, booleans,
    integers, strings, dates, lists, mappings with pairwise distinct
    string keys, and sets and frozensets of pairwise distinct hashable
    documents. *)
Fixpoint document_shaped (E : pyenv) (v : value) : bool :=
  match v with
  | VNone | VBool _ | VInt _ | VStr _ | VDate _ _ _ => true
  | VList l => forallb (document_shaped E) l
  | VDict _ d =>
      forallb (fun kv => is_str (fst kv) && document_shaped E (snd kv)) d
      && nodupb (dict_keys d)
  | VSet l | VFrozenset l =>
      forallb (document_shaped E) l && forallb (hashable E) l && distinct E l
  | _ => false
  end.

(** ** Documents with domain objects and their round trip *)

(** A leaf that is not a domain object. *)
Definition is_plain_leaf (v : value) : bool :=
  match v with
  | VDict _ _ | VList _ | VSet _ | VFrozenset _ | VObj _ _ => false
  | _ => true
  end.

Unset Elimination Schemes.

(** [obj_equiv E d d']: [d'] is [d] with every domain object replaced by
    an instance that is equal to it ([x' == x]), up to the iteration order
    of sets and frozensets and to mappings being [hashdict]s or plain. *)
Inductive obj_equiv (E : pyenv) : value -> value -> Prop :=
| oe_leaf : forall v, is_plain_leaf v = true -> obj_equiv E v v
| oe_obj : forall c fs c' fs',
    obj_eq E c' fs' c fs = true -> obj_equiv E (VObj c fs) (VObj c' fs')
| oe_list : forall l l',
    Forall2 (obj_equiv E) l l' -> obj_equiv E (VList l) (VList l')
| oe_dict : forall h h' d d',
    Forall2 (fun kv kv' => fst kv = fst kv' /\ obj_equiv E (snd kv) (snd kv')) d d' ->
    obj_equiv E (VDict h d) (VDict h' d')
| oe_set : forall l l0 l',
    Forall2 (obj_equiv E) l l0 -> Permutation l0 l' ->
    obj_equiv E (VSet l) (VSet l')
| oe_frozenset : forall l l0 l',
    Forall2 (obj_equiv E) l l0 -> Permutation l0 l' ->
    obj_equiv E (VFrozenset l) (VFrozenset l').

Set Elimination Schemes.

(** The same field names, with equivalent values. *)
Definition fields_equiv (E : pyenv) (fs fs' : items) : Prop :=
  Forall2 (fun kv kv' => fst kv = fst kv' /\ obj_equiv E (snd kv) (snd kv')) fs fs'.

Fixpoint All {A} (P : A -> Prop) (l : list A) : Prop :=
  match l with
  | [] => True
  | x :: r => P x /\ All P r
  end.

(** The decoding contract of the classes, for the instances of the
    document: [from_dict], given fields equivalent to those an instance
    encodes to, returns an instance equal to it. *)
Fixpoint decodes_back (E : pyenv) (v : value) : Prop :=
  match v with
  | VObj c fs =>
      (forall fs', fields_equiv E fs fs' ->
         exists c' fs'', from_dict E c fs' = Ok (VObj c' fs'')
                         /\ obj_eq E c' fs'' c fs = true)
      /\ All (fun kv => decodes_back E (snd kv)) fs
  | VList l | VSet l | VFrozenset l => All (decodes_back E) l
  | VDict _ d => All (fun kv => decodes_back E (snd kv)) d
  | _ => True
  end.

(** No field is named "_type" or "_hash". *)
Definition reserved_free (d : items) : bool :=
  negb (dict_contains (KStr s_type) d) && negb (dict_contains (KStr s_hash) d).

(** The name of the class resolves to the class. *)
Definition registered (E : pyenv) (reg : registry) (c : class_id) : bool :=
  match dict_get (KStr (cls_name E c)) reg with
  | Some c' => Nat.eqb c' c
  | None => false
  end.

(** An Object document: every domain object is of a registered class and
    encodes to pairwise distinct fields, none of them reserved; no plain
    mapping carries a registered tag. *)
Fixpoint obj_shape (E : pyenv) (reg : registry) (v : value) : bool :=
  match v with
  | VObj c fs =>
      registered E reg c && nodupb (dict_keys fs) && reserved_free fs
      && forallb (fun kv => obj_shape E reg (snd kv)) fs
  | VList l | VSet l | VFrozenset l => forallb (obj_shape E reg) l
  | VDict _ d =>
      tag_unknown reg d && forallb (fun kv => obj_shape E reg (snd kv)) d
  | _ => true
  end.

(** A set keeps its elements through both conversions: their encodings
    are hashable and pairwise distinct, and so are the values decoded
    from them. *)
Definition elements_survive (E : pyenv) (reg : registry) (l : list value) : bool :=
  match map_result (ObjFormat.to_raw_format_walk E) l with
  | Ok rs =>
      forallb (hashable E) rs && distinct E rs
      && match map_result (RawFormat.to_obj_format_walk E reg) (set_order E rs) with
         | Ok xs => forallb (hashable E) xs && distinct E xs
         | Raise _ => false
         end
  | Raise _ => false
  end.

Fixpoint sets_survive (E : pyenv) (reg : registry) (v : value) : bool :=
  match v with
  | VSet l | VFrozenset l =>
      forallb (sets_survive E reg) l && elements_survive E reg l
  | VList l => forallb (sets_survive E reg) l
  | VDict _ d | VObj _ d => forallb (fun kv => sets_survive E reg (snd kv)) d
  | _ => true
  end.

(** Object -> Raw -> Object succeeds on the document and gives back an
    equivalent one. *)
Definition recovers (E : pyenv) (reg : registry) (d : value) : Prop :=
  obj_shape E reg d = true -> sets_survive E reg d = true -> decodes_back E d ->
  exists r d', ObjFormat.to_raw_format_walk E d = Ok r
               /\ RawFormat.to_obj_format_walk E reg r = Ok d'
               /\ obj_equiv E d d'.

(** [{"cert": Widget(n=3), "others": [Gadget(n=4)],
      "pps": {Widget(n=1), Widget(n=2)}}] *)
Definition sample_certificate : value :=
  VDict false
    [(KStr (lit "cert"), VObj Sample.Widget [(KStr (lit "n"), VInt 3)]);
     (KStr (lit "others"), VList [VObj Sample.Gadget [(KStr (lit "n"), VInt 4)]]);
     (KStr (lit "pps"),
       VSet [VObj Sample.Widget [(KStr (lit "n"), VInt 1)];
             VObj Sample.Widget [(KStr (lit "n"), VInt 2)]])].


(** ** Storage safety *)

(** No native set or frozenset, and only dot-free string keys. *)
Fixpoint storage_safe (v : value) : bool :=
  match v with
  | VList l => forallb storage_safe l
  | VDict _ d => forallb (fun kv => storage_key (fst kv) && storage_safe (snd kv)) d
  | VSet _ | VFrozenset _ => false
  | _ => true
  end.

(** What is written for a key that is no [str] has no ".": the label of
    a [Symbol] has none, and the key is no [float]. *)
Definition label_dot_free (k : key) : bool :=
  match k with
  | KSym label => negb (contains dot label)
  | KFloat _ _ _ => false
  | _ => true
  end.

(** No key of the document that is no [str] has a "." in what is written
    for it. *)
Fixpoint labels_dot_free (v : value) : bool :=
  match v with
  | VList l | VSet l | VFrozenset l => forallb labels_dot_free l
  | VDict _ d =>
      forallb (fun kv => label_dot_free (fst kv) && labels_dot_free (snd kv)) d
  | _ => true
  end.

(** ** Documents as Python builds them *)

(** The keys of every mapping of the document are pairwise distinct, as
    the keys of a Python [dict] are. *)
Fixpoint keys_distinct (v : value) : bool :=
  match v with
  | VList l | VSet l | VFrozenset l => forallb keys_distinct l
  | VDict _ d | VObj _ d =>
      nodupb (dict_keys d) && forallb (fun kv => keys_distinct (snd kv)) d
  | _ => true
  end.

(** ** What [load] returns *)

(** Outside its sets and frozensets, which [load] does not look into,
    the document has plain mappings only, none of them tagged "set" or
    "frozenset", with pairwise distinct string keys without the full-width
    dot. *)
Fixpoint loaded_shape (v : value) : bool :=
  match v with
  | VList l => forallb loaded_shape l
  | VDict h d =>
      negb h
      && forallb (fun kv => working_key (fst kv) && loaded_shape (snd kv)) d
      && nodupb (dict_keys d)
      && negb (StorageFormat.tag_in_sets d)
  | _ => true
  end.

(** [x] lies where the Storage -> Working conversion of the document
    goes: it is the document, or it lies in an element of a list, in a
    field of a mapping that is not tagged "set" or "frozenset", or in the
    "_value" of a mapping that is. *)
Inductive loaded_part (x : value) : value -> Prop :=
| lp_here : loaded_part x x
| lp_element : forall l y,
    In y l -> loaded_part x y -> loaded_part x (VList l)
| lp_field : forall h d k v,
    StorageFormat.tag_in_sets d = false ->
    In (k, v) d -> loaded_part x v -> loaded_part x (VDict h d)
| lp_value : forall h d v,
    StorageFormat.tag_in_sets d = true ->
    dict_get (KStr s_value) d = Some v ->
    loaded_part x v -> loaded_part x (VDict h d).

(** A stored value that loads, if it loads, to something a set cannot
    hold: a list, a set, or a mapping other than a stored frozenset. *)
Definition loads_unhashable (v : value) : bool :=
  match v with
  | VList _ | VSet _ => true
  | VDict _ d => negb (tag_is s_frozenset d) || tag_is s_set d
  | _ => false
  end.

(** ** What [store] returns *)

(** Plain mappings with pairwise distinct dot-free string keys, lists and
    leaves: no native set or frozenset. *)
Fixpoint stored_shape (v : value) : bool :=
  match v with
  | VList l => forallb stored_shape l
  | VDict h d =>
      negb h
      && forallb (fun kv => storage_key (fst kv) && stored_shape (snd kv)) d
      && nodupb (dict_keys d)
  | VSet _ | VFrozenset _ => false
  | _ => true
  end.

(** The last item of [d] whose key [map_key] sends to [k']. *)
Definition last_mapped (d : items) (k' : key) : option (key * value) :=
  find (fun kv => key_eqb (WorkingFormat.map_key (fst kv)) k') (rev d).

(** ** Plain data *)

(** Lists, leaves other than dates, and mappings that are not tagged
    "set", "frozenset" or "Path" and have no "_hash" key. *)
Fixpoint plain_data (v : value) : bool :=
  match v with
  | VDate _ _ _ => false
  | VList l => forallb plain_data l
  | VDict _ d =>
      negb (StorageFormat.tag_in_sets d) && negb (tag_is s_Path d)
      && negb (dict_contains (KStr s_hash) d)
      && forallb (fun kv => plain_data (snd kv)) d
  | _ => true
  end.

(** ** Documents without sets, paths and domain objects *)

(** No set or frozenset anywhere in the document. *)
Fixpoint set_free (v : value) : bool :=
  match v with
  | VSet _ | VFrozenset _ => false
  | VList l => forallb set_free l
  | VDict _ d | VObj _ d => forallb (fun kv => set_free (snd kv)) d
  | _ => true
  end.

(** No domain object is left in the document. *)
Fixpoint obj_free (v : value) : bool :=
  match v with
  | VObj _ _ => false
  | VList l | VSet l | VFrozenset l => forallb obj_free l
  | VDict _ d => forallb (fun kv => obj_free (snd kv)) d
  | _ => true
  end.

(** Every native path of the document is written as pathlib prints it:
    [str(Path(p)) == p]. *)
Fixpoint paths_canonical (E : pyenv) (v : value) : bool :=
  match v with
  | VPath p => PyStr.eqb (path_norm E p) p
  | VList l | VSet l | VFrozenset l => forallb (paths_canonical E) l
  | VDict _ d | VObj _ d => forallb (fun kv => paths_canonical E (snd kv)) d
  | _ => true
  end.

(** The header [ObjFormat.to_raw_format] puts in front of the encoded
    fields of an instance of class [c] with fields [fs]. *)
Definition header (E : pyenv) (c : class_id) (fs : items) : items :=
  match obj_hash E c fs with
  | Some h => [(KStr s_type, VStr (cls_name E c)); (KStr s_hash, VInt h)]
  | None => [(KStr s_type, VStr (cls_name E c))]
  end.

(** The registry entry of a class. *)
Definition registry_entry (E : pyenv) (c : class_id) : key * class_id :=
  (KStr (cls_name E c), c).

(** The value is a [str]. *)
Definition is_string (v : value) : bool :=
  match v with
  | VStr _ => true
  | _ => false
  end.

(** [x] is the document or lies in it: in an element of a list, of a set
    or of a frozenset, in a value of a mapping, or in a field of a domain
    object. *)
Inductive part_of (x : value) : value -> Prop :=
| po_here : part_of x x
| po_list : forall l y, In y l -> part_of x y -> part_of x (VList l)
| po_set : forall l y, In y l -> part_of x y -> part_of x (VSet l)
| po_frozenset : forall l y, In y l -> part_of x y -> part_of x (VFrozenset l)
| po_dict : forall h d k v, In (k, v) d -> part_of x v -> part_of x (VDict h d)
| po_obj : forall c fs k v, In (k, v) fs -> part_of x v -> part_of x (VObj c fs).

(** An Object document as Python builds it: the elements of its sets and
    frozensets are hashable leaves, hashable domain objects and
    frozensets of such; the fields of a domain object have pairwise
    distinct names, none of them "_hash". *)
Fixpoint encodable (E : pyenv) (v : value) : bool :=
  match v with
  | VSet l | VFrozenset l =>
      forallb (encodable E) l && forallb (plain_hashable E) l
  | VList l => forallb (encodable E) l
  | VDict _ d => forallb (fun kv => encodable E (snd kv)) d
  | VObj _ fs =>
      nodupb (dict_keys fs) && negb (dict_contains (KStr s_hash) fs)
      && forallb (fun kv => encodable E (snd kv)) fs
  | _ => true
  end.

(** ** Documents that go to the database and back *)

(** A tag the format layer uses for itself. *)
Definition builtin_tag (s : pystr) : bool :=
  PyStr.eqb s s_set || PyStr.eqb s s_frozenset || PyStr.eqb s s_Path.

(** A document without sets: the keys of its mappings and the field names
    of its domain objects are pairwise distinct strings without the
    full-width dot; no mapping is tagged "set", "frozenset" or "Path"; no
    class is named so, and no field is named "_type" or "_hash"; every
    path is written as pathlib prints it. *)
Fixpoint storable (E : pyenv) (v : value) : bool :=
  match v with
  | VSet _ | VFrozenset _ => false
  | VPath p => PyStr.eqb (path_norm E p) p
  | VList l => forallb (storable E) l
  | VDict _ d =>
      forallb (fun kv => working_key (fst kv) && storable E (snd kv)) d
      && nodupb (dict_keys d)
      && negb (StorageFormat.tag_in_sets d) && negb (tag_is s_Path d)
  | VObj c fs =>
      forallb (fun kv => working_key (fst kv) && storable E (snd kv)) fs
      && nodupb (dict_keys fs) && reserved_free fs
      && negb (builtin_tag (cls_name E c))
  | _ => true
  end.

(** Every key of a mapping and every field name of a domain object is a
    string. *)
Fixpoint str_keyed (v : value) : bool :=
  match v with
  | VList l | VSet l | VFrozenset l => forallb str_keyed l
  | VDict _ d | VObj _ d =>
      forallb (fun kv => is_str (fst kv) && str_keyed (snd kv)) d
  | _ => true
  end.

(** [{"cert": Widget(n=3), "others": [Gadget(n=4)],
      "report.pdf": Path("/x/y")}] *)
Definition sample_entry : value :=
  VDict false
    [(KStr (lit "cert"), VObj Sample.Widget [(KStr (lit "n"), VInt 3)]);
     (KStr (lit "others"), VList [VObj Sample.Gadget [(KStr (lit "n"), VInt 4)]]);
     (KStr (lit "report.pdf"), VPath (lit "/x/y"))].

(** ** Malformed path mappings *)

(** A mapping tagged "Path" whose "_value" is missing, or is neither a
    string nor a path. *)
Definition malformed_path (d : items) : bool :=
  tag_is s_Path d
  && match dict_get (KStr s_value) d with
     | Some (VStr _) | Some (VPath _) => false
     | _ => true
     end.

(** [x] lies where the Working -> Raw conversion of the document goes:
    it is the document, or it lies in an element of a list, of a set or of
    a frozenset, or in a value of a mapping that is not tagged "Path". *)
Inductive raised_part (x : value) : value -> Prop :=
| rp_here : raised_part x x
| rp_list : forall l y, In y l -> raised_part x y -> raised_part x (VList l)
| rp_set : forall l y, In y l -> raised_part x y -> raised_part x (VSet l)
| rp_frozenset : forall l y,
    In y l -> raised_part x y -> raised_part x (VFrozenset l)
| rp_dict : forall h d k v,
    tag_is s_Path d = false ->
    In (k, v) d -> raised_part x v -> raised_part x (VDict h d).

(** ** Documents that can be exported *)

(** A Raw document made of null, booleans, integers, strings, dates,
    paths, lists, sets, frozensets, and mappings with pairwise distinct
    string keys that are not tagged "set", "frozenset" or "Path". *)
Fixpoint exportable (v : value) : bool :=
  match v with
  | VNone | VBool _ | VInt _ | VStr _ | VDate _ _ _ | VPath _ => true
  | VList l | VSet l | VFrozenset l => forallb exportable l
  | VDict _ d =>
      forallb (fun kv => is_str (fst kv) && exportable (snd kv)) d
      && nodupb (dict_keys d)
      && negb (StorageFormat.tag_in_sets d) && negb (tag_is s_Path d)
  | _ => false
  end.

(** The "_value" of a mapping tagged "Path" is a string. *)
Definition path_value_ok (d : items) : bool :=
  if tag_is s_Path d then
    match dict_get (KStr s_value) d with
    | Some (VStr _) => true
    | _ => false
    end
  else true.

(** The same for a Working document, which has mappings tagged "Path"
    in the place of the paths. *)
Fixpoint exportable_working (v : value) : bool :=
  match v with
  | VNone | VBool _ | VInt _ | VStr _ | VDate _ _ _ => true
  | VList l | VSet l | VFrozenset l => forallb exportable_working l
  | VDict _ d =>
      forallb (fun kv => is_str (fst kv) && exportable_working (snd kv)) d
      && nodupb (dict_keys d)
      && negb (StorageFormat.tag_in_sets d) && path_value_ok d
  | _ => false
  end.

(** [None] or a string: the values of an [Optional[str]] field. *)
Definition is_opt_str (v : value) : bool :=
  match v with
  | VNone | VStr _ => true
  | _ => false
  end.

(** ** Sets of domain objects *)

(** A domain object whose class is not named like a built-in tag and
    whose field names are pairwise distinct and not reserved. *)
Definition plain_instance (E : pyenv) (v : value) : bool :=
  match v with
  | VObj c fs =>
      nodupb (dict_keys fs) && reserved_free fs
      && negb (builtin_tag (cls_name E c))
  | _ => false
  end.

(** A mapping with pairwise distinct keys that is tagged with a string
    other than the built-in tags. *)
Definition tagged_mapping (v : value) : bool :=
  match v with
  | VDict _ d =>
      nodupb (dict_keys d)
      && match dict_get (KStr s_type) d with
         | Some (VStr t) => negb (builtin_tag t)
         | _ => false
         end
  | _ => false
  end.

(** ** Statements proved by induction on the document *)

(** The document encodes, to a hashable value when it may be put in a
    set. *)
Definition encodes (E : pyenv) (d : value) : Prop :=
  encodable E d = true ->
  exists r, ObjFormat.to_raw_format_walk E d = Ok r
            /\ (plain_hashable E d = true -> hashable E r = true).

(** Raw -> Working succeeds on the document, and Working -> Raw gives
    the document back, its [hashdict]s as plain mappings. *)
Definition comes_back (E : pyenv) (r : value) : Prop :=
  set_free r = true -> path_tag_free r = true -> paths_canonical E r = true ->
  exists w, RawFormat.to_working_format_walk E r = Ok w
            /\ WorkingFormat.to_raw_format_walk E w = Ok (plain r).

(** ** The sets of an Object document *)

(** Two elements that the sets built by the conversions could not tell
    apart: two domain objects with the same hash, or two other values
    one of which equals the other. *)
Definition collide (E : pyenv) (x y : value) : bool :=
  match x, y with
  | VObj c fs, VObj c' fs' =>
      match obj_hash E c fs, obj_hash E c' fs' with
      | Some h, Some h' => Z.eqb h h'
      | _, _ => false
      end
  | VObj _ _, _ | _, VObj _ _ => false
  | _, _ => py_eq E x y || py_eq E y x
  end.

(** No two elements of the list collide. *)
Fixpoint separated (E : pyenv) (l : list value) : bool :=
  match l with
  | [] => true
  | x :: r => forallb (fun y => negb (collide E x y)) r && separated E r
  end.

(** What the sets of the document hold: a leaf, or a hashable domain
    object. *)
Definition set_member (E : pyenv) (v : value) : bool :=
  match v with
  | VObj c fs => match obj_hash E c fs with Some _ => true | None => false end
  | _ => is_plain_leaf v
  end.

(** Every set and frozenset of the document, those in the fields of its
    domain objects included, holds leaves and hashable domain objects no
    two of which collide. *)
Fixpoint sets_hold_members (E : pyenv) (v : value) : bool :=
  match v with
  | VSet l | VFrozenset l =>
      forallb (sets_hold_members E) l && forallb (set_member E) l
      && separated E l
  | VList l => forallb (sets_hold_members E) l
  | VDict _ d | VObj _ d => forallb (fun kv => sets_hold_members E (snd kv)) d
  | _ => true
  end.

(** The rule of the Python data model for [__hash__]: instances that
    compare equal have the same hash, and are hashable alike. *)
Definition hash_respects_eq (E : pyenv) : Prop :=
  forall c fs c' fs',
    obj_eq E c' fs' c fs = true -> obj_hash E c' fs' = obj_hash E c fs.

(** What an element of a set is encoded as: a leaf as itself, a
    hashable domain object as a [hashdict] that carries its hash. *)
Definition encoded_member (E : pyenv) (x r : value) : Prop :=
  match x with
  | VObj c fs =>
      exists h d, obj_hash E c fs = Some h /\ r = VDict true d
                  /\ dict_get (KStr s_hash) d = Some (VInt h)
  | _ => r = x
  end.

(** What it is decoded as: a leaf as itself, a domain object as an
    instance with the same hash. *)
Definition decoded_member (E : pyenv) (x x' : value) : Prop :=
  match x with
  | VObj c fs =>
      exists c' fs', x' = VObj c' fs' /\ obj_hash E c' fs' = obj_hash E c fs
  | _ => x' = x
  end.

(** ** Keys as they are written *)

(** The string that stands for a key in what [store] writes, before the
    dots of [str] keys are escaped: a [str] key itself, the bracketed
    label of a [Symbol], and [str(key)] for a key of another type. *)
Definition written (k : key) : pystr :=
  match k with
  | KStr s => s
  | KSym label => bracketed label
  | KInt n => of_Z n
  | KNone => lit "None"
  | KBool b => if b then lit "True" else lit "False"
  | KFloat s i f => of_float s i f
  end.

(** The document with every key replaced by the string that stands for
    it: a [Symbol] key by its bracketed label, an ordinary string key. *)
Fixpoint as_written (v : value) : value :=
  match v with
  | VList l => VList (List.map as_written l)
  | VSet l => VSet (List.map as_written l)
  | VFrozenset l => VFrozenset (List.map as_written l)
  | VDict h d =>
      VDict h (List.map (fun kv => (KStr (written (fst kv)), as_written (snd kv))) d)
  | _ => v
  end.

(** ** Sample documents *)

(** [{"_type": "set", "_value": [], "note": {"_type": "set"}}]: the
    mapping under "note" is tagged "set" and has no "_value". *)
Definition set_with_note : value :=
  VDict false [(KStr s_type, VStr s_set);
               (KStr s_value, VList []);
               (KStr (lit "note"), VDict false [(KStr s_type, VStr s_set)])].

(** [{"a.b": {delete: ["x"], insert: {0: 1}}, replace: 2}], a difference
    as jsondiff writes it, keyed by the symbols [delete], [insert] and
    [replace] and by a position. *)
Definition sample_diff : value :=
  VDict false
    [(KStr (lit "a.b"),
       VDict false [(KSym (lit "delete"), VList [VStr (lit "x")]);
                    (KSym (lit "insert"), VDict false [(KInt 0, VInt 1)])]);
     (KSym (lit "replace"), VInt 2)].

(** [Widget(n=3)], and the hash-carrying mapping it is encoded as. *)
Definition widget3 : value := VObj Sample.Widget [(KStr (lit "n"), VInt 3)].

Definition widget3_mapping : value :=
  VDict true [(KStr s_type, VStr (lit "Widget")); (KStr s_hash, VInt 1);
              (KStr (lit "n"), VInt 3)].

(** [{"cert": Widget(n=3), "others": [Gadget(n=4)],
      "pps": {Widget(n=1), Widget(n=2, m=0), "EAL4"}}] *)
Definition sample_profiles : value :=
  VDict false
    [(KStr (lit "cert"), widget3);
     (KStr (lit "others"), VList [VObj Sample.Gadget [(KStr (lit "n"), VInt 4)]]);
     (KStr (lit "pps"),
       VSet [VObj Sample.Widget [(KStr (lit "n"), VInt 1)];
             VObj Sample.Widget [(KStr (lit "n"), VInt 2); (KStr (lit "m"), VInt 0)];
             VStr (lit "EAL4")])].

(** * Protection profiles (sec_certs/sample/protection_profile.py)

    [ProtectionProfile] is one of the classes deriving from
    [ComplexSerializableType]: its [from_dict] is what
    [RawFormat.to_obj_format] calls for a mapping tagged with its name,
    and its [__eq__] is the equality of its instances. *)

Module ProtectionProfile.

(** An instance of the frozen dataclass: its three fields. *)
Record t : Type := {
  pp_name : value;
  pp_link : value;
  pp_ids : value
}.

Definition s_pp_name : pystr := Eval cbv in lit "pp_name".
Definition s_pp_link : pystr := Eval cbv in lit "pp_link".
Definition s_pp_ids : pystr := Eval cbv in lit "pp_ids".
Definition s_csv_scan : pystr := Eval cbv in lit "csv_scan".
Definition s_processed : pystr := Eval cbv in lit "processed".
Definition s_cc_pp_name : pystr := Eval cbv in lit "cc_pp_name".
Definition s_link_pp_document : pystr := Eval cbv in lit "link_pp_document".
Definition s_cc_pp_csvid : pystr := Eval cbv in lit "cc_pp_csvid".

(** [bool(v)]: [None], [False], zero and the empty containers are
    false. *)
Definition truthy (v : value) : bool :=
  match v with
  | VNone => false
  | VBool b => b
  | VInt n => negb (Z.eqb n 0)
  | VStr s => match s with [] => false | _ => true end
  | VList l | VSet l | VFrozenset l => match l with [] => false | _ => true end
  | VDict _ d => match d with [] => false | _ => true end
  | _ => true
  end.

(** [v[k]] for a string [k]: defined on mappings only. *)
Definition subscript (v : value) (k : pystr) : result value :=
  match v with
  | VDict _ d => getitem_with (fun x => Ok x) (KStr k) d
  | _ => Raise TypeError
  end.

Section WithHelpers.
Variable E : pyenv.

(** [helpers.sanitize_string] and [helpers.sanitize_link], of a module
    that is not part of the sources at hand. *)
Variable sanitize_string : value -> result value.
Variable sanitize_link : value -> result value.

(** [frozenset(v) if v else None] *)
Definition ids_of (v : value) : result value :=
  if truthy v then frozenset_of E v else Ok VNone.

(** [cls(pp_name, pp_link, pp_ids)]: the generated [__init__] stores the
    fields, then [__post_init__] sanitizes the name and the link. *)
Definition __post_init__ (self : t) : result t :=
  name <- sanitize_string (pp_name self) ;;
  link <- sanitize_link (pp_link self) ;;
  Ok {| pp_name := name; pp_link := link; pp_ids := pp_ids self |}.

Definition make (name link ids : value) : result t :=
  __post_init__ {| pp_name := name; pp_link := link; pp_ids := ids |}.

(** [cls( *args )]: [pp_name] is required, [pp_link] and [pp_ids] default
    to [None], and a fourth argument is a [TypeError]. *)
Definition construct (args : list value) : result t :=
  match args with
  | [name] => make name VNone VNone
  | [name; link] => make name link VNone
  | [name; link; ids] => make name link ids
  | _ => Raise TypeError
  end.

(** [from_dict]: the values of the mapping are passed by position, after
    "pp_ids" has been turned into a frozenset. *)
Definition from_dict (dct : items) : result t :=
  ids <- getitem_with ids_of (KStr s_pp_ids) dct ;;
  let new_dct := dict_set (KStr s_pp_ids) ids dct in
  construct (List.map snd new_dct).

Definition from_old_api_dict (dct : value) : result t :=
  csv_scan <- subscript dct s_csv_scan ;;
  raw_name <- subscript csv_scan s_cc_pp_name ;;
  name <- sanitize_string raw_name ;;
  csv_scan' <- subscript dct s_csv_scan ;;
  raw_link <- subscript csv_scan' s_link_pp_document ;;
  link <- sanitize_link raw_link ;;
  processed <- subscript dct s_processed ;;
  raw_ids <- subscript processed s_cc_pp_csvid ;;
  ids <- (if truthy raw_ids then
            processed' <- subscript dct s_processed ;;
            raw_ids' <- subscript processed' s_cc_pp_csvid ;;
            frozenset_of E raw_ids'
          else Ok VNone) ;;
  make name link ids.

(** [__eq__] on two instances (anything else is unequal to an
    instance): the names and the links are compared, the ids are not. *)
Definition __eq__ (self other : t) : bool :=
  py_eq E (pp_name self) (pp_name other) && py_eq E (pp_link self) (pp_link other).

End WithHelpers.
End ProtectionProfile.
(** * Properties *)

(** ** Strings, keys and dictionaries *)

Lemma pystr_eqb_eq (a b : pystr) : PyStr.eqb a b = true <-> a = b.
Proof.
  revert b; induction a as [|x a IH]; intros [|y b]; simpl; split;
    try congruence; intros H.
  - apply andb_true_iff in H as [Hx Hr].
    apply N.eqb_eq in Hx. apply IH in Hr. congruence.
  - injection H as -> ->. rewrite N.eqb_refl. simpl. now apply IH.
Qed.

Lemma pystr_eqb_refl (a : pystr) : PyStr.eqb a a = true.
Proof. now apply pystr_eqb_eq. Qed.

Lemma pystr_eqb_neq (a b : pystr) : PyStr.eqb a b = false <-> a <> b.
Proof.
  destruct (PyStr.eqb a b) eqn:Hab; split; intros H; try congruence.
  - apply pystr_eqb_eq in Hab. contradiction.
  - intros ->. rewrite pystr_eqb_refl in Hab. discriminate.
Qed.

Lemma key_eqb_eq (a b : key) : key_eqb a b = true <-> a = b.
Proof.
  destruct a, b; simpl; split; intros H; try congruence;
    try (apply pystr_eqb_eq in H; congruence);
    try (injection H as ->; apply pystr_eqb_refl).
  - apply Z.eqb_eq in H. congruence.
  - injection H as ->. apply Z.eqb_refl.
  - apply Bool.eqb_prop in H. congruence.
  - injection H as ->. apply Bool.eqb_reflx.
  - apply andb_true_iff in H as [H Hf]. apply andb_true_iff in H as [Hs Hi].
    apply Bool.eqb_prop in Hs. apply N.eqb_eq in Hi.
    apply Decimal.internal_uint_dec_bl in Hf. congruence.
  - injection H as -> -> ->. rewrite Bool.eqb_reflx, N.eqb_refl. simpl.
    now apply Decimal.internal_uint_dec_lb.
Qed.

Lemma key_eqb_refl (a : key) : key_eqb a a = true.
Proof. now apply key_eqb_eq. Qed.

Lemma key_eqb_neq (a b : key) : key_eqb a b = false <-> a <> b.
Proof.
  destruct (key_eqb a b) eqn:Hab; split; intros H; try congruence.
  - apply key_eqb_eq in Hab. contradiction.
  - intros ->. rewrite key_eqb_refl in Hab. discriminate.
Qed.

Lemma key_eqb_sym (a b : key) : key_eqb a b = key_eqb b a.
Proof.
  destruct (key_eqb b a) eqn:H.
  - apply key_eqb_eq in H. subst. apply key_eqb_refl.
  - apply key_eqb_neq. apply key_eqb_neq in H. congruence.
Qed.

(** Key comparisons are kept folded by [simpl]. *)
Arguments key_eqb : simpl never.

Section DictFacts.
Context {A : Type}.
Implicit Types (d : list (key * A)) (k : key).

Lemma dict_contains_get k d :
  dict_contains k d = true <-> exists v, dict_get k d = Some v.
Proof.
  induction d as [|[k' v'] d IH]; simpl.
  - split; [discriminate | intros [v Hv]; discriminate].
  - destruct (key_eqb k' k); simpl.
    + split; eauto.
    + exact IH.
Qed.

Lemma dict_contains_false k d :
  dict_contains k d = false <-> dict_get k d = None.
Proof.
  induction d as [|[k' v'] d IH]; simpl.
  - tauto.
  - destruct (key_eqb k' k); simpl; [split; discriminate | exact IH].
Qed.

Lemma dict_contains_keys k d :
  dict_contains k d = true <-> In k (dict_keys d).
Proof.
  induction d as [|[k' v'] d IH]; simpl.
  - split; [discriminate | tauto].
  - destruct (key_eqb k' k) eqn:Hk; simpl.
    + apply key_eqb_eq in Hk. tauto.
    + apply key_eqb_neq in Hk. rewrite IH. tauto.
Qed.

Lemma dict_get_in k d v : dict_get k d = Some v -> In (k, v) d.
Proof.
  induction d as [|[k' v'] d IH]; simpl; [discriminate|].
  destruct (key_eqb k' k) eqn:Hk.
  - apply key_eqb_eq in Hk. intros [= ->]. subst. now left.
  - intros H. right. now apply IH.
Qed.

Lemma dict_get_nodup k d v :
  NoDup (dict_keys d) -> In (k, v) d -> dict_get k d = Some v.
Proof.
  induction d as [|[k' v'] d IH]; simpl; [tauto|].
  intros Hnd [Heq | Hin].
  - injection Heq as -> ->. now rewrite key_eqb_refl.
  - inversion Hnd as [|? ? Hnotin Hnd']; subst.
    destruct (key_eqb k' k) eqn:Hk.
    + apply key_eqb_eq in Hk. subst. exfalso. apply Hnotin.
      change k with (fst (k, v)). now apply in_map.
    + now apply IH.
Qed.

(** Setting a key that is not there yet appends the item. *)
Lemma dict_set_fresh k (v : A) d :
  dict_contains k d = false -> dict_set k v d = d ++ [(k, v)].
Proof.
  induction d as [|[k' v'] d IH]; simpl; [reflexivity|].
  destruct (key_eqb k' k); simpl; [discriminate|].
  intros H. now rewrite IH.
Qed.

Lemma dict_pop_absent k d : dict_contains k d = false -> dict_pop k d = d.
Proof.
  induction d as [|[k' v'] d IH]; simpl; [reflexivity|].
  destruct (key_eqb k' k); simpl; [discriminate|].
  intros H. now rewrite IH.
Qed.

(** Removing a key of a dict leaves the items under the other keys. *)
Lemma dict_pop_filter k d :
  NoDup (dict_keys d) ->
  dict_pop k d = filter (fun kv => negb (key_eqb (fst kv) k)) d.
Proof.
  induction d as [|[k' v'] d IH]; simpl; [reflexivity|].
  intros Hnd. inversion Hnd as [|? ? Hnotin Hnd']; subst.
  destruct (key_eqb k' k) eqn:Hk; simpl.
  - apply key_eqb_eq in Hk. subst.
    symmetry. apply forallb_filter_id. apply forallb_forall.
    intros [k2 v2] Hin. simpl. apply negb_true_iff, key_eqb_neq.
    intros ->. apply Hnotin. change k with (fst (k, v2)). now apply in_map.
  - now rewrite IH.
Qed.
End DictFacts.

Lemma getitem_with_get {B} (f : value -> result B) k d v :
  dict_get k d = Some v -> getitem_with f k d = f v.
Proof.
  induction d as [|[k' v'] d IH]; simpl; [discriminate|].
  destruct (key_eqb k' k); [intros [= ->]; reflexivity | exact IH].
Qed.

Lemma getitem_with_missing {B} (f : value -> result B) k d :
  dict_contains k d = false -> getitem_with f k d = Raise KeyError.
Proof.
  induction d as [|[k' v'] d IH]; simpl; [reflexivity|].
  destruct (key_eqb k' k); simpl; [discriminate | exact IH].
Qed.

(** ** Propagation of exceptions *)

Lemma raises_bind {A B} (r : result A) (f : A -> result B) :
  raises r -> raises (bind r f).
Proof. intros [e ->]. now exists e. Qed.

Lemma raises_not_ok {A} (r : result A) (a : A) : raises r -> r <> Ok a.
Proof. intros [e ->]. discriminate. Qed.

Lemma map_result_raises {A B} (f : A -> result B) l x :
  In x l -> raises (f x) -> raises (map_result f l).
Proof.
  induction l as [|y l IH]; simpl; [tauto|].
  intros [-> | Hin] Hx.
  - now apply raises_bind.
  - destruct (f y) as [b|e]; simpl; [|now exists e].
    apply raises_bind. now apply IH.
Qed.

Lemma rebuild_raises fk f d res k v :
  In (k, v) d -> raises (f v) -> raises (rebuild fk f d res).
Proof.
  revert res. induction d as [|[k' v'] d IH]; simpl; [tauto|].
  intros res [Heq | Hin] Hv.
  - injection Heq as -> ->. now apply raises_bind.
  - destruct (f v') as [b|e]; simpl; [|now exists e].
    destruct (fk k') as [b'|e]; simpl; [|now exists e].
    now apply IH.
Qed.

(** ** Successful runs of the list and dictionary loops *)

Lemma bind_ok {A B} (r : result A) (f : A -> result B) b :
  bind r f = Ok b -> exists a, r = Ok a /\ f a = Ok b.
Proof. destruct r as [a|e]; simpl; [eauto | discriminate]. Qed.

Lemma map_result_ok {A B} (f : A -> result B) l l' :
  map_result f l = Ok l' <-> Forall2 (fun x y => f x = Ok y) l l'.
Proof.
  revert l'. induction l as [|x l IH]; intros l'; simpl.
  - split; [intros [= <-]; constructor | intros H; now inversion H].
  - split.
    + intros (y & Hy & H)%bind_ok. apply bind_ok in H as (ys & Hys & [= <-]).
      constructor; [assumption | now apply IH].
    + intros H. inversion H as [|? y ? ys Hy Hys]; subst.
      rewrite Hy. simpl. apply IH in Hys. now rewrite Hys.
Qed.

Lemma map_items_ok f d d' :
  map_items f d = Ok d' <->
  Forall2 (fun kv kv' => fst kv' = fst kv /\ f (snd kv) = Ok (snd kv')) d d'.
Proof.
  revert d'. induction d as [|[k v] d IH]; intros d'; simpl.
  - split; [intros [= <-]; constructor | intros H; now inversion H].
  - split.
    + intros (y & Hy & H)%bind_ok. apply bind_ok in H as (ys & Hys & [= <-]).
      constructor; [now split | now apply IH].
    + intros H. inversion H as [|? [k' v'] ? ys [Hk Hy] Hys]; subst.
      simpl in *. subst. rewrite Hy. simpl. apply IH in Hys. now rewrite Hys.
Qed.

Lemma getitem_with_ok {B} (f : value -> result B) k d b :
  getitem_with f k d = Ok b ->
  exists v, dict_get k d = Some v /\ f v = Ok b.
Proof.
  induction d as [|[k' v'] d IH]; simpl; [discriminate|].
  destruct (key_eqb k' k); eauto.
Qed.

Lemma Forall_dict_set {A} (P : key * A -> Prop) k v d :
  P (k, v) -> Forall P d -> Forall P (dict_set k v d).
Proof.
  intros Hkv. induction d as [|[k' v'] d IH]; simpl; intros Hd.
  - now constructor.
  - inversion Hd; subst. destruct (key_eqb k' k) eqn:Hk.
    + apply key_eqb_eq in Hk. subst. now constructor.
    + constructor; auto.
Qed.

Lemma rebuild_ok_Forall fk f (P : key * value -> Prop) d :
  (forall k v k' v', In (k, v) d -> fk k = Ok k' -> f v = Ok v' -> P (k', v')) ->
  forall res res', rebuild fk f d res = Ok res' -> Forall P res -> Forall P res'.
Proof.
  induction d as [|[k v] d IH]; simpl; intros HP res res' Hrun Hres.
  - now injection Hrun as <-.
  - apply bind_ok in Hrun as (v' & Hv & Hrun).
    apply bind_ok in Hrun as (k' & Hk & Hrun).
    apply IH in Hrun; auto.
    + intros; eapply HP; eauto.
    + apply Forall_dict_set; auto. eapply HP; eauto.
Qed.

Lemma rebuild_total_Forall fk f (P : key * value -> Prop) d :
  (forall k v, In (k, v) d -> P (fk k, f v)) ->
  forall res, Forall P res -> Forall P (rebuild_total fk f d res).
Proof.
  induction d as [|[k v] d IH]; simpl; intros HP res Hres; auto.
  apply IH; auto. apply Forall_dict_set; auto.
Qed.

Lemma dict_set_contains {A} k (v : A) d : dict_contains k (dict_set k v d) = true.
Proof.
  induction d as [|[k' v'] d IH]; simpl.
  - now rewrite key_eqb_refl.
  - destruct (key_eqb k' k) eqn:Hk; simpl; rewrite Hk; auto.
Qed.

Lemma dict_set_contains_other {A} k k0 (v : A) d :
  dict_contains k0 d = true -> dict_contains k0 (dict_set k v d) = true.
Proof.
  induction d as [|[k' v'] d IH]; simpl; [discriminate|].
  destruct (key_eqb k' k) eqn:Hk; simpl; auto.
  destruct (key_eqb k' k0); simpl; auto.
Qed.

Lemma rebuild_total_contains fk f d k v :
  In (k, v) d ->
  forall res, dict_contains (fk k) (rebuild_total fk f d res) = true.
Proof.
  assert (Hkeep : forall d res k0, dict_contains k0 res = true ->
            dict_contains k0 (rebuild_total fk f d res) = true).
  { clear. induction d as [|[k v] d IH]; simpl; intros res k0 H; auto.
    apply IH. now apply dict_set_contains_other. }
  induction d as [|[k1 v1] d IH]; simpl; [tauto|].
  intros [[= -> ->] | Hin] res.
  - apply Hkeep. apply dict_set_contains.
  - now apply IH.
Qed.

(** ** Building sets *)

Section SetFacts.
Variable E : pyenv.

Lemma set_add_In s x y : In y (set_add E s x) -> In y s \/ y = x.
Proof.
  unfold set_add. destruct (existsb _ s); [auto|].
  intros [H | [-> | []]]%in_app_or; auto.
Qed.

Lemma fold_set_add_In l : forall acc y,
  In y (fold_left (set_add E) l acc) -> In y acc \/ In y l.
Proof.
  induction l as [|x l IH]; simpl; intros acc y H; auto.
  apply IH in H as [H | H]; auto.
  apply set_add_In in H as [H | ->]; auto.
Qed.

Lemma build_set_In l s y :
  set_order_ok E -> build_set E l = Ok s -> In y s -> In y l.
Proof.
  unfold build_set. intros Hord. destruct (forallb _ l); [|discriminate].
  intros [= <-] Hy.
  apply (Permutation_in _ (Hord _)) in Hy.
  apply fold_set_add_In in Hy as [[] | Hy]. exact Hy.
Qed.

End SetFacts.

Lemma map_hashed_ok E f l l' :
  map_hashed E f l = Ok l' <->
  Forall2 (fun x y => f x = Ok y) l l' /\ forallb (hashable E) l' = true.
Proof.
  revert l'. induction l as [|x l IH]; intros l'; simpl.
  - split.
    + intros [= <-]. split; [constructor | reflexivity].
    + intros [H _]. now inversion H.
  - split.
    + intros (y & Hy & H)%bind_ok.
      destruct (hashable E y) eqn:Hh; [|discriminate].
      apply bind_ok in H as (ys & Hys & [= <-]).
      apply IH in Hys as [Hys Hhs]. simpl. rewrite Hh, Hhs.
      split; [now constructor | reflexivity].
    + intros [H Hh]. inversion H as [|? y ? ys Hy Hys]; subst.
      simpl in Hh. apply andb_true_iff in Hh as [Hh Hhs].
      rewrite Hy. simpl. rewrite Hh.
      assert (Hrec : map_hashed E f l = Ok ys) by now apply IH.
      now rewrite Hrec.
Qed.

Lemma set_of_map_ok E f l s :
  set_of_map E f l = Ok s <->
  exists l', Forall2 (fun x y => f x = Ok y) l l'
             /\ forallb (hashable E) l' = true
             /\ s = set_elements E l'.
Proof.
  unfold set_of_map, set_elements. split.
  - intros (l' & Hl' & [= <-])%bind_ok.
    apply map_hashed_ok in Hl' as [? ?]. eauto.
  - intros (l' & Hl' & Hh & ->).
    assert (Hm : map_hashed E f l = Ok l') by now apply map_hashed_ok.
    now rewrite Hm.
Qed.

Lemma map_hashed_raises E f l x :
  In x l -> raises (f x) -> raises (map_hashed E f l).
Proof.
  induction l as [|y l IH]; simpl; [tauto|].
  intros [-> | Hin] Hx.
  - now apply raises_bind.
  - destruct (f y) as [b|e]; simpl; [|now exists e].
    destruct (hashable E b); [|now exists TypeError].
    apply raises_bind. now apply IH.
Qed.

Lemma set_of_map_raises E f l x :
  In x l -> raises (f x) -> raises (set_of_map E f l).
Proof.
  intros Hin Hx. unfold set_of_map. apply raises_bind.
  now apply map_hashed_raises with x.
Qed.

(** A set cannot be built when one of the converted elements is
    unhashable: the construction raises, and it raises [TypeError] when
    every element converts. *)
Lemma map_hashed_unhashable E f l x y :
  In x l -> f x = Ok y -> hashable E y = false ->
  raises (map_hashed E f l)
  /\ ((forall z, In z l -> exists z', f z = Ok z') ->
      map_hashed E f l = Raise TypeError).
Proof.
  induction l as [|a l IH]; simpl; [tauto|].
  intros [-> | Hin] Hx Hy.
  - rewrite Hx. simpl. rewrite Hy. split; [now exists TypeError | reflexivity].
  - destruct (IH Hin Hx Hy) as [Hr Hexact]. split.
    + destruct (f a) as [b|e]; simpl; [|now exists e].
      destruct (hashable E b); [|now exists TypeError].
      now apply raises_bind.
    + intros Hall. destruct (Hall a) as [b Hb]; [now left|].
      rewrite Hb. simpl. destruct (hashable E b); [|reflexivity].
      rewrite Hexact; [reflexivity|]. intros z Hz. apply Hall. now right.
Qed.

Lemma set_of_map_unhashable E f l x y :
  In x l -> f x = Ok y -> hashable E y = false ->
  raises (set_of_map E f l)
  /\ ((forall z, In z l -> exists z', f z = Ok z') ->
      set_of_map E f l = Raise TypeError).
Proof.
  intros Hin Hx Hy. unfold set_of_map.
  destruct (map_hashed_unhashable E f l x y Hin Hx Hy) as [Hr Hexact]. split.
  - now apply raises_bind.
  - intros Hall. now rewrite (Hexact Hall).
Qed.

Lemma set_elements_In E l y :
  set_order_ok E -> In y (set_elements E l) -> In y l.
Proof.
  unfold set_elements. intros Hord Hy.
  apply (Permutation_in _ (Hord _)) in Hy.
  apply fold_set_add_In in Hy as [[] | Hy]. exact Hy.
Qed.

(** Looking a key up in the items of a comprehension. *)
Lemma map_items_get f d d' k :
  map_items f d = Ok d' ->
  match dict_get k d with
  | Some v => exists v', dict_get k d' = Some v' /\ f v = Ok v'
  | None => dict_get k d' = None
  end.
Proof.
  revert d'. induction d as [|[k0 v0] d IH]; simpl; intros d' H.
  - now injection H as <-.
  - apply bind_ok in H as (v' & Hv' & H).
    apply bind_ok in H as (r' & Hr' & [= <-]). simpl.
    destruct (key_eqb k0 k); [eauto | now apply IH].
Qed.

Lemma map_items_keys f d d' :
  map_items f d = Ok d' -> dict_keys d' = dict_keys d.
Proof.
  revert d'. induction d as [|[k0 v0] d IH]; simpl; intros d' H.
  - now injection H as <-.
  - apply bind_ok in H as (v' & Hv' & H).
    apply bind_ok in H as (r' & Hr' & [= <-]). simpl.
    f_equal. now apply IH.
Qed.

Lemma nodupb_NoDup l : nodupb l = true <-> NoDup l.
Proof.
  induction l as [|k l IH]; simpl.
  - split; [constructor | reflexivity].
  - rewrite andb_true_iff, negb_true_iff, IH. split.
    + intros [Hk Hl]. constructor; [|assumption].
      intros Hin. apply not_true_iff_false in Hk. apply Hk.
      apply existsb_exists. exists k. split; [assumption | apply key_eqb_refl].
    + intros H. inversion H as [|? ? Hnotin Hnd]; subst. split; [|assumption].
      apply not_true_iff_false. intros (x & Hx & Heq)%existsb_exists.
      apply key_eqb_eq in Heq. now subst.
Qed.


(** ** Malformed set mappings are reported *)

Lemma tag_in_sets_cases d :
  StorageFormat.tag_in_sets d = true ->
  tag_is s_set d = true \/ (tag_is s_set d = false /\ tag_is s_frozenset d = true).
Proof.
  unfold StorageFormat.tag_in_sets. destruct (tag_is s_set d); simpl; auto.
Qed.

Lemma tag_in_sets_none d :
  StorageFormat.tag_in_sets d = false ->
  tag_is s_set d = false /\ tag_is s_frozenset d = false.
Proof.
  unfold StorageFormat.tag_in_sets. now intros [? ?]%orb_false_iff.
Qed.

Lemma malformed_set_KeyError E h d :
  malformed_set d = true ->
  StorageFormat.to_working_format E (VDict h d) = Raise KeyError.
Proof.
  unfold malformed_set. intros [Htag Hno]%andb_true_iff.
  apply negb_true_iff in Hno.
  unfold StorageFormat.to_working_format. simpl.
  rewrite (getitem_with_missing _ _ _ Hno). simpl.
  destruct (tag_in_sets_cases _ Htag) as [-> | [-> ->]]; reflexivity.
Qed.

(** In a tree whose set-tagged mappings have the two fields only, a
    malformed mapping that occurs anywhere is met by the conversion. *)
Lemma occurs_has_malformed_set h d doc :
  malformed_set d = true -> occurs (VDict h d) doc ->
  two_field_sets doc = true -> has_malformed_set doc.
Proof.
  intros Hm Hocc. remember (VDict h d) as x eqn:Hx.
  induction Hocc as [|l y Hin _ IH|h0 d0 k v Hin Hocc IH]; intros Htree.
  - subst. now apply hms_here.
  - simpl in Htree. rewrite forallb_forall in Htree.
    apply hms_element with y; auto.
  - simpl in Htree. apply andb_true_iff in Htree as [Hvals Hshape].
    rewrite forallb_forall in Hvals. specialize (Hvals _ Hin). simpl in Hvals.
    destruct (StorageFormat.tag_in_sets d0) eqn:Htag.
    + apply andb_true_iff in Hshape as [Hkeys Hnd].
      rewrite forallb_forall in Hkeys. specialize (Hkeys _ Hin). simpl in Hkeys.
      apply nodupb_NoDup in Hnd.
      pose proof (dict_get_nodup _ _ _ Hnd Hin) as Hget.
      apply orb_true_iff in Hkeys as [Hk | Hk]; apply key_eqb_eq in Hk; subst k.
      * exfalso. unfold StorageFormat.tag_in_sets, tag_is in Htag.
        rewrite Hget in Htag. subst x.
        destruct v; simpl in Htag; try discriminate.
        inversion Hocc.
      * apply hms_value with v; auto.
    + apply hms_field with k v; auto.
Qed.

(** Of a mapping tagged "set" or "frozenset" the conversion reads
    "_value" and nothing else. *)
Lemma set_mapping_reads_value E h d v :
  StorageFormat.tag_in_sets d = true ->
  dict_get (KStr s_value) d = Some v ->
  StorageFormat.to_working_format E (VDict h d)
  = bind (StorageFormat.to_working_format E v)
      (if tag_is s_set d then set_of E else frozenset_of E).
Proof.
  intros Htag Hget. unfold StorageFormat.to_working_format. simpl.
  rewrite (getitem_with_get _ _ _ _ Hget).
  destruct (tag_in_sets_cases _ Htag) as [-> | [-> ->]]; reflexivity.
Qed.

Lemma has_malformed_set_raises E doc :
  has_malformed_set doc -> raises (StorageFormat.to_working_format E doc).
Proof.
  unfold StorageFormat.to_working_format.
  induction 1 as [h d Hm | l x Hin _ IH | h d k v Htag Hin _ IH
                 | h d v Htag Hget _ IH].
  - exists KeyError. now apply malformed_set_KeyError.
  - simpl. apply raises_bind. now apply map_result_raises with x.
  - simpl. destruct (tag_in_sets_none _ Htag) as [-> ->].
    apply raises_bind. now apply rebuild_raises with k v.
  - simpl. rewrite (getitem_with_get _ _ _ _ Hget).
    destruct (tag_in_sets_cases _ Htag) as [-> | [-> ->]];
      now apply raises_bind.
Qed.

Lemma set_with_note_loads E :
  set_order_ok E -> StorageFormat.to_working_format E set_with_note = Ok (VSet []).
Proof.
  intros Hord. unfold StorageFormat.to_working_format, set_with_note. simpl.
  unfold set_of, build_set. simpl.
  pose proof (Hord []) as Hp. apply Permutation_sym, Permutation_nil in Hp.
  now rewrite Hp.
Qed.

(** C3 as stated fails: in [set_with_note] a mapping tagged "set" without
    "_value" occurs, and the conversion returns the empty set, whatever
    the iteration order of sets. *)
Lemma unvisited_malformed_set_is_not_reported :
  ~ (exists E, set_order_ok E
       /\ forall doc h d,
            occurs (VDict h d) doc -> malformed_set d = true ->
            raises (StorageFormat.to_working_format E doc)).
Proof.
  intros (E & Hord & H).
  destruct (H set_with_note false [(KStr s_type, VStr s_set)]) as [e He].
  - apply occ_field with (KStr (lit "note"))
      (VDict false [(KStr s_type, VStr s_set)]);
      [simpl; auto | apply occ_here].
  - reflexivity.
  - rewrite (set_with_note_loads E Hord) in He. discriminate.
Qed.

(** C3, amended.  When a mapping tagged "set" or "frozenset" without
    "_value" lies where the Storage -> Working conversion goes (it is
    the document, or it lies in an element of a list, in a field of a
    mapping that is not so tagged, or in the "_value" of a mapping so
    tagged, whatever other fields that one has), the conversion of the
    document raises: the error is not swallowed and no empty set is
    produced; on the malformed mapping itself it is a [KeyError].  Of a
    mapping tagged "set" or "frozenset" only "_value" is converted, so a
    malformed mapping in another field of it is not met; when such
    mappings have the two fields only, a malformed mapping that occurs
    anywhere in the document is met. *)
Theorem malformed_set_is_reported (E : pyenv) (doc : value) :
  has_malformed_set doc ->
  raises (StorageFormat.to_working_format E doc)
  /\ StorageFormat.to_working_format E doc <> Ok (VSet [])
  /\ StorageFormat.to_working_format E doc <> Ok (VFrozenset [])
  /\ (forall h d, malformed_set d = true ->
        StorageFormat.to_working_format E (VDict h d) = Raise KeyError)
  /\ (forall h d v,
        StorageFormat.tag_in_sets d = true ->
        dict_get (KStr s_value) d = Some v ->
        StorageFormat.to_working_format E (VDict h d)
        = bind (StorageFormat.to_working_format E v)
            (if tag_is s_set d then set_of E else frozenset_of E))
  /\ (forall h d tree,
        two_field_sets tree = true -> occurs (VDict h d) tree ->
        malformed_set d = true ->
        raises (StorageFormat.to_working_format E tree)).
Proof.
  intros Hdoc.
  pose proof (has_malformed_set_raises E doc Hdoc) as Hr.
  split; [exact Hr|]. split; [now apply raises_not_ok|].
  split; [now apply raises_not_ok|]. split; [|split].
  - intros h d. apply malformed_set_KeyError.
  - intros h d v. apply set_mapping_reads_value.
  - intros h d tree Htree Hocc Hm. apply has_malformed_set_raises.
    now apply occurs_has_malformed_set with h d.
Qed.

(** [{"sets": [1, {"_type": "frozenset", "_value": [{"_type": "set",
    "extra": 0}], "note": 2}]}]: the malformed mapping, which has a
    field besides "_type", lies in the "_value" of a stored frozenset
    that has a third field. *)
Lemma malformed_set_is_reported_witness :
  raises (StorageFormat.to_working_format Sample.env
            (VDict false
               [(KStr (lit "sets"),
                  VList [VInt 1;
                         VDict false
                           [(KStr s_type, VStr s_frozenset);
                            (KStr s_value,
                              VList [VDict false [(KStr s_type, VStr s_set);
                                                  (KStr (lit "extra"), VInt 0)]]);
                            (KStr (lit "note"), VInt 2)]])])).
Proof.
  apply (malformed_set_is_reported Sample.env
           (VDict false
              [(KStr (lit "sets"),
                 VList [VInt 1;
                        VDict false
                          [(KStr s_type, VStr s_frozenset);
                           (KStr s_value,
                             VList [VDict false [(KStr s_type, VStr s_set);
                                                 (KStr (lit "extra"), VInt 0)]]);
                           (KStr (lit "note"), VInt 2)]])])).
  apply hms_field with (KStr (lit "sets"))
    (VList [VInt 1;
            VDict false
              [(KStr s_type, VStr s_frozenset);
               (KStr s_value,
                 VList [VDict false [(KStr s_type, VStr s_set);
                                     (KStr (lit "extra"), VInt 0)]]);
               (KStr (lit "note"), VInt 2)]]);
    [reflexivity | simpl; auto |].
  apply hms_element with
    (VDict false
       [(KStr s_type, VStr s_frozenset);
        (KStr s_value,
          VList [VDict false [(KStr s_type, VStr s_set);
                              (KStr (lit "extra"), VInt 0)]]);
        (KStr (lit "note"), VInt 2)]);
    [simpl; auto |].
  apply hms_value with
    (VList [VDict false [(KStr s_type, VStr s_set);
                         (KStr (lit "extra"), VInt 0)]]);
    [reflexivity | reflexivity |].
  apply hms_element with
    (VDict false [(KStr s_type, VStr s_set); (KStr (lit "extra"), VInt 0)]);
    [simpl; auto |].
  apply hms_here. reflexivity.
Defined.

(** ** Symbol keys *)

Lemma forallb_map_true {A B} (f : A -> B) (p : B -> bool) l :
  Forall (fun x => p (f x) = true) l -> forallb p (List.map f l) = true.
Proof.
  induction 1; simpl; auto. now apply andb_true_iff.
Qed.

Lemma forallb_Forall {A} (p : A -> bool) l :
  forallb p l = true <-> Forall (fun x => p x = true) l.
Proof.
  rewrite forallb_forall, Forall_forall. tauto.
Qed.

Lemma store_storage_shaped w : storage_shaped (store w) = true.
Proof.
  unfold store, get, WorkingFormat.to_storage_format.
  induction w as [| | | | | | |l IH|h d IH|l IH|l IH|c fs IH] using value_ind;
    simpl; try reflexivity.
  - now apply forallb_map_true.
  - apply forallb_Forall. apply rebuild_total_Forall; [|constructor].
    intros k v Hin. rewrite Forall_forall in IH. specialize (IH _ Hin).
    simpl in *. rewrite IH.
    destruct k as [s| | | | |]; simpl; [destruct (contains dot s)| | | | |]; reflexivity.
  - rewrite forallb_map_true; auto.
  - rewrite forallb_map_true; auto.
Qed.

Lemma storage_shaped_symbol_free v : storage_shaped v = true -> symbol_free v = true.
Proof.
  induction v as [| | | | | | |l IH|h d IH|l IH|l IH|c fs IH] using value_ind;
    simpl; try reflexivity; try discriminate.
  - rewrite !forallb_Forall. intros H.
    rewrite Forall_forall in *. intros x Hx. apply IH; auto.
  - rewrite !forallb_Forall. intros H.
    rewrite Forall_forall in *. intros [k v] Hx.
    specialize (H _ Hx). specialize (IH _ Hx). simpl in *.
    apply andb_true_iff in H as [Hk Hv].
    rewrite (IH Hv). now destruct k.
Qed.

Lemma iter_value_symbol_free v l :
  symbol_free v = true -> iter_value v = Ok l ->
  forallb symbol_free l = true.
Proof.
  destruct v; simpl; try discriminate; intros Hv [= <-]; auto.
  - apply forallb_map_true. apply Forall_forall. reflexivity.
  - apply forallb_map_true. apply Forall_forall. intros [| | | | |]; reflexivity.
Qed.

Lemma build_set_symbol_free E l s :
  set_order_ok E -> forallb symbol_free l = true -> build_set E l = Ok s ->
  forallb symbol_free s = true.
Proof.
  intros Hord Hl Hs. apply forallb_forall. intros x Hx.
  rewrite forallb_forall in Hl. apply Hl.
  eapply build_set_In; eauto.
Qed.

(** Whatever [load] returns for a document shaped like the results of
    [store] has [str] keys only. *)
Lemma load_symbol_free E d :
  set_order_ok E -> storage_shaped d = true ->
  forall w, StorageFormat.to_working_format_walk E d = Ok w -> symbol_free w = true.
Proof.
  intros Hord.
  induction d as [| | | | | | |l IH|h d IH|l IH|l IH|c fs IH] using value_ind;
    simpl; intros Hs w Hw; try discriminate;
    try (injection Hw as <-; reflexivity).
  - apply bind_ok in Hw as (l' & Hl' & [= <-]). simpl.
    apply map_result_ok in Hl'. apply forallb_Forall in Hs.
    apply forallb_Forall.
    induction Hl' as [|x y l l' Hxy _ IHl]; constructor.
    + inversion IH; inversion Hs; subst; eauto.
    + inversion IH; inversion Hs; subst; eauto.
  - apply forallb_Forall in Hs.
    assert (Hval : forall b, getitem_with (StorageFormat.to_working_format_walk E)
                     (KStr s_value) d = Ok b -> symbol_free b = true).
    { intros b (v & Hget & Hv)%getitem_with_ok.
      apply dict_get_in in Hget. rewrite Forall_forall in IH, Hs.
      specialize (IH _ Hget). specialize (Hs _ Hget). cbn [fst snd] in *.
      apply andb_true_iff in Hs as [_ Hs]. eauto. }
    destruct (tag_is s_set d).
    { apply bind_ok in Hw as (v & Hv & Hw). unfold set_of in Hw.
      apply bind_ok in Hw as (l & Hl & Hw).
      apply bind_ok in Hw as (s & Hs' & [= <-]). simpl.
      eapply build_set_symbol_free; eauto.
      eapply iter_value_symbol_free; eauto. }
    destruct (tag_is s_frozenset d).
    { apply bind_ok in Hw as (v & Hv & Hw). unfold frozenset_of in Hw.
      apply bind_ok in Hw as (l & Hl & Hw).
      apply bind_ok in Hw as (s & Hs' & [= <-]). simpl.
      eapply build_set_symbol_free; eauto.
      eapply iter_value_symbol_free; eauto. }
    apply bind_ok in Hw as (res & Hres & [= <-]). simpl.
    apply forallb_Forall.
    eapply rebuild_ok_Forall; [| exact Hres | constructor].
    intros k v k' v' Hin Hk Hv. simpl.
    rewrite Forall_forall in IH, Hs.
    specialize (IH _ Hin). specialize (Hs _ Hin). cbn [fst snd] in *.
    apply andb_true_iff in Hs as [_ Hs].
    rewrite (IH Hs _ Hv). destruct k; simpl in Hk; try discriminate.
    now injection Hk as <-.
Qed.

Lemma sample_set_order_ok : set_order_ok Sample.env.
Proof. intros l. simpl. symmetry. apply Permutation_rev. Qed.

Lemma replace_app old new s t :
  replace old new (s ++ t) = replace old new s ++ replace old new t.
Proof. unfold replace. apply map_app. Qed.

Lemma replace_unchanged old new s :
  contains old s = false -> replace old new s = s.
Proof.
  unfold contains, replace. induction s as [|c s IH]; simpl; [reflexivity|].
  intros [Hc Hs]%orb_false_iff. rewrite N.eqb_sym in Hc. rewrite Hc.
  now rewrite IH.
Qed.

(** A mapping with the one key [Symbol(label)], stored and loaded. *)
Lemma symbol_key_survives_as_string E h label v :
  is_leaf v = true -> contains fullwidth_dot label = false ->
  load E (store (VDict h [(KSym label, v)]))
  = Ok (VDict false [(KStr (bracketed label), v)]).
Proof.
  intros Hleaf Hlabel.
  assert (Hv : WorkingFormat.to_storage_format_walk v = v)
    by (destruct v; try discriminate; reflexivity).
  assert (Hv' : StorageFormat.to_working_format_walk E v = Ok v)
    by (destruct v; try discriminate; reflexivity).
  unfold load, store, get, StorageFormat.to_working_format,
    WorkingFormat.to_storage_format.
  cbn [WorkingFormat.to_storage_format_walk rebuild_total dict_set
       WorkingFormat.map_key].
  rewrite Hv. fold (bracketed label).
  assert (Htag : forall t,
             tag_is t [(KStr (bracketed label), v)] = false).
  { intros t. unfold tag_is. cbn [dict_get].
    replace (key_eqb (KStr (bracketed label)) (KStr s_type)) with false;
      reflexivity. }
  cbn [StorageFormat.to_working_format_walk].
  rewrite !Htag. cbn [rebuild]. rewrite Hv'. cbn [bind StorageFormat.restore_key].
  unfold bracketed at 1. rewrite !replace_app.
  rewrite (replace_unchanged _ _ label Hlabel). reflexivity.
Qed.

(** ** The JSON view of a stored document *)

Lemma dict_contains_app {A} k (d e : list (key * A)) :
  dict_contains k (d ++ e) = dict_contains k d || dict_contains k e.
Proof. unfold dict_contains. apply existsb_app. Qed.

(** When the keys the loop writes are pairwise distinct, the loop appends
    one item per item it reads. *)
Lemma rebuild_pointwise fk f d d' :
  Forall2 (fun kv kv' => fk (fst kv) = Ok (fst kv') /\ f (snd kv) = Ok (snd kv')) d d' ->
  NoDup (dict_keys d') ->
  forall res,
    (forall k, In k (dict_keys d') -> dict_contains k res = false) ->
    rebuild fk f d res = Ok (res ++ d').
Proof.
  induction 1 as [|[k v] [k' v'] d d' [Hk Hv] _ IH]; simpl; intros Hnd res Hres.
  - now rewrite app_nil_r.
  - simpl in Hk, Hv. rewrite Hv, Hk. simpl.
    inversion Hnd as [|? ? Hnotin Hnd']; subst.
    rewrite dict_set_fresh by (apply Hres; now left).
    rewrite IH; auto.
    + now rewrite <- app_assoc.
    + intros k0 Hk0. rewrite dict_contains_app, Hres by now right.
      simpl. rewrite orb_false_r. apply key_eqb_neq. congruence.
Qed.

Lemma rebuild_total_pointwise fk f d :
  NoDup (List.map fk (dict_keys d)) ->
  forall res,
    (forall k, In k (dict_keys d) -> dict_contains (fk k) res = false) ->
    rebuild_total fk f d res = res ++ List.map (fun kv => (fk (fst kv), f (snd kv))) d.
Proof.
  induction d as [|[k v] d IH]; simpl; intros Hnd res Hres.
  - now rewrite app_nil_r.
  - inversion Hnd as [|? ? Hnotin Hnd']; subst.
    rewrite dict_set_fresh by (apply Hres; now left).
    rewrite IH; auto.
    + now rewrite <- app_assoc.
    + intros k0 Hk0. rewrite dict_contains_app, Hres by now right.
      simpl. rewrite orb_false_r. apply key_eqb_neq.
      intros Heq. apply Hnotin. rewrite Heq. now apply in_map.
Qed.

Lemma filter_id_absent {A} k (d : list (key * A)) :
  dict_contains k d = false ->
  filter (fun kv => negb (key_eqb (fst kv) k)) d = d.
Proof.
  induction d as [|[k' v'] d IH]; simpl; [reflexivity|].
  destruct (key_eqb k' k); simpl; [discriminate|].
  intros H. now rewrite IH.
Qed.

(** [res.pop("_hash")] under ["_hash" in res] drops the item under
    "_hash", if any. *)
Lemma pop_hash_filter (res : items) :
  NoDup (dict_keys res) ->
  (if dict_contains (KStr s_hash) res then dict_pop (KStr s_hash) res else res)
  = filter (fun kv => negb (key_eqb (fst kv) (KStr s_hash))) res.
Proof.
  intros Hnd. destruct (dict_contains (KStr s_hash) res) eqn:Hc.
  - now apply dict_pop_filter.
  - symmetry. now apply filter_id_absent.
Qed.

Lemma replace_removes old new s :
  old <> new -> contains old (replace old new s) = false.
Proof.
  intros Hne. unfold contains, replace.
  induction s as [|c s IH]; simpl; [reflexivity|].
  rewrite IH, orb_false_r.
  destruct (N.eqb c old) eqn:Hc.
  - apply N.eqb_neq. congruence.
  - rewrite N.eqb_sym. exact Hc.
Qed.

Lemma dict_set_keys_NoDup {A} k (v : A) d :
  NoDup (dict_keys d) -> NoDup (dict_keys (dict_set k v d)).
Proof.
  induction d as [|[k' v'] d IH]; simpl; intros Hnd.
  - constructor; [tauto | constructor].
  - inversion Hnd as [|? ? Hnotin Hnd']; subst.
    destruct (key_eqb k' k) eqn:Hk; simpl; [now constructor|].
    constructor; [|now apply IH].
    intros Hin. apply dict_contains_keys in Hin.
    assert (Hc : dict_contains k' d = true).
    { clear -Hin Hk. induction d as [|[k2 v2] d IHd]; simpl in *.
      - rewrite orb_false_r in Hin. rewrite key_eqb_sym in Hin. congruence.
      - destruct (key_eqb k2 k) eqn:Hk2; simpl in *; auto.
        destruct (key_eqb k2 k'); simpl in *; auto. }
    apply dict_contains_keys in Hc. contradiction.
Qed.

Lemma rebuild_keys_NoDup fk f d : forall res res',
  rebuild fk f d res = Ok res' -> NoDup (dict_keys res) -> NoDup (dict_keys res').
Proof.
  induction d as [|[k v] d IH]; simpl; intros res res' Hrun Hnd.
  - now injection Hrun as <-.
  - apply bind_ok in Hrun as (v' & Hv & Hrun).
    apply bind_ok in Hrun as (k' & Hk & Hrun).
    apply IH in Hrun; auto. now apply dict_set_keys_NoDup.
Qed.

Lemma rebuild_succeeds fk f d :
  Forall (fun kv => (exists k', fk (fst kv) = Ok k')
                    /\ (exists v', f (snd kv) = Ok v')) d ->
  forall res, exists res', rebuild fk f d res = Ok res'.
Proof.
  induction 1 as [|[k v] d [[k' Hk] [v' Hv]] _ IH]; simpl; intros res.
  - eauto.
  - simpl in Hk, Hv. rewrite Hv, Hk. simpl. apply IH.
Qed.

Lemma filter_not_contains {A} k (d : list (key * A)) :
  dict_contains k (filter (fun kv => negb (key_eqb (fst kv) k)) d) = false.
Proof.
  induction d as [|[k' v'] d IH]; simpl; [reflexivity|].
  destruct (key_eqb k' k) eqn:Hk; simpl; [exact IH|].
  now rewrite Hk, IH.
Qed.

(** On a stored document [to_json_mapping] succeeds, and what it returns
    is a plain JSON tree. *)
Lemma to_json_mapping_shaped d :
  json_source d = true ->
  exists j, StorageFormat.to_json_mapping_walk d = Ok j /\ json_shaped j = true.
Proof.
  induction d as [|b|n|s|yr mo dy|lab|p|l IH|h d IH|l IH|l IH|c fs IH] using value_ind;
    simpl; intros Hsrc; try discriminate;
    try (eexists; split; [reflexivity | reflexivity]).
  - (* lists *)
    assert (Hl : exists l', Forall2 (fun x y => StorageFormat.to_json_mapping_walk x = Ok y) l l'
                            /\ forallb json_shaped l' = true).
    { apply forallb_Forall in Hsrc. clear -IH Hsrc.
      induction IH as [|x l Hx _ IHl]; [exists []; split; [constructor | reflexivity]|].
      inversion Hsrc as [|? ? Hsx Hsl]; subst.
      destruct (Hx Hsx) as (y & Hy & Hjy). destruct (IHl Hsl) as (l' & Hl' & Hjl).
      exists (y :: l'). split; [now constructor | simpl; now rewrite Hjy, Hjl]. }
    destruct Hl as (l' & Hl' & Hj). apply map_result_ok in Hl'.
    exists (VList l'). rewrite Hl'. now split.
  - (* mappings *)
    apply andb_true_iff in Hsrc as [Hitems Htagged].
    apply forallb_Forall in Hitems.
    assert (Hvals : forall k v, In (k, v) d ->
              exists j, StorageFormat.to_json_mapping_walk v = Ok j
                        /\ json_shaped j = true).
    { intros k v Hin. rewrite Forall_forall in IH, Hitems.
      specialize (IH _ Hin). specialize (Hitems _ Hin). simpl in *.
      apply andb_true_iff in Hitems as [_ Hv]. auto. }
    unfold tagged_value_ok in Htagged.
    destruct (StorageFormat.tag_in_sets d) eqn:Hsets.
    + destruct (dict_get (KStr s_value) d) as [[| | | | | | |l| | | |]|] eqn:Hget;
        try discriminate.
      destruct (Hvals _ _ (dict_get_in _ _ _ Hget)) as (j & Hj & Hshape).
      rewrite (getitem_with_get _ _ _ _ Hget), Hj. simpl.
      simpl in Hj. apply bind_ok in Hj as (l' & _ & [= <-]).
      exists (VList l'). now split.
    + destruct (tag_is s_Path d) eqn:Hpath.
      * destruct (dict_get (KStr s_value) d) as [[| | |s| | | | | | | |]|] eqn:Hget;
          try discriminate.
        rewrite (getitem_with_get _ _ _ _ Hget). exists (VStr s). now split.
      * destruct (rebuild_succeeds StorageFormat.restore_key
                    StorageFormat.to_json_mapping_walk d) with (res := @nil (key * value))
          as (res & Hres).
        { apply Forall_forall. intros [k v] Hin. simpl.
          rewrite Forall_forall in Hitems. specialize (Hitems _ Hin). simpl in Hitems.
          apply andb_true_iff in Hitems as [Hk _].
          destruct (Hvals _ _ Hin) as (j & Hj & _).
          destruct k; try discriminate. split; eauto. simpl. eauto. }
        rewrite Hres. simpl. eexists. split; [reflexivity|].
        rewrite pop_hash_filter
          by (eapply rebuild_keys_NoDup; [exact Hres | constructor]).
        simpl. rewrite filter_not_contains, andb_true_r.
        apply forallb_Forall. apply Forall_forall. intros kv Hin.
        apply filter_In in Hin as [Hin _]. revert kv Hin.
        apply Forall_forall.
        eapply rebuild_ok_Forall; [| exact Hres | constructor].
        intros k v k' v' Hin Hk Hv. simpl.
        destruct (Hvals _ _ Hin) as (j & Hj & Hshape).
        rewrite Hv in Hj. injection Hj as <-. rewrite Hshape.
        destruct k; simpl in Hk; try discriminate. now injection Hk as <-.
Qed.

(** C10.  [to_json_mapping]: a mapping tagged "set" or "frozenset"
    becomes the list of its converted "_value" elements; a mapping tagged
    "Path" becomes its "_value"; any other mapping is rebuilt with the
    full-width dot of its keys restored to ".", its values converted and
    the item under "_hash" removed; a date becomes its string form; a list
    is converted element-wise; everything else is returned unchanged.  On
    a stored document the conversion succeeds and returns a plain JSON
    tree. *)
Theorem to_json_mapping_spec :
  (forall d, json_source d = true ->
     exists j, StorageFormat.to_json_mapping d = Ok j /\ json_shaped j = true)
  /\
  (forall h d l l',
      StorageFormat.tag_in_sets d = true ->
      dict_get (KStr s_value) d = Some (VList l) ->
      map_result StorageFormat.to_json_mapping l = Ok l' ->
      StorageFormat.to_json_mapping (VDict h d) = Ok (VList l'))
  /\ (forall h d v,
      StorageFormat.tag_in_sets d = false ->
      tag_is s_Path d = true ->
      dict_get (KStr s_value) d = Some v ->
      StorageFormat.to_json_mapping (VDict h d) = Ok v)
  /\ (forall h d d',
      StorageFormat.tag_in_sets d = false ->
      tag_is s_Path d = false ->
      Forall2 (fun kv kv' =>
                 (exists s, fst kv = KStr s
                            /\ fst kv' = KStr (replace fullwidth_dot dot s))
                 /\ StorageFormat.to_json_mapping (snd kv) = Ok (snd kv')) d d' ->
      NoDup (dict_keys d') ->
      StorageFormat.to_json_mapping (VDict h d)
      = Ok (VDict false
              (filter (fun kv => negb (key_eqb (fst kv) (KStr s_hash))) d')))
  /\ (forall s, contains fullwidth_dot (replace fullwidth_dot dot s) = false)
  /\ (forall y m d,
      StorageFormat.to_json_mapping (VDate y m d) = Ok (VStr (date_str y m d)))
  /\ (forall l l',
      Forall2 (fun x y => StorageFormat.to_json_mapping x = Ok y) l l' ->
      StorageFormat.to_json_mapping (VList l) = Ok (VList l'))
  /\ (forall v,
      json_passthrough v = true -> StorageFormat.to_json_mapping v = Ok v).
Proof.
  unfold StorageFormat.to_json_mapping.
  split; [exact to_json_mapping_shaped|]. repeat split.
  - intros h d l l' Htag Hget Hl. simpl. rewrite Htag.
    rewrite (getitem_with_get _ _ _ _ Hget). simpl.
    fold StorageFormat.to_json_mapping_walk.
    change (map_result StorageFormat.to_json_mapping_walk l = Ok l') in Hl.
    rewrite Hl. reflexivity.
  - intros h d v Htag Hpath Hget. simpl. rewrite Htag, Hpath.
    now apply getitem_with_get.
  - intros h d d' Htag Hpath Hd Hnd. simpl. rewrite Htag, Hpath.
    rewrite (rebuild_pointwise StorageFormat.restore_key
               StorageFormat.to_json_mapping_walk d d'); auto.
    + simpl. now rewrite pop_hash_filter.
    + eapply Forall2_impl; [|exact Hd].
      intros [k v] [k' v'] [(s & Hk & Hk') Hv]. simpl in *. subst. auto.
  - intros s. now apply replace_removes.
  - intros l l' Hl. simpl. apply map_result_ok in Hl. now rewrite Hl.
  - intros v Hv. destruct v; simpl in *; try discriminate; reflexivity.
Qed.

(** A stored record with a set, a path, a date, an escaped key and a
    "_hash". *)
Lemma to_json_mapping_spec_witness :
  StorageFormat.to_json_mapping
    (VDict false
       [(KStr [97; 65294; 98]%N,
          VDict false [(KStr s_type, VStr s_set);
                       (KStr s_value, VList [VInt 1; VDate 2020 3 7])]);
        (KStr s_hash, VInt 5);
        (KStr (lit "p"),
          VDict false [(KStr s_type, VStr s_Path);
                       (KStr s_value, VStr (lit "/x/y"))])])
  = Ok (VDict false
          [(KStr (lit "a.b"), VList [VInt 1; VStr (lit "2020-03-07")]);
           (KStr (lit "p"), VStr (lit "/x/y"))]).
Proof.
  destruct to_json_mapping_spec as (_ & Hset & Hpath & Hmap & _ & Hdate & _ & Hleaf).
  apply (Hmap false _
           [(KStr (lit "a.b"), VList [VInt 1; VStr (lit "2020-03-07")]);
            (KStr s_hash, VInt 5);
            (KStr (lit "p"), VStr (lit "/x/y"))]); try reflexivity.
  - apply Forall2_cons; [split|apply Forall2_cons; [split|apply Forall2_cons;
      [split|apply Forall2_nil]]].
    + exists [97; 65294; 98]%N. split; reflexivity.
    + apply (Hset false _ [VInt 1; VDate 2020 3 7]); reflexivity.
    + exists s_hash. split; reflexivity.
    + reflexivity.
    + exists (lit "p"). split; reflexivity.
    + apply (Hpath false); reflexivity.
  - repeat constructor; simpl; intuition discriminate.
Defined.

(** ** Paths between the Working and the Raw format *)

Lemma forallb_incl {A} (p : A -> bool) (l s : list A) :
  (forall y, In y s -> In y l) -> forallb p l = true -> forallb p s = true.
Proof.
  intros Hin Hl. apply forallb_forall. intros y Hy.
  rewrite forallb_forall in Hl. auto.
Qed.

Lemma Forall2_forallb {A B} (R : A -> B -> Prop) (p : A -> Prop) (q : B -> bool) l l' :
  Forall2 R l l' -> Forall p l ->
  (forall x y, In x l -> p x -> R x y -> q y = true) ->
  forallb q l' = true.
Proof.
  induction 1 as [|x y l l' Hxy _ IH]; simpl; intros Hp Hq; [reflexivity|].
  inversion Hp; subst. apply andb_true_iff. split.
  - apply (Hq x); auto.
  - apply IH; auto. intros; eapply Hq; eauto.
Qed.

(** A converted value is the string "Path" only if the value was. *)
Lemma to_raw_str_is E v v' :
  WorkingFormat.to_raw_format_walk E v = Ok v' ->
  str_is s_Path v' = true -> str_is s_Path v = true.
Proof.
  destruct v; simpl; try (intros [= <-]; auto; fail).
  - intros (l' & _ & [= <-])%bind_ok. discriminate.
  - destruct (tag_is s_Path items0).
    + intros (v & _ & Hv)%getitem_with_ok.
      destruct v; simpl in Hv; try discriminate; injection Hv as <-; discriminate.
    + intros (d' & _ & [= <-])%bind_ok. discriminate.
  - intros (s & _ & [= <-])%bind_ok. discriminate.
  - intros (s & _ & [= <-])%bind_ok. discriminate.
Qed.

(** The Raw document [to_raw_format] returns has no "Path" mapping. *)
Lemma to_raw_path_tag_free E d :
  set_order_ok E ->
  forall r, WorkingFormat.to_raw_format_walk E d = Ok r -> path_tag_free r = true.
Proof.
  intros Hord.
  induction d as [| | | | | | |l IH|h d IH|l IH|l IH|c fs IH] using value_ind;
    simpl; intros r Hr; try (injection Hr as <-; reflexivity).
  - apply bind_ok in Hr as (l' & Hl' & [= <-]). simpl.
    apply map_result_ok in Hl'.
    eapply Forall2_forallb; eauto; simpl; eauto.
  - destruct (tag_is s_Path d) eqn:Htag.
    + apply getitem_with_ok in Hr as (v & _ & Hv).
      destruct v; simpl in Hv; try discriminate; now injection Hv as <-.
    + apply bind_ok in Hr as (d' & Hd' & [= <-]). simpl.
      apply andb_true_iff. split.
      * apply negb_true_iff. unfold tag_is in *.
        pose proof (map_items_get _ _ _ (KStr s_type) Hd') as Hget.
        destruct (dict_get (KStr s_type) d) as [t|].
        -- destruct Hget as (t' & -> & Ht').
           destruct (str_is s_Path t') eqn:Hs; [|reflexivity].
           apply (to_raw_str_is _ _ _ Ht') in Hs. congruence.
        -- now rewrite Hget.
      * apply map_items_ok in Hd'.
        eapply Forall2_forallb; eauto; simpl.
        intros x y _ Hx [_ Hy]; eauto.
  - apply bind_ok in Hr as (s & Hs & [= <-]). simpl.
    apply set_of_map_ok in Hs as (l' & Hl' & _ & ->).
    apply forallb_incl with l'; [intros; now apply set_elements_In with E|].
    eapply Forall2_forallb; eauto; simpl; eauto.
  - apply bind_ok in Hr as (s & Hs & [= <-]). simpl.
    apply set_of_map_ok in Hs as (l' & Hl' & _ & ->).
    apply forallb_incl with l'; [intros; now apply set_elements_In with E|].
    eapply Forall2_forallb; eauto; simpl; eauto.
Qed.

(** The Working document [RawFormat.to_working_format] returns has no
    native path. *)
Lemma to_working_path_free E d :
  set_order_ok E ->
  forall w, RawFormat.to_working_format_walk E d = Ok w -> path_free w = true.
Proof.
  intros Hord.
  induction d as [| | | | | | |l IH|h d IH|l IH|l IH|c fs IH] using value_ind;
    simpl; intros r Hr; try (injection Hr as <-; reflexivity).
  - apply bind_ok in Hr as (l' & Hl' & [= <-]). simpl.
    apply map_result_ok in Hl'.
    eapply Forall2_forallb; eauto; simpl; eauto.
  - apply bind_ok in Hr as (d' & Hd' & [= <-]). simpl.
    apply map_items_ok in Hd'.
    eapply Forall2_forallb; eauto; simpl.
    intros x y _ Hx [_ Hy]; eauto.
  - apply bind_ok in Hr as (s & Hs & [= <-]). simpl.
    apply set_of_map_ok in Hs as (l' & Hl' & _ & ->).
    apply forallb_incl with l'; [intros; now apply set_elements_In with E|].
    eapply Forall2_forallb; eauto; simpl; eauto.
  - apply bind_ok in Hr as (s & Hs & [= <-]). simpl.
    apply set_of_map_ok in Hs as (l' & Hl' & _ & ->).
    apply forallb_incl with l'; [intros; now apply set_elements_In with E|].
    eapply Forall2_forallb; eauto; simpl; eauto.
Qed.

(** The equations of the two walkers.  [WorkingFormat.to_raw_format]
    turns a mapping tagged "Path" into the native path built from its
    "_value" string and is structural elsewhere (mappings item-wise,
    lists element-wise, sets and frozensets element-wise when the
    converted elements are hashable), so that no "Path" mapping is left;
    [RawFormat.to_working_format] turns a native path into the hashable
    mapping [{"_type": "Path", "_value": str(path), "_hash":
    hash(path)}], so that no native path is left. *)
Lemma path_conversion_spec (E : pyenv) :
  set_order_ok E ->
  (forall h d s,
      tag_is s_Path d = true -> dict_get (KStr s_value) d = Some (VStr s) ->
      WorkingFormat.to_raw_format E (VDict h d) = Ok (VPath (path_norm E s)))
  /\ (forall h d d',
      tag_is s_Path d = false ->
      Forall2 (fun kv kv' => fst kv' = fst kv
                 /\ WorkingFormat.to_raw_format E (snd kv) = Ok (snd kv')) d d' ->
      WorkingFormat.to_raw_format E (VDict h d) = Ok (VDict false d'))
  /\ (forall l l',
      Forall2 (fun x y => WorkingFormat.to_raw_format E x = Ok y) l l' ->
      WorkingFormat.to_raw_format E (VList l) = Ok (VList l')
      /\ (forallb (hashable E) l' = true ->
          WorkingFormat.to_raw_format E (VSet l) = Ok (VSet (set_elements E l'))
          /\ WorkingFormat.to_raw_format E (VFrozenset l)
             = Ok (VFrozenset (set_elements E l'))))
  /\ (forall v, is_leaf v = true -> WorkingFormat.to_raw_format E v = Ok v)
  /\ (forall d r, WorkingFormat.to_raw_format E d = Ok r -> path_tag_free r = true)
  /\ (forall p,
      RawFormat.to_working_format E (VPath p) = Ok (path_mapping E p)
      /\ hashable E (path_mapping E p) = true)
  /\ (forall d w, RawFormat.to_working_format E d = Ok w -> path_free w = true).
Proof.
  intros Hord.
  unfold WorkingFormat.to_raw_format, RawFormat.to_working_format.
  split; [|split; [|split; [|split; [|split; [|split]]]]].
  - intros h d s Htag Hget. simpl. rewrite Htag.
    now rewrite (getitem_with_get _ _ _ _ Hget).
  - intros h d d' Htag Hd. simpl. rewrite Htag.
    apply map_items_ok in Hd. now rewrite Hd.
  - intros l l' Hl.
    assert (Hs : forallb (hashable E) l' = true ->
                 set_of_map E (WorkingFormat.to_raw_format_walk E) l
                 = Ok (set_elements E l')) by (intros; apply set_of_map_ok; eauto).
    split; [|intros Hh; split].
    + simpl. apply map_result_ok in Hl. now rewrite Hl.
    + simpl. now rewrite Hs.
    + simpl. now rewrite Hs.
  - intros v Hv. destruct v; simpl in *; try discriminate; reflexivity.
  - intros d r. now apply to_raw_path_tag_free.
  - intros p. split; reflexivity.
  - intros d w. now apply to_working_path_free.
Qed.

(** C6.  [WorkingFormat.to_raw_format] rebuilds every mapping that is
    not tagged "Path" as a plain [dict], also the hash-carrying mappings
    that [RawFormat.to_working_format] returns so that they can be held
    by sets, and a plain [dict] cannot be put in a set: on a set or
    frozenset that holds such a mapping it raises [TypeError] in the
    place of keeping the set.  The set below is what Object -> Raw ->
    Working makes of [{Widget(n=3)}]; a set of mappings tagged "Path" is
    kept, its elements becoming paths. *)
Theorem set_of_hash_carrying_mappings_is_not_kept :
  ObjFormat.to_raw_format Sample.env (VSet [widget3]) = Ok (VSet [widget3_mapping])
  /\ RawFormat.to_working_format Sample.env (VSet [widget3_mapping])
     = Ok (VSet [widget3_mapping])
  /\ hashable Sample.env widget3_mapping = true
  /\ WorkingFormat.to_raw_format Sample.env (VSet [widget3_mapping])
     = Raise TypeError
  /\ WorkingFormat.to_raw_format Sample.env (VFrozenset [widget3_mapping])
     = Raise TypeError
  /\ WorkingFormat.to_raw_format Sample.env (VList [widget3_mapping])
     = Ok (VList [plain widget3_mapping])
  /\ WorkingFormat.to_raw_format Sample.env
       (VSet [path_mapping Sample.env (lit "/x/y")])
     = Ok (VSet [VPath (lit "/x/y")])
  /\ (forall E l h d,
        In (VDict h d) l -> tag_is s_Path d = false ->
        raises (WorkingFormat.to_raw_format E (VSet l))
        /\ raises (WorkingFormat.to_raw_format E (VFrozenset l))
        /\ ((forall y, In y l -> exists y', WorkingFormat.to_raw_format E y = Ok y') ->
            WorkingFormat.to_raw_format E (VSet l) = Raise TypeError
            /\ WorkingFormat.to_raw_format E (VFrozenset l) = Raise TypeError)).
Proof.
  split; [reflexivity|]. split; [reflexivity|]. split; [reflexivity|].
  split; [reflexivity|]. split; [reflexivity|]. split; [reflexivity|].
  split; [reflexivity|].
  intros E l h d Hin Htag. unfold WorkingFormat.to_raw_format.
  assert (Hx : WorkingFormat.to_raw_format_walk E (VDict h d)
               = bind (map_items (WorkingFormat.to_raw_format_walk E) d)
                   (fun d' => Ok (VDict false d')))
    by (simpl; now rewrite Htag).
  destruct (map_items (WorkingFormat.to_raw_format_walk E) d) as [d'|e] eqn:Hd.
  - cbn [bind] in Hx.
    destruct (set_of_map_unhashable E _ l _ (VDict false d') Hin Hx eq_refl)
      as [Hr Hexact].
    simpl. split; [now apply raises_bind|]. split; [now apply raises_bind|].
    intros Hall. now rewrite (Hexact Hall).
  - cbn [bind] in Hx.
    assert (Hr : raises (set_of_map E (WorkingFormat.to_raw_format_walk E) l)).
    { apply set_of_map_raises with (VDict h d); [exact Hin|].
      exists e. exact Hx. }
    simpl. split; [now apply raises_bind|]. split; [now apply raises_bind|].
    intros Hall. exfalso. destruct (Hall _ Hin) as [y' Hy']. congruence.
Qed.

(** ** The hash of a domain object is best effort *)

Lemma dict_update_disjoint {A} (e : list (key * A)) :
  NoDup (dict_keys e) ->
  forall d, (forall k, In k (dict_keys e) -> dict_contains k d = false) ->
  dict_update d e = d ++ e.
Proof.
  unfold dict_update.
  induction e as [|[k v] e IH]; simpl; intros Hnd d Hd.
  - now rewrite app_nil_r.
  - inversion Hnd as [|? ? Hnotin Hnd']; subst.
    rewrite dict_set_fresh by (apply Hd; now left).
    rewrite IH; auto.
    + now rewrite <- app_assoc.
    + intros k0 Hk0. rewrite dict_contains_app, Hd by now right.
      simpl. rewrite orb_false_r. apply key_eqb_neq. congruence.
Qed.

Lemma dict_contains_not_in {A} k (d : list (key * A)) :
  dict_contains k d = false -> ~ In k (dict_keys d).
Proof.
  intros H Hin. apply dict_contains_keys in Hin. congruence.
Qed.

(** The mapping emitted for a domain object whose fields encode: the
    tag, the hash when there is one, then the encoded fields. *)
Lemma to_raw_object E c fs fs' :
  NoDup (dict_keys fs) ->
  dict_contains (KStr s_type) fs = false ->
  dict_contains (KStr s_hash) fs = false ->
  map_items (ObjFormat.to_raw_format_walk E) fs = Ok fs' ->
  ObjFormat.to_raw_format_walk E (VObj c fs)
  = Ok (match obj_hash E c fs with
        | Some h =>
            VDict true ((KStr s_type, VStr (cls_name E c))
                          :: (KStr s_hash, VInt h) :: fs')
        | None => VDict false ((KStr s_type, VStr (cls_name E c)) :: fs')
        end).
Proof.
  intros Hnd Htype Hhash Henc.
  pose proof (map_items_keys _ _ _ Henc) as Hkeys.
  assert (Hnd' : NoDup (dict_keys fs')) by now rewrite Hkeys.
  assert (Hfresh : forall k, dict_contains k fs = false ->
                   ~ In k (dict_keys fs')).
  { intros k Hk. rewrite Hkeys. now apply dict_contains_not_in. }
  simpl. rewrite Henc. destruct (obj_hash E c fs) as [h|]; simpl.
  - unfold ObjFormat.tagged_hashed.
    rewrite dict_update_disjoint; auto.
    intros k Hk. simpl. rewrite orb_false_r.
    apply orb_false_iff. split; apply key_eqb_neq; intros <-;
      [now apply (Hfresh _ Htype) | now apply (Hfresh _ Hhash)].
  - unfold ObjFormat.tagged.
    rewrite dict_update_disjoint; auto.
    intros k Hk. simpl. rewrite orb_false_r.
    apply key_eqb_neq; intros <-. now apply (Hfresh _ Htype).
Qed.

(** C7.  For a domain object whose fields encode, and none of whose
    fields is named "_type" or "_hash": when [hash] succeeds the emitted
    mapping is the hashdict [{"_type": name, "_hash": h, **fields}]; when
    [hash] raises [TypeError] the exception is caught and the emitted
    mapping is [{"_type": name, **fields}], without "_hash"; the tag and
    the encoded fields are the same in both. *)
Theorem hash_is_best_effort (E : pyenv) (c : class_id) (fs fs' : items) :
  NoDup (dict_keys fs) ->
  dict_contains (KStr s_type) fs = false ->
  dict_contains (KStr s_hash) fs = false ->
  map_items (ObjFormat.to_raw_format E) fs = Ok fs' ->
  (forall h, obj_hash E c fs = Some h ->
     ObjFormat.to_raw_format E (VObj c fs)
     = Ok (VDict true
             ((KStr s_type, VStr (cls_name E c)) :: (KStr s_hash, VInt h) :: fs')))
  /\ (obj_hash E c fs = None ->
      ObjFormat.to_raw_format E (VObj c fs)
      = Ok (VDict false ((KStr s_type, VStr (cls_name E c)) :: fs')))
  /\ dict_contains (KStr s_hash) fs' = false.
Proof.
  intros Hnd Htype Hhash Henc.
  change (map_items (ObjFormat.to_raw_format_walk E) fs = Ok fs') in Henc.
  pose proof (to_raw_object E c fs fs' Hnd Htype Hhash Henc) as Hobj.
  unfold ObjFormat.to_raw_format. split; [|split].
  - intros h Hh. now rewrite Hh in Hobj.
  - intros Hh. now rewrite Hh in Hobj.
  - destruct (dict_contains (KStr s_hash) fs') eqn:Hc; [|reflexivity].
    apply dict_contains_keys in Hc.
    rewrite (map_items_keys _ _ _ Henc) in Hc.
    now apply dict_contains_not_in in Hhash.
Qed.

(** A hashable [Widget] and an unhashable [Gadget], both with the field
    [n = 3]. *)
Lemma hash_is_best_effort_witness :
  ObjFormat.to_raw_format Sample.env (VObj Sample.Widget [(KStr (lit "n"), VInt 3)])
  = Ok (VDict true [(KStr s_type, VStr (lit "Widget")); (KStr s_hash, VInt 1);
                    (KStr (lit "n"), VInt 3)])
  /\ ObjFormat.to_raw_format Sample.env (VObj Sample.Gadget [(KStr (lit "n"), VInt 3)])
     = Ok (VDict false [(KStr s_type, VStr (lit "Gadget")); (KStr (lit "n"), VInt 3)]).
Proof.
  assert (Hnd : NoDup (dict_keys [(KStr (lit "n"), VInt 3)])).
  { repeat constructor. simpl. tauto. }
  split.
  - apply (hash_is_best_effort Sample.env Sample.Widget
             [(KStr (lit "n"), VInt 3)] [(KStr (lit "n"), VInt 3)] Hnd);
      reflexivity.
  - apply (hash_is_best_effort Sample.env Sample.Gadget
             [(KStr (lit "n"), VInt 3)] [(KStr (lit "n"), VInt 3)] Hnd);
      reflexivity.
Defined.

(** ** The registry *)

Lemma dict_get_set {A} k k0 (v : A) d :
  dict_get k0 (dict_set k v d) = if key_eqb k k0 then Some v else dict_get k0 d.
Proof.
  induction d as [|[k' v'] d IH]; simpl.
  - reflexivity.
  - destruct (key_eqb k' k) eqn:Hk; simpl.
    + apply key_eqb_eq in Hk. subst. destruct (key_eqb k k0); reflexivity.
    + destruct (key_eqb k' k0) eqn:Hk0.
      * apply key_eqb_eq in Hk0. subst. now rewrite key_eqb_sym, Hk.
      * exact IH.
Qed.

Lemma dict_set_twice {A} k (v : A) d :
  dict_set k v (dict_set k v d) = dict_set k v d.
Proof.
  induction d as [|[k' v'] d IH]; simpl.
  - now rewrite key_eqb_refl.
  - destruct (key_eqb k' k) eqn:Hk; simpl; rewrite Hk; [reflexivity|].
    now rewrite IH.
Qed.

Lemma find_app_first {A} (p : A -> bool) l l' :
  find p (l ++ l') = match find p l with
                     | Some x => Some x
                     | None => find p l'
                     end.
Proof.
  induction l as [|x l IH]; simpl; [reflexivity|].
  destruct (p x); [reflexivity | exact IH].
Qed.

Lemma build_registry_get E classes name : forall acc,
  dict_get (KStr name)
    (fold_left (fun acc c => dict_set (KStr (cls_name E c)) c acc) classes acc)
  = match last_named E classes name with
    | Some c => Some c
    | None => dict_get (KStr name) acc
    end.
Proof.
  unfold last_named.
  induction classes as [|c classes IH]; simpl; intros acc; [reflexivity|].
  rewrite IH, find_app_first.
  destruct (find _ (rev classes)) as [c'|]; [reflexivity|].
  simpl. rewrite dict_get_set.
  unfold key_eqb. destruct (PyStr.eqb (cls_name E c) name); reflexivity.
Qed.

(** C9, as the code has it.  Inserting a class under its name twice is
    the same as inserting it once, and a later call of
    [serializable_complex_types()] returns the cached registry unchanged;
    a tag resolves to the last subclass carrying that name, so a subclass
    replaces an earlier one of the same name and no conflict is raised. *)
Theorem registry_last_subclass_wins (E : pyenv) :
  (forall (reg : registry) name c,
      dict_set (KStr name) c (dict_set (KStr name) c reg)
      = dict_set (KStr name) c reg)
  /\ (forall sct,
      serializable_complex_types E (snd (serializable_complex_types E sct))
      = serializable_complex_types E sct)
  /\ (forall name,
      dict_get (KStr name) (fst (serializable_complex_types E None))
      = last_named E (subclasses E) name).
Proof.
  split; [|split].
  - intros reg name c. apply dict_set_twice.
  - intros [r|]; reflexivity.
  - intros name. simpl. unfold build_registry.
    rewrite build_registry_get. now destruct (last_named E (subclasses E) name).
Qed.

(** C9 as stated fails.  With two distinct subclasses named "Widget" the
    registry is built without any conflict being raised and holds the
    second one only: the first is no longer resolved by its tag, and the
    encoding of one of its instances is decoded by the second class. *)
Lemma registry_conflict_is_silent :
  0 <> 1
  /\ cls_name Clash.env 0 = cls_name Clash.env 1
  /\ subclasses Clash.env = [0; 1]
  /\ fst (serializable_complex_types Clash.env None) = [(KStr (lit "Widget"), 1)]
  /\ ~ (forall c, In c (subclasses Clash.env) ->
          dict_get (KStr (cls_name Clash.env c))
            (fst (serializable_complex_types Clash.env None)) = Some c)
  /\ RawFormat.to_obj_format Clash.env None
       (VDict false [(KStr s_type, VStr (lit "Widget")); (KStr (lit "n"), VInt 3)])
     = Ok (VObj 1 [(KStr (lit "n"), VInt 3)]).
Proof.
  split; [discriminate|]. repeat split.
  intros H. specialize (H 0 (or_introl eq_refl)). discriminate H.
Qed.

(** ** Unknown tags at Object resolution *)

Lemma dict_get_map_values {A B} (g : A -> B) k (d : list (key * A)) :
  dict_get k (List.map (fun kv => (fst kv, g (snd kv))) d)
  = option_map g (dict_get k d).
Proof.
  induction d as [|[k' v'] d IH]; simpl; [reflexivity|].
  destruct (key_eqb k' k); [reflexivity | exact IH].
Qed.

Lemma map_result_pointwise {A B} (f : A -> result B) (g : A -> B) l :
  Forall (fun x => f x = Ok (g x)) l -> map_result f l = Ok (List.map g l).
Proof.
  induction 1 as [|x l Hx _ IH]; simpl; [reflexivity|].
  now rewrite Hx, IH.
Qed.

Lemma map_items_pointwise f (g : value -> value) d :
  Forall (fun kv => f (snd kv) = Ok (g (snd kv))) d ->
  map_items f d = Ok (List.map (fun kv => (fst kv, g (snd kv))) d).
Proof.
  induction 1 as [|[k v] d Hx _ IH]; simpl; [reflexivity|].
  simpl in Hx. now rewrite Hx, IH.
Qed.

(** The mapping branch when the tag is not in the registry. *)
Lemma resolve_unknown E reg res :
  tag_unknown reg res = true -> RawFormat.resolve E reg res = Ok (VDict false res).
Proof.
  unfold tag_unknown, RawFormat.resolve.
  destruct (dict_get (KStr s_type) res) as [[]|]; try discriminate; auto.
  intros Ht. apply negb_true_iff in Ht. simpl. now rewrite Ht.
Qed.

Lemma to_obj_tags_unknown E reg d :
  tags_unknown reg d = true ->
  RawFormat.to_obj_format_walk E reg d = Ok (plain d).
Proof.
  induction d as [| | | | | | |l IH|h d IH|l IH|l IH|c fs IH] using value_ind;
    simpl; try reflexivity; try discriminate.
  - intros Hl. apply forallb_Forall in Hl.
    rewrite (map_result_pointwise _ plain); [reflexivity|].
    rewrite Forall_forall in *. auto.
  - intros [Htag Hd]%andb_true_iff. apply forallb_Forall in Hd.
    rewrite (map_items_pointwise _ plain); simpl.
    + apply resolve_unknown. unfold tag_unknown in *.
      rewrite dict_get_map_values.
      destruct (dict_get (KStr s_type) d) as [[]|]; try discriminate; auto.
    + rewrite Forall_forall in *. auto.
Qed.

Lemma NoDup_keys_filter {A} (p : key * A -> bool) (d : list (key * A)) :
  NoDup (dict_keys d) -> NoDup (dict_keys (filter p d)).
Proof.
  induction d as [|kv d IH]; simpl; intros Hnd; [constructor|].
  inversion Hnd as [|? ? Hnotin Hnd']; subst.
  destruct (p kv); simpl; auto.
  constructor; auto. intros Hin. apply Hnotin.
  unfold dict_keys in *. apply in_map_iff in Hin as (x & <- & Hx).
  apply filter_In in Hx as [Hx _]. now apply in_map.
Qed.

Lemma filter_twice {A} (p q : A -> bool) l :
  filter q (filter p l) = filter (fun x => p x && q x) l.
Proof.
  induction l as [|x l IH]; simpl; [reflexivity|].
  destruct (p x); simpl; [destruct (q x)|]; now rewrite IH.
Qed.

(** What is left for [from_dict] are the items under the other keys. *)
Lemma stripped_filter (res : items) :
  NoDup (dict_keys res) ->
  stripped res
  = filter (fun kv => negb (key_eqb (fst kv) (KStr s_type))
                      && negb (key_eqb (fst kv) (KStr s_hash))) res.
Proof.
  intros Hnd. unfold stripped.
  rewrite (dict_pop_filter (KStr s_type)) by assumption.
  rewrite pop_hash_filter by now apply NoDup_keys_filter.
  apply filter_twice.
Qed.

(** The mapping branch of [RawFormat.to_obj_format], once the fields of
    a mapping have been converted into [res]: a mapping without "_type",
    or whose "_type" is a string that is not in the registry, is returned
    as the plain mapping [res], keys and "_type" included; a mapping whose
    "_type" is in the registry is replaced by what the registered class
    decodes from [res] without "_type" and "_hash".  A document of lists,
    mappings and leaves with no registered tag comes back as it is
    (hashdicts as plain dicts). *)
Lemma unknown_tags_pass_through (E : pyenv) (reg : registry) :
  (forall h d res,
      NoDup (dict_keys d) ->
      map_items (RawFormat.to_obj_format_walk E reg) d = Ok res ->
      dict_keys res = dict_keys d
      /\ (dict_get (KStr s_type) res = None ->
          RawFormat.to_obj_format_walk E reg (VDict h d) = Ok (VDict false res))
      /\ (forall t, dict_get (KStr s_type) res = Some (VStr t) ->
            dict_contains (KStr t) reg = false ->
            RawFormat.to_obj_format_walk E reg (VDict h d) = Ok (VDict false res))
      /\ (forall t c, dict_get (KStr s_type) res = Some (VStr t) ->
            dict_get (KStr t) reg = Some c ->
            RawFormat.to_obj_format_walk E reg (VDict h d)
            = from_dict E c (stripped res)
            /\ stripped res
               = filter (fun kv => negb (key_eqb (fst kv) (KStr s_type))
                                   && negb (key_eqb (fst kv) (KStr s_hash))) res))
  /\ (forall d, tags_unknown reg d = true ->
        RawFormat.to_obj_format_walk E reg d = Ok (plain d)).
Proof.
  split; [|intros d; apply to_obj_tags_unknown].
  intros h d res Hnd Hres.
  pose proof (map_items_keys _ _ _ Hres) as Hkeys.
  split; [now apply map_items_keys with (f := RawFormat.to_obj_format_walk E reg)|].
  split; [|split].
  - intros Hnone. simpl. rewrite Hres. simpl.
    apply resolve_unknown. unfold tag_unknown. now rewrite Hnone.
  - intros t Ht Hunk. simpl. rewrite Hres. simpl.
    apply resolve_unknown. unfold tag_unknown. now rewrite Ht, Hunk.
  - intros t c Ht Hc. split.
    + simpl. rewrite Hres. simpl. unfold RawFormat.resolve.
      rewrite Ht. simpl.
      assert (Hin : dict_contains (KStr t) reg = true)
        by (apply dict_contains_get; eauto).
      rewrite Hin, Hc. reflexivity.
    + apply stripped_filter. now rewrite Hkeys.
Qed.

(** C4.  A mapping with an unknown tag is returned as a plain [dict],
    also when it is a [hashdict] that carries "_hash", and a plain [dict]
    cannot be put in a set: on a set or frozenset that holds such a
    mapping, [RawFormat.to_obj_format] raises [TypeError] in the place of
    leaving the mapping as it is.  [ObjFormat.to_raw_format] emits such a
    set for a set holding a hashable instance of a class that
    [__subclasses__()] does not list ([Widget], when it derives from
    [Gadget]); the same mapping passes through in a list, and
    [RawFormat.to_working_format] keeps it hash-carrying. *)
Theorem unknown_tag_in_a_set_is_an_error :
  ObjFormat.to_raw_format Indirect.env (VSet [widget3]) = Ok (VSet [widget3_mapping])
  /\ RawFormat.to_obj_format Indirect.env None (VSet [widget3_mapping])
     = Raise TypeError
  /\ RawFormat.to_obj_format Indirect.env None (VFrozenset [widget3_mapping])
     = Raise TypeError
  /\ RawFormat.to_obj_format Indirect.env None (VList [widget3_mapping])
     = Ok (VList [plain widget3_mapping])
  /\ RawFormat.to_working_format Indirect.env (VSet [widget3_mapping])
     = Ok (VSet [widget3_mapping])
  /\ (forall E sct h d res,
        map_items (RawFormat.to_obj_format E sct) d = Ok res ->
        tag_unknown (fst (serializable_complex_types E sct)) res = true ->
        RawFormat.to_obj_format E sct (VDict h d) = Ok (VDict false res))
  /\ (forall E sct l x d,
        In x l -> RawFormat.to_obj_format E sct x = Ok (VDict false d) ->
        raises (RawFormat.to_obj_format E sct (VSet l))
        /\ raises (RawFormat.to_obj_format E sct (VFrozenset l))
        /\ ((forall y, In y l -> exists y', RawFormat.to_obj_format E sct y = Ok y') ->
            RawFormat.to_obj_format E sct (VSet l) = Raise TypeError
            /\ RawFormat.to_obj_format E sct (VFrozenset l) = Raise TypeError)).
Proof.
  split; [reflexivity|]. split; [reflexivity|]. split; [reflexivity|].
  split; [reflexivity|]. split; [reflexivity|]. split.
  - intros E sct h d res Hres Hunk.
    change (map_items (RawFormat.to_obj_format_walk E
                         (fst (serializable_complex_types E sct))) d = Ok res)
      in Hres.
    unfold RawFormat.to_obj_format. simpl. rewrite Hres. simpl.
    now apply resolve_unknown.
  - intros E sct l x d Hin Hx.
    change (RawFormat.to_obj_format_walk E
              (fst (serializable_complex_types E sct)) x = Ok (VDict false d))
      in Hx.
    destruct (set_of_map_unhashable E _ l x (VDict false d) Hin Hx eq_refl)
      as [Hr Hexact].
    unfold RawFormat.to_obj_format. simpl.
    split; [now apply raises_bind|]. split; [now apply raises_bind|].
    intros Hall. now rewrite (Hexact Hall).
Qed.

(** ** Storing what was loaded *)

Lemma replace_inverse a b s :
  contains b s = false -> replace b a (replace a b s) = s.
Proof.
  unfold contains, replace. induction s as [|c s IH]; simpl; [reflexivity|].
  intros [Hc Hs]%orb_false_iff. rewrite IH by assumption. f_equal.
  destruct (N.eqb c a) eqn:Hca.
  - rewrite N.eqb_refl. apply N.eqb_eq in Hca. congruence.
  - rewrite N.eqb_sym in Hc. now rewrite Hc.
Qed.

Lemma map_key_str s :
  WorkingFormat.map_key (KStr s) = KStr (replace dot fullwidth_dot s).
Proof.
  simpl. destruct (contains dot s) eqn:Hc; [reflexivity|].
  now rewrite replace_unchanged.
Qed.

(** A dot-free key is restored and escaped back to itself. *)
Lemma storage_key_round_trip k :
  storage_key k = true ->
  exists k', StorageFormat.restore_key k = Ok k' /\ WorkingFormat.map_key k' = k.
Proof.
  destruct k as [s| | | | |]; simpl; try discriminate.
  intros Hs%negb_true_iff. eexists. split; [reflexivity|].
  rewrite map_key_str. now rewrite replace_inverse.
Qed.

Lemma fold_set_add_distinct E l : forall seen,
  distinct_after E seen l = true ->
  fold_left (set_add E) l seen = seen ++ l.
Proof.
  induction l as [|x l IH]; simpl; intros seen H.
  - now rewrite app_nil_r.
  - apply andb_true_iff in H as [Hx Hl]. apply negb_true_iff in Hx.
    unfold set_add at 2. rewrite Hx, IH by assumption.
    now rewrite <- app_assoc.
Qed.

Lemma build_set_distinct E l :
  forallb (hashable E) l = true -> distinct E l = true ->
  build_set E l = Ok (set_order E l).
Proof.
  intros Hh Hd. unfold build_set. rewrite Hh.
  now rewrite (fold_set_add_distinct E l []).
Qed.

Lemma stored_equiv_list l l' :
  stored_equiv (VList l) (VList l') -> Forall2 stored_equiv l l'.
Proof.
  intros H. inversion H; subst; [|assumption].
  clear H. induction l'; constructor; [apply se_same | assumption].
Qed.

Lemma Forall2_map_right {A B C} (R : A -> C -> Prop) (f : B -> C) l l' :
  Forall2 (fun x y => R x (f y)) l l' -> Forall2 R l (List.map f l').
Proof. induction 1; simpl; constructor; auto. Qed.

Section StoreLoad.
Variable E : pyenv.
Hypothesis Hord : set_order_ok E.

Local Abbreviation walk := (StorageFormat.to_working_format_walk E).
Local Abbreviation back := WorkingFormat.to_storage_format_walk.

Local Abbreviation restored := (restores E).

Lemma restored_list l :
  Forall restored l ->
  forallb storage_doc l = true -> forallb (sets_loadable E) l = true ->
  exists ws, Forall2 (fun x w => walk x = Ok w /\ stored_equiv x (back w)) l ws.
Proof.
  induction 1 as [|x l Hx _ IH]; simpl; intros Hs Hl.
  - exists []. constructor.
  - apply andb_true_iff in Hs as [Hs1 Hs2].
    apply andb_true_iff in Hl as [Hl1 Hl2].
    destruct (Hx Hs1 Hl1) as (w & Hw & Heq).
    destruct (IH Hs2 Hl2) as (ws & Hws).
    exists (w :: ws). constructor; auto.
Qed.

Lemma restored_items d :
  Forall (fun kv => restored (snd kv)) d ->
  forallb (fun kv => storage_key (fst kv) && storage_doc (snd kv)) d = true ->
  forallb (fun kv => sets_loadable E (snd kv)) d = true ->
  exists d1,
    Forall2 (fun kv kv' =>
               StorageFormat.restore_key (fst kv) = Ok (fst kv')
               /\ walk (snd kv) = Ok (snd kv')) d d1
    /\ Forall2 (fun kv kv' =>
                  fst kv = WorkingFormat.map_key (fst kv')
                  /\ stored_equiv (snd kv) (back (snd kv'))) d d1.
Proof.
  induction 1 as [|[k v] d Hx _ IH]; simpl; intros Hs Hl.
  - exists []. split; constructor.
  - apply andb_true_iff in Hs as [Hs1 Hs2].
    apply andb_true_iff in Hs1 as [Hk Hv].
    apply andb_true_iff in Hl as [Hl1 Hl2].
    destruct (Hx Hv Hl1) as (w & Hw & Heq).
    destruct (IH Hs2 Hl2) as (d1 & Hd1 & Hd1').
    destruct (storage_key_round_trip _ Hk) as (k' & Hk' & Hback).
    exists ((k', w) :: d1). split; constructor; auto.
Qed.

Lemma store_load_equiv d : restored d.
Proof.
  induction d as [| | | | | | |l IH|h d IH|l IH|l IH|c fs IH] using value_ind;
    unfold restores; simpl; intros Hs Hl; try discriminate;
    try (eexists; split; [reflexivity | apply se_same]).
  - (* lists *)
    destruct (restored_list l IH Hs Hl) as (ws & Hws).
    exists (VList ws). split.
    + assert (Hm : map_result walk l = Ok ws).
      { apply map_result_ok. eapply Forall2_impl; [|exact Hws]. now intros ? ? [? ?]. }
      simpl. now rewrite Hm.
    + simpl. apply se_list. apply Forall2_map_right.
      eapply Forall2_impl; [|exact Hws]. now intros ? ? [? ?].
  - (* mappings *)
    apply andb_true_iff in Hs as [Hs Hshape].
    apply andb_true_iff in Hs as [Hs Hnd].
    apply andb_true_iff in Hs as [Hh Hitems].
    apply negb_true_iff in Hh. subst h.
    apply andb_true_iff in Hl as [Hl Hsets].
    destruct (StorageFormat.tag_in_sets d) eqn:Htag.
    + (* a stored set *)
      destruct d as [|[k1 [| | |t| | | | | | | |]] [|[k2 [| | | | | | |l| | | |]] [|]]];
        try discriminate.
      apply andb_true_iff in Hshape as [Hk1 Hk2].
      apply key_eqb_eq in Hk1, Hk2. subst k1 k2.
      change (dict_get (KStr s_value) [(KStr s_type, VStr t); (KStr s_value, VList l)])
        with (Some (VList l)) in Hsets.
      cbv beta iota in Hsets.
      destruct (map_result (StorageFormat.to_working_format_walk E) l) as [ws|] eqn:Hws;
        [|discriminate].
      apply andb_true_iff in Hsets as [Hhash Hdist].
      inversion IH as [|? ? _ IH']; subst. inversion IH' as [|? ? IHl _]; subst.
      simpl in Hitems, Hl. rewrite !andb_true_r in Hitems, Hl.
      destruct (IHl Hitems Hl) as (w & Hw & Heq).
      simpl in Hw. rewrite Hws in Hw. simpl in Hw.
      injection Hw as <-. simpl in Heq. apply stored_equiv_list in Heq.
      assert (Hperm : Permutation (List.map back ws) (List.map back (set_order E ws))).
      { apply Permutation_map. symmetry. apply Hord. }
      unfold StorageFormat.tag_in_sets, tag_is in Htag. simpl in Htag.
      simpl. unfold tag_is. simpl.
      change (getitem_with (StorageFormat.to_working_format_walk E) (KStr s_value)
                [(KStr s_type, VStr t); (KStr s_value, VList l)])
        with (StorageFormat.to_working_format_walk E (VList l)).
      simpl. rewrite Hws. simpl.
      unfold set_of, frozenset_of. simpl.
      rewrite (build_set_distinct _ _ Hhash Hdist). simpl.
      destruct (PyStr.eqb t s_set) eqn:Ht.
      * apply pystr_eqb_eq in Ht. subst t.
        eexists. split; [reflexivity|]. simpl.
        apply (se_set s_set l (List.map back ws)); auto.
      * simpl in Htag. rewrite Htag. apply pystr_eqb_eq in Htag. subst t.
        eexists. split; [reflexivity|]. simpl.
        apply (se_set s_frozenset l (List.map back ws)); auto.
    + (* any other mapping *)
      destruct (restored_items d IH Hitems Hl) as (d1 & Hd1 & Hd1').
      assert (Hkeys : List.map WorkingFormat.map_key (dict_keys d1) = dict_keys d).
      { clear -Hd1'. induction Hd1' as [|[k v] [k' v'] d d1 [Hk _] _ IHd]; simpl;
          [reflexivity|]. simpl in Hk. now rewrite IHd, Hk. }
      apply nodupb_NoDup in Hnd.
      assert (Hnd1 : NoDup (dict_keys d1)).
      { apply NoDup_map_inv with (f := WorkingFormat.map_key). now rewrite Hkeys. }
      exists (VDict false d1). split.
      * simpl.
        destruct (tag_in_sets_none _ Htag) as [-> ->].
        rewrite (rebuild_pointwise _ _ d d1 Hd1 Hnd1 []); [reflexivity|].
        reflexivity.
      * simpl. rewrite rebuild_total_pointwise; [|now rewrite Hkeys|reflexivity].
        simpl. apply se_dict. apply Forall2_map_right.
        eapply Forall2_impl; [|exact Hd1']. now intros [? ?] [? ?] [? ?].
Qed.

End StoreLoad.

Lemma Forall2_eq {A} (l l' : list A) : Forall2 eq l l' -> l = l'.
Proof. induction 1; congruence. Qed.

(** Without stored sets the equivalence is equality. *)
Lemma stored_equiv_exact d :
  set_mapping_free d = true -> forall d', stored_equiv d d' -> d = d'.
Proof.
  induction d as [| | | | | | |l IH|h d IH|l IH|l IH|c fs IH] using value_ind;
    simpl; intros Hfree d' Heq; inversion Heq; subst; try reflexivity.
  - f_equal. apply Forall2_eq. apply forallb_Forall in Hfree.
    match goal with H : Forall2 stored_equiv _ _ |- _ => rename H into Hl end.
    clear Heq. induction Hl as [|x y l l' Hxy _ IHl]; constructor.
    + inversion IH; inversion Hfree; subst; auto.
    + inversion IH; inversion Hfree; subst; auto.
  - f_equal. apply Forall2_eq.
    apply andb_true_iff in Hfree as [_ Hfree]. apply forallb_Forall in Hfree.
    match goal with H : Forall2 _ d _ |- _ => rename H into Hl end.
    clear Heq. induction Hl as [|[k v] [k' v'] l l' [Hk Hv] _ IHl]; constructor.
    + inversion IH; inversion Hfree; subst. simpl in *. subst. f_equal. auto.
    + inversion IH; inversion Hfree; subst; auto.
  - exfalso. apply andb_true_iff in Hfree as [Hfree _].
    apply negb_true_iff in Hfree.
    match goal with H : is_set_tag _ = true |- _ => rename H into Htag end.
    unfold StorageFormat.tag_in_sets, tag_is in Hfree. simpl in Hfree.
    unfold is_set_tag in Htag. congruence.
Qed.

(** C1, as the code has it.  For a Storage document whose stored sets
    have elements that load to hashable, pairwise distinct values, [load]
    succeeds and [store] of the result is the document up to the order of
    the elements of its stored sets; when the document has no stored set,
    it is the document itself. *)
Theorem store_load_up_to_set_order (E : pyenv) (d : value) :
  set_order_ok E ->
  storage_doc d = true ->
  sets_loadable E d = true ->
  exists w,
    load E d = Ok w
    /\ stored_equiv d (store w)
    /\ (set_mapping_free d = true -> store w = d).
Proof.
  intros Hord Hdoc Hsets.
  destruct (store_load_equiv E Hord d Hdoc Hsets) as (w & Hw & Heq).
  exists w. unfold load, get, StorageFormat.to_working_format.
  rewrite Hw. repeat split; auto.
  intros Hfree. symmetry. now apply stored_equiv_exact.
Qed.

(** [{"a．b": {"_type": "set", "_value": [1, 2]}, "l": [None, "x"]}] *)
Lemma store_load_up_to_set_order_witness :
  exists w,
    load Sample.env
      (VDict false
         [(KStr [97; 65294; 98]%N, set_mapping s_set [VInt 1; VInt 2]);
          (KStr (lit "l"), VList [VNone; VStr (lit "x")])]) = Ok w
    /\ stored_equiv
         (VDict false
            [(KStr [97; 65294; 98]%N, set_mapping s_set [VInt 1; VInt 2]);
             (KStr (lit "l"), VList [VNone; VStr (lit "x")])])
         (store w).
Proof.
  destruct (store_load_up_to_set_order Sample.env
              (VDict false
                 [(KStr [97; 65294; 98]%N, set_mapping s_set [VInt 1; VInt 2]);
                  (KStr (lit "l"), VList [VNone; VStr (lit "x")])])
              sample_set_order_ok eq_refl eq_refl) as (w & Hw & Heq & _).
  exists w. split; assumption.
Defined.

(** A set stored with a repeated element.  Whatever the iteration order
    of sets, it is loaded as the one-element set. *)
Lemma load_repeated_element E :
  set_order_ok E ->
  load E (set_mapping s_set [VInt 1; VInt 1]) = Ok (VSet [VInt 1]).
Proof.
  intros Hord. unfold load, StorageFormat.to_working_format, get. simpl.
  unfold set_of, build_set. simpl.
  pose proof (Hord [VInt 1]) as Hp.
  apply Permutation_sym, Permutation_length_1_inv in Hp.
  unfold set_add. simpl. now rewrite Hp.
Qed.

(** C1 as stated fails: [{"_type": "set", "_value": [1, 1]}] is a Storage
    document, and [store (load d)] is [{"_type": "set", "_value": [1]}]. *)
Lemma store_load_is_not_exact :
  ~ (exists E, set_order_ok E
       /\ forall d, storage_doc d = true ->
            exists w, load E d = Ok w /\ store w = d).
Proof.
  intros (E & Hord & H).
  destruct (H (set_mapping s_set [VInt 1; VInt 1]) eq_refl) as (w & Hw & Hs).
  rewrite (load_repeated_element E Hord) in Hw.
  injection Hw as <-. discriminate Hs.
Qed.

(** ** Loading what was stored *)

Lemma forallb_Permutation {A} (p : A -> bool) l l' :
  Permutation l l' -> forallb p l = forallb p l'.
Proof.
  induction 1; simpl; auto.
  - now rewrite IHPermutation.
  - now rewrite !andb_assoc, (andb_comm (p y)).
  - congruence.
Qed.

Lemma existsb_Permutation {A} (p : A -> bool) l l' :
  Permutation l l' -> existsb p l = existsb p l'.
Proof.
  induction 1; simpl; auto.
  - now rewrite IHPermutation.
  - now rewrite !orb_assoc, (orb_comm (p y)).
  - congruence.
Qed.

Lemma forallb_Forall2 {A B} (R : A -> B -> Prop) p q l l' :
  Forall2 R l l' ->
  (forall a b, In a l -> R a b -> p a = q b) ->
  forallb p l = forallb q l'.
Proof.
  induction 1 as [|a b l l' Hab _ IH]; simpl; intros Hpq; [reflexivity|].
  rewrite (Hpq a b), IH; auto.
Qed.

Lemma existsb_Forall2 {A B} (R : A -> B -> Prop) p q l l' :
  Forall2 R l l' ->
  (forall a b, In a l -> R a b -> p a = q b) ->
  existsb p l = existsb q l'.
Proof.
  induction 1 as [|a b l l' Hab _ IH]; simpl; intros Hpq; [reflexivity|].
  rewrite (Hpq a b), IH; auto.
Qed.

Lemma Forall2_refl {A} (R : A -> A -> Prop) l :
  (forall x, R x x) -> Forall2 R l l.
Proof. intros HR. induction l; constructor; auto. Qed.

(** What is equivalent to a leaf is the leaf. *)
Lemma working_equiv_leaf v v' :
  is_leaf v = true -> working_equiv v v' -> v' = v.
Proof.
  intros Hleaf H. inversion H; subst; try reflexivity; discriminate.
Qed.

Lemma working_equiv_frozenset l v' :
  working_equiv (VFrozenset l) v' ->
  exists l0 l', v' = VFrozenset l'
                /\ Forall2 working_equiv l l0 /\ Permutation l0 l'.
Proof.
  intros H. inversion H; subst.
  - exists l, l. repeat split; auto. apply Forall2_refl, we_same.
  - eauto.
Qed.

Section Hashables.
Variable E : pyenv.

Lemma plain_hashable_cases v :
  plain_hashable E v = true ->
  (is_leaf v = true /\ hashable E v = true)
  \/ exists l, v = VFrozenset l /\ forallb (plain_hashable E) l = true.
Proof.
  destruct v; simpl; intros H; try discriminate; eauto.
Qed.

Lemma plain_hashable_hashable v :
  plain_hashable E v = true -> hashable E v = true.
Proof.
  induction v as [| | | | | | |l IH|h d IH|l IH|l IH|c fs IH] using value_ind;
    simpl; auto; try discriminate.
  intros Hl. apply forallb_Forall. apply forallb_Forall in Hl.
  rewrite Forall_forall in *. auto.
Qed.

Lemma py_eq_leaf_frozenset v l :
  is_leaf v = true ->
  py_eq E v (VFrozenset l) = false /\ py_eq E (VFrozenset l) v = false.
Proof. destruct v; simpl; try discriminate; auto. Qed.

(** Equality does not see the iteration order of frozensets. *)
Lemma py_eq_equiv x : forall x' y y',
  plain_hashable E x = true -> plain_hashable E y = true ->
  working_equiv x x' -> working_equiv y y' ->
  py_eq E x' y' = py_eq E x y.
Proof.
  induction x as [|b|n|s|yr mo dy|lab|p|l IH|h d IH|la IH|la IH|c fs IH] using value_ind;
    intros x' y y' Hx Hy Hxx Hyy; try discriminate;
    try (apply working_equiv_leaf in Hxx; [subst x'|reflexivity];
         destruct (plain_hashable_cases _ Hy) as [[Hleaf _] | (lb & -> & _)];
         [ apply working_equiv_leaf in Hyy; [now subst y'|assumption]
         | apply working_equiv_frozenset in Hyy as (lb0 & lb' & -> & _ & _);
           reflexivity ]).
  apply working_equiv_frozenset in Hxx as (la0 & la' & -> & Hla & Hpa).
  destruct (plain_hashable_cases _ Hy) as [[Hleaf _] | (lb & -> & Hlb)].
  - apply working_equiv_leaf in Hyy; [subst y'|assumption].
    destruct (py_eq_leaf_frozenset y la Hleaf) as [_ ->].
    now destruct (py_eq_leaf_frozenset y la' Hleaf) as [_ ->].
  - apply working_equiv_frozenset in Hyy as (lb0 & lb' & -> & Hlb0 & Hpb).
    simpl in Hx. simpl.
    rewrite <- (Permutation_length Hpa), <- (Permutation_length Hpb).
    rewrite <- (Forall2_length Hla), <- (Forall2_length Hlb0). f_equal.
    rewrite <- (forallb_Permutation _ _ _ Hpa). symmetry.
    apply forallb_Forall2 with (R := working_equiv); [assumption|].
    intros a a0 Ha Haa.
    rewrite <- (existsb_Permutation _ _ _ Hpb).
    apply existsb_Forall2 with (R := working_equiv); [assumption|].
    intros b b0 Hb Hbb. symmetry.
    rewrite Forall_forall in IH. apply IH; auto.
    + rewrite forallb_forall in Hx. auto.
    + rewrite forallb_forall in Hlb. auto.
Qed.

Lemma plain_hashable_equiv x : forall x',
  plain_hashable E x = true -> working_equiv x x' ->
  plain_hashable E x' = true.
Proof.
  induction x as [|b|n|s|yr mo dy|lab|p|l IH|h d IH|la IH|la IH|c fs IH] using value_ind;
    intros x' Hx Hxx; try discriminate;
    try (apply working_equiv_leaf in Hxx; [now subst x'|reflexivity]).
  apply working_equiv_frozenset in Hxx as (la0 & la' & -> & Hla & Hpa).
  simpl in *. rewrite <- (forallb_Permutation _ _ _ Hpa).
  rewrite <- Hx. symmetry.
  apply forallb_Forall2 with (R := working_equiv); [assumption|].
  intros a a0 Ha Haa. rewrite Forall_forall in IH.
  rewrite forallb_forall in Hx. rewrite (Hx a Ha). symmetry. apply (IH a); auto.
Qed.

Lemma same_elem_equiv x x' y y' :
  plain_hashable E x = true -> plain_hashable E y = true ->
  working_equiv x x' -> working_equiv y y' ->
  same_elem E x' y' = same_elem E x y.
Proof.
  intros Hx Hy Hxx Hyy. unfold same_elem.
  rewrite (py_eq_equiv x x' y y') by assumption. f_equal.
  destruct (plain_hashable_cases _ Hx) as [[Hleaf _] | (la & -> & _)].
  - apply working_equiv_leaf in Hxx; [subst x'|assumption].
    destruct (plain_hashable_cases _ Hy) as [[Hleaf' _] | (lb & -> & _)].
    + apply working_equiv_leaf in Hyy; [now subst y'|assumption].
    + apply working_equiv_frozenset in Hyy as (lb0 & lb' & -> & _ & _).
      now destruct x.
  - apply working_equiv_frozenset in Hxx as (la0 & la' & -> & _ & _).
    reflexivity.
Qed.

Lemma distinct_after_equiv l : forall l' seen seen',
  Forall2 working_equiv l l' -> Forall2 working_equiv seen seen' ->
  forallb (plain_hashable E) l = true ->
  forallb (plain_hashable E) seen = true ->
  distinct_after E seen' l' = distinct_after E seen l.
Proof.
  induction l as [|x l IH]; intros l' seen seen' Hl Hseen Hpl Hps;
    inversion Hl as [|? x' ? l0 Hxx Hl0]; subst; simpl; [reflexivity|].
  simpl in Hpl. apply andb_true_iff in Hpl as [Hpx Hpl].
  f_equal.
  - f_equal. symmetry.
    apply existsb_Forall2 with (R := working_equiv); [assumption|].
    intros a b Ha Hab. symmetry. apply same_elem_equiv; auto.
    rewrite forallb_forall in Hps. auto.
  - apply IH; auto.
    + apply Forall2_app; [assumption | now constructor].
    + rewrite forallb_app, Hps. simpl. now rewrite Hpx.
Qed.

End Hashables.

(** A key without the full-width dot is escaped and restored to itself. *)
Lemma working_key_round_trip k :
  working_key k = true ->
  StorageFormat.restore_key (WorkingFormat.map_key k) = Ok k.
Proof.
  destruct k as [s| | | | |]; simpl; try discriminate.
  intros Hs%negb_true_iff.
  change (StorageFormat.restore_key (WorkingFormat.map_key (KStr s)) = Ok (KStr s)).
  rewrite map_key_str. simpl. now rewrite replace_inverse.
Qed.

Lemma map_key_injective k k' :
  working_key k = true -> working_key k' = true ->
  WorkingFormat.map_key k = WorkingFormat.map_key k' -> k = k'.
Proof.
  intros Hk Hk' Heq.
  apply working_key_round_trip in Hk, Hk'. rewrite Heq in Hk. congruence.
Qed.

Lemma map_key_NoDup ks :
  Forall (fun k => working_key k = true) ks -> NoDup ks ->
  NoDup (List.map WorkingFormat.map_key ks).
Proof.
  induction 1 as [|k ks Hk Hks IH]; simpl; intros Hnd; [constructor|].
  inversion Hnd as [|? ? Hnotin Hnd']; subst. constructor; auto.
  intros (k' & Heq & Hin)%in_map_iff. apply Hnotin.
  rewrite Forall_forall in Hks.
  now rewrite (map_key_injective k k' Hk (Hks _ Hin) (eq_sym Heq)).
Qed.

Lemma str_is_stored t v :
  str_is t (WorkingFormat.to_storage_format_walk v) = str_is t v.
Proof. destruct v; reflexivity. Qed.

(** Looking an escaped key up in the stored items. *)
Lemma dict_get_stored k d :
  working_key k = true ->
  Forall (fun kv => working_key (fst kv) = true) d ->
  dict_get (WorkingFormat.map_key k)
    (List.map (fun kv => (WorkingFormat.map_key (fst kv),
                          WorkingFormat.to_storage_format_walk (snd kv))) d)
  = option_map WorkingFormat.to_storage_format_walk (dict_get k d).
Proof.
  intros Hk. induction 1 as [|[k' v'] d Hk' _ IH]; simpl; [reflexivity|].
  simpl in Hk'. rewrite IH.
  destruct (key_eqb k' k) eqn:Heq.
  - apply key_eqb_eq in Heq. subst. now rewrite key_eqb_refl.
  - replace (key_eqb (WorkingFormat.map_key k') (WorkingFormat.map_key k))
      with false; [reflexivity|].
    symmetry. apply key_eqb_neq. intros Hm. apply key_eqb_neq in Heq.
    apply Heq. now apply map_key_injective.
Qed.

Lemma Forall2_map_left {A B C} (R : B -> C -> Prop) (f : A -> B) l l' :
  Forall2 (fun x y => R (f x) y) l l' -> Forall2 R (List.map f l) l'.
Proof. induction 1; simpl; constructor; auto. Qed.

Section LoadStore.
Variable E : pyenv.
Hypothesis Hord : set_order_ok E.

Local Abbreviation walk := (StorageFormat.to_working_format_walk E).
Local Abbreviation back := WorkingFormat.to_storage_format_walk.

Local Abbreviation reloaded := (reloads E).

Lemma reloaded_list l :
  Forall reloaded l -> forallb (working_doc E) l = true ->
  exists ws, Forall2 (fun x w => walk (back x) = Ok w /\ working_equiv x w) l ws.
Proof.
  induction 1 as [|x l Hx _ IH]; simpl; intros Hl.
  - exists []. constructor.
  - apply andb_true_iff in Hl as [Hl1 Hl2].
    destruct (Hx Hl1) as (w & Hw & Heq). destruct (IH Hl2) as (ws & Hws).
    exists (w :: ws). constructor; auto.
Qed.

Lemma reloaded_list_run l ws :
  Forall2 (fun x w => walk (back x) = Ok w /\ working_equiv x w) l ws ->
  map_result walk (List.map back l) = Ok ws /\ Forall2 working_equiv l ws.
Proof.
  intros H. split.
  - apply map_result_ok. apply Forall2_map_left.
    eapply Forall2_impl; [|exact H]. now intros ? ? [? ?].
  - eapply Forall2_impl; [|exact H]. now intros ? ? [? ?].
Qed.

Lemma reloaded_items d :
  Forall (fun kv => reloaded (snd kv)) d ->
  forallb (fun kv => working_key (fst kv) && working_doc E (snd kv)) d = true ->
  exists d',
    Forall2 (fun kv kv' =>
               fst kv = fst kv'
               /\ walk (back (snd kv)) = Ok (snd kv')
               /\ working_equiv (snd kv) (snd kv')) d d'.
Proof.
  induction 1 as [|[k v] d Hx _ IH]; simpl; intros Hl.
  - exists []. constructor.
  - apply andb_true_iff in Hl as [Hl1 Hl2].
    apply andb_true_iff in Hl1 as [Hk Hv].
    destruct (Hx Hv) as (w & Hw & Heq). destruct (IH Hl2) as (d' & Hd').
    exists ((k, w) :: d'). constructor; auto.
Qed.

(** Building the set of the reloaded elements keeps all of them. *)
Lemma reloaded_set l ws :
  Forall2 working_equiv l ws ->
  forallb (plain_hashable E) l = true -> distinct E l = true ->
  build_set E ws = Ok (set_order E ws).
Proof.
  intros Hl Hp Hd. apply build_set_distinct.
  - apply forallb_Forall. apply forallb_Forall in Hp.
    clear Hd. induction Hl as [|x w l ws Hxw _ IH]; constructor;
      inversion Hp; subst; auto.
    apply plain_hashable_hashable. now apply plain_hashable_equiv with x.
  - unfold distinct in *.
    rewrite (distinct_after_equiv E l ws [] []); auto.
Qed.

Lemma load_store_equiv w : reloaded w.
Proof.
  induction w as [|b|n|s|yr mo dy|lab|p|l IH|h d IH|l IH|l IH|c fs IH] using value_ind;
    unfold reloads; simpl; intros Hw;
    try (eexists; split; [reflexivity | apply we_same]).
  - (* lists *)
    destruct (reloaded_list l IH Hw) as (ws & Hws).
    apply reloaded_list_run in Hws as [Hrun Heq].
    exists (VList ws). rewrite Hrun. split; [reflexivity | now apply we_list].
  - (* mappings *)
    apply andb_true_iff in Hw as [Hw Htag].
    apply andb_true_iff in Hw as [Hitems Hnd].
    apply negb_true_iff in Htag. apply nodupb_NoDup in Hnd.
    assert (Hkeys : Forall (fun kv => working_key (fst kv) = true) d).
    { apply forallb_Forall in Hitems. eapply Forall_impl; [|exact Hitems].
      now intros [k v] [? ?]%andb_true_iff. }
    destruct (reloaded_items d IH Hitems) as (d' & Hd').
    rewrite rebuild_total_pointwise; cycle 1.
    { apply map_key_NoDup; [|assumption].
      unfold dict_keys. now apply Forall_map. }
    { reflexivity. }
    simpl.
    set (ds := List.map (fun kv => (WorkingFormat.map_key (fst kv), back (snd kv))) d).
    assert (Hget : forall t, tag_is t ds = tag_is t d).
    { intros t. unfold tag_is, ds.
      change (KStr s_type) with (WorkingFormat.map_key (KStr s_type)) at 1.
      rewrite dict_get_stored by (auto; reflexivity).
      destruct (dict_get (KStr s_type) d); simpl; [apply str_is_stored | reflexivity]. }
    destruct (tag_in_sets_none _ Htag) as [Hset Hfs].
    rewrite !Hget, Hset, Hfs.
    assert (Hd'keys : dict_keys d' = dict_keys d).
    { clear -Hd'. induction Hd' as [|[k v] [k' v'] d d' [Hk _] _ IHd]; simpl;
        [reflexivity|]. simpl in Hk. now rewrite IHd, Hk. }
    rewrite (rebuild_pointwise _ _ ds d'); cycle 1.
    { unfold ds. apply Forall2_map_left.
      rewrite Forall_forall in Hkeys.
      clear -Hd' Hkeys.
      induction Hd' as [|[k v] [k' v'] d d' (Hk & Hv & _) _ IHd]; constructor.
      - simpl in *. subst k'. split; [|assumption].
        apply working_key_round_trip. apply (Hkeys (k, v)). now left.
      - apply IHd. intros kv Hin. apply Hkeys. now right. }
    { now rewrite Hd'keys. }
    { reflexivity. }
    exists (VDict false d'). split; [reflexivity|].
    apply we_dict. eapply Forall2_impl; [|exact Hd']. now intros ? ? (? & ? & ?).
  - (* sets *)
    apply andb_true_iff in Hw as [Hw Hdist].
    apply andb_true_iff in Hw as [Hdocs Hplain].
    destruct (reloaded_list l IH Hdocs) as (ws & Hws).
    apply reloaded_list_run in Hws as [Hrun Heq].
    change (tag_is s_set [(KStr s_type, VStr s_set);
                          (KStr s_value, VList (List.map back l))]) with true.
    cbv iota.
    change (getitem_with walk (KStr s_value)
              [(KStr s_type, VStr s_set); (KStr s_value, VList (List.map back l))])
      with (walk (VList (List.map back l))).
    simpl. rewrite Hrun. simpl. unfold set_of. simpl.
    rewrite (reloaded_set l ws Heq Hplain Hdist). simpl.
    eexists. split; [reflexivity|].
    apply we_set with ws; [assumption|]. symmetry. apply Hord.
  - (* frozensets *)
    apply andb_true_iff in Hw as [Hw Hdist].
    apply andb_true_iff in Hw as [Hdocs Hplain].
    destruct (reloaded_list l IH Hdocs) as (ws & Hws).
    apply reloaded_list_run in Hws as [Hrun Heq].
    change (tag_is s_set [(KStr s_type, VStr s_frozenset);
                          (KStr s_value, VList (List.map back l))]) with false.
    change (tag_is s_frozenset [(KStr s_type, VStr s_frozenset);
                                (KStr s_value, VList (List.map back l))]) with true.
    cbv iota.
    change (getitem_with walk (KStr s_value)
              [(KStr s_type, VStr s_frozenset);
               (KStr s_value, VList (List.map back l))])
      with (walk (VList (List.map back l))).
    simpl. rewrite Hrun. simpl. unfold frozenset_of. simpl.
    rewrite (reloaded_set l ws Heq Hplain Hdist). simpl.
    eexists. split; [reflexivity|].
    apply we_frozenset with ws; [assumption|]. symmetry. apply Hord.
Qed.

End LoadStore.

(** C2, as the code has it.  For a Working document whose mappings are
    not tagged "set" or "frozenset" and have string keys without the
    full-width dot, and whose sets and frozensets hold hashable leaves and
    frozensets of such, [load (store w)] succeeds and is [w] up to the
    iteration order of sets and frozensets: keys, dotted or not, come back
    verbatim, and every set comes back as a set of the same elements. *)
Theorem load_store_up_to_set_order (E : pyenv) (w : value) :
  set_order_ok E ->
  working_doc E w = true ->
  exists w', load E (store w) = Ok w' /\ working_equiv w w'.
Proof.
  intros Hord Hdoc.
  destruct (load_store_equiv E Hord w Hdoc) as (w' & Hw' & Heq).
  exists w'. unfold load, store, get, StorageFormat.to_working_format,
    WorkingFormat.to_storage_format.
  now rewrite Hw'.
Qed.

(** [{"a.b": {1, 2}, "p": {"_type": "Path", "_value": "/x/y"}}] *)
Lemma load_store_up_to_set_order_witness :
  exists w',
    load Sample.env
      (store (VDict false
                [(KStr (lit "a.b"), VSet [VInt 1; VInt 2]);
                 (KStr (lit "p"),
                   VDict false [(KStr s_type, VStr s_Path);
                                (KStr s_value, VStr (lit "/x/y"))])])) = Ok w'
    /\ working_equiv
         (VDict false
            [(KStr (lit "a.b"), VSet [VInt 1; VInt 2]);
             (KStr (lit "p"),
               VDict false [(KStr s_type, VStr s_Path);
                            (KStr s_value, VStr (lit "/x/y"))])])
         w'.
Proof.
  apply (load_store_up_to_set_order Sample.env _ sample_set_order_ok).
  reflexivity.
Defined.

(** C2 as stated fails: the key "a.b．c" of the Working document
    [{"a.b．c": 1}] contains a literal "." and comes back as "a.b.c". *)
Lemma load_store_changes_keys :
  ~ (exists E, set_order_ok E
       /\ forall w, document_shaped E w = true ->
            exists w', load E (store w) = Ok w' /\ working_equiv w w').
Proof.
  intros (E & _ & H).
  destruct (H (VDict false [(KStr [97; 46; 98; 65294; 99]%N, VInt 1)]) eq_refl)
    as (w' & Hw' & Heq).
  change (Ok (VDict false [(KStr (lit "a.b.c"), VInt 1)]) = Ok w') in Hw'.
  injection Hw' as <-.
  inversion Heq as [| |? ? ? ? Hd| |]; subst.
  inversion Hd as [|? ? ? ? [Hk _] _]; subst. discriminate Hk.
Qed.

(** A set holding a hash-carrying mapping is stored, but what was stored
    does not load: the mapping comes back as a plain [dict], which cannot
    be put into a set. *)
Lemma stored_hashdict_set_does_not_load (E : pyenv) (p : pystr) :
  load E (store (VSet [path_mapping E p])) = Raise TypeError.
Proof. reflexivity. Qed.

(** ** Domain objects through the Raw format and back *)

Lemma map_Ok_injective {A} (l l' : list A) :
  List.map (@Ok A) l = List.map (@Ok A) l' -> l = l'.
Proof.
  revert l'. induction l as [|x l IH]; intros [|y l']; simpl; try discriminate; auto.
  intros [= -> H]. f_equal. auto.
Qed.

Lemma Forall2_image {A B} (g : A -> result B) l m :
  Forall2 (fun a b => g a = Ok b) l m -> List.map g l = List.map (@Ok B) m.
Proof. induction 1; simpl; congruence. Qed.

(** The images of two permuted lists are permuted. *)
Lemma image_Permutation {A B} (g : A -> result B) l1 l2 m1 m2 :
  Permutation l1 l2 ->
  Forall2 (fun a b => g a = Ok b) l1 m1 ->
  Forall2 (fun a b => g a = Ok b) l2 m2 ->
  Permutation m1 m2.
Proof.
  intros Hp H1%Forall2_image H2%Forall2_image.
  apply (Permutation_map g) in Hp. rewrite H1, H2 in Hp.
  symmetry in Hp. apply Permutation_map_inv in Hp as (l3 & Heq & Hp).
  apply map_Ok_injective in Heq. subst. now symmetry.
Qed.

Lemma set_elements_distinct E l :
  distinct E l = true -> set_elements E l = set_order E l.
Proof.
  intros Hd. unfold set_elements. now rewrite (fold_set_add_distinct E l []).
Qed.

Lemma key_type_not_hash : key_eqb (KStr s_type) (KStr s_hash) = false.
Proof. reflexivity. Qed.

Lemma All_Forall {A} (P : A -> Prop) l : All P l <-> Forall P l.
Proof.
  induction l as [|x l IH]; simpl.
  - split; constructor.
  - rewrite IH. split; [intros [? ?]; now constructor | intros H; now inversion H].
Qed.

Section ObjectRoundTrip.
Variable E : pyenv.
Variable reg : registry.
Hypothesis Hord : set_order_ok E.

Local Abbreviation enc := (ObjFormat.to_raw_format_walk E).
Local Abbreviation dec := (RawFormat.to_obj_format_walk E reg).

Local Abbreviation recovered := (recovers E reg).

Lemma recovered_list l :
  Forall recovered l ->
  forallb (obj_shape E reg) l = true ->
  forallb (sets_survive E reg) l = true ->
  All (decodes_back E) l ->
  exists rs xs,
    Forall2 (fun x r => enc x = Ok r) l rs
    /\ Forall2 (fun r x' => dec r = Ok x') rs xs
    /\ Forall2 (obj_equiv E) l xs.
Proof.
  induction 1 as [|x l Hx _ IH]; simpl; intros Hs Hv Hc.
  - exists [], []. repeat split; constructor.
  - apply andb_true_iff in Hs as [Hs1 Hs2].
    apply andb_true_iff in Hv as [Hv1 Hv2]. destruct Hc as [Hc1 Hc2].
    destruct (Hx Hs1 Hv1 Hc1) as (r & x' & Hr & Hx' & Heq).
    destruct (IH Hs2 Hv2 Hc2) as (rs & xs & Hrs & Hxs & Heqs).
    exists (r :: rs), (x' :: xs). repeat split; constructor; auto.
Qed.

Lemma recovered_items d :
  Forall (fun kv => recovered (snd kv)) d ->
  forallb (fun kv => obj_shape E reg (snd kv)) d = true ->
  forallb (fun kv => sets_survive E reg (snd kv)) d = true ->
  All (fun kv => decodes_back E (snd kv)) d ->
  exists rs xs,
    map_items enc d = Ok rs /\ map_items dec rs = Ok xs /\ fields_equiv E d xs.
Proof.
  induction 1 as [|[k v] d Hx _ IH]; simpl; intros Hs Hv Hc.
  - exists [], []. repeat split; constructor.
  - apply andb_true_iff in Hs as [Hs1 Hs2].
    apply andb_true_iff in Hv as [Hv1 Hv2]. destruct Hc as [Hc1 Hc2].
    destruct (Hx Hs1 Hv1 Hc1) as (r & x' & Hr & Hx' & Heq).
    destruct (IH Hs2 Hv2 Hc2) as (rs & xs & Hrs & Hxs & Heqs).
    exists ((k, r) :: rs), ((k, x') :: xs). cbn [snd] in *.
    simpl. rewrite Hr, Hrs. simpl. rewrite Hx', Hxs.
    repeat split. constructor; auto.
Qed.

(** A set whose elements survive both conversions comes back with
    equivalent elements. *)
Lemma recovered_elements l :
  Forall recovered l ->
  forallb (obj_shape E reg) l = true ->
  forallb (sets_survive E reg) l = true ->
  All (decodes_back E) l ->
  elements_survive E reg l = true ->
  exists s1 s2 l0,
    set_of_map E enc l = Ok s1 /\ set_of_map E dec s1 = Ok s2
    /\ Forall2 (obj_equiv E) l l0 /\ Permutation l0 s2.
Proof.
  intros IH Hs Hv Hc Hsurv.
  destruct (recovered_list l IH Hs Hv Hc) as (rs & xs & Hrs & Hxs & Heq).
  unfold elements_survive in Hsurv.
  assert (Hrun : map_result enc l = Ok rs) by now apply map_result_ok.
  rewrite Hrun in Hsurv.
  apply andb_true_iff in Hsurv as [Hsurv Hdec].
  apply andb_true_iff in Hsurv as [Hhash Hdist].
  destruct (map_result dec (set_order E rs)) as [ys|] eqn:Hys; [|discriminate].
  apply andb_true_iff in Hdec as [Hhash' Hdist'].
  apply map_result_ok in Hys.
  exists (set_order E rs), (set_order E ys), xs. repeat split.
  - rewrite <- (set_elements_distinct E rs Hdist).
    apply set_of_map_ok. eauto.
  - rewrite <- (set_elements_distinct E ys Hdist').
    apply set_of_map_ok. eauto.
  - assumption.
  - transitivity ys; [|symmetry; apply Hord].
    apply (image_Permutation dec rs (set_order E rs)); auto.
    symmetry. apply Hord.
Qed.

Lemma to_obj_leaf v : is_leaf v = true -> dec v = Ok v.
Proof. destruct v; simpl; try discriminate; reflexivity. Qed.

(** Decoding the mapping emitted for a domain object with encoded
    fields [rs], once these are decoded into [xs]. *)
Lemma decode_emitted c fs rs xs :
  registered E reg c = true ->
  dict_contains (KStr s_hash) xs = false ->
  map_items dec rs = Ok xs ->
  dec (match obj_hash E c fs with
       | Some h =>
           VDict true ((KStr s_type, VStr (cls_name E c))
                         :: (KStr s_hash, VInt h) :: rs)
       | None => VDict false ((KStr s_type, VStr (cls_name E c)) :: rs)
       end)
  = from_dict E c xs.
Proof.
  intros Hreg Hno Hxs. unfold registered in Hreg.
  destruct (dict_get (KStr (cls_name E c)) reg) as [c'|] eqn:Hget; [|discriminate].
  apply Nat.eqb_eq in Hreg. subst c'.
  assert (Hin : dict_contains (KStr (cls_name E c)) reg = true)
    by (apply dict_contains_get; eauto).
  destruct (obj_hash E c fs) as [h|]; simpl; rewrite Hxs; simpl;
    unfold RawFormat.resolve; simpl.
  - now rewrite Hin, Hget.
  - rewrite Hin, Hget. simpl. now rewrite Hno.
Qed.

Lemma round_trip_equiv d : recovered d.
Proof.
  induction d as [|b|n|s|yr mo dy|lab|p|l IH|h d IH|l IH|l IH|c fs IH] using value_ind;
    unfold recovers; intros Hs Hv Hc;
    try (match goal with
         | |- exists r d', ObjFormat.to_raw_format_walk _ ?v = _ /\ _ =>
             exists v, v; split;
               [reflexivity | split; [reflexivity | now apply oe_leaf]]
         end).
  - (* lists *)
    simpl in Hs, Hv, Hc.
    destruct (recovered_list l IH Hs Hv Hc) as (rs & xs & Hrs & Hxs & Heq).
    apply map_result_ok in Hrs, Hxs.
    exists (VList rs), (VList xs). simpl. rewrite Hrs. simpl. rewrite Hxs.
    repeat split. now apply oe_list.
  - (* mappings *)
    simpl in Hs, Hv, Hc. apply andb_true_iff in Hs as [Htag Hs].
    destruct (recovered_items d IH Hs Hv Hc) as (rs & xs & Hrs & Hxs & Heq).
    exists (VDict false rs), (VDict false xs). simpl. rewrite Hrs. simpl.
    rewrite Hxs. simpl. repeat split; [|now apply oe_dict].
    apply resolve_unknown. unfold tag_unknown in *.
    pose proof (map_items_get _ _ _ (KStr s_type) Hrs) as Hget1.
    pose proof (map_items_get _ _ _ (KStr s_type) Hxs) as Hget2.
    destruct (dict_get (KStr s_type) d) as [[]|]; try discriminate.
    + destruct Hget1 as (v1 & Hv1 & Hrun1). simpl in Hrun1. injection Hrun1 as <-.
      rewrite Hv1 in Hget2. destruct Hget2 as (v2 & -> & Hrun2).
      simpl in Hrun2. now injection Hrun2 as <-.
    + rewrite Hget1 in Hget2. now rewrite Hget2.
  - (* sets *)
    simpl in Hs, Hv, Hc. apply andb_true_iff in Hv as [Hv Hsurv].
    destruct (recovered_elements l IH Hs Hv Hc Hsurv)
      as (s1 & s2 & l0 & Hs1 & Hs2 & Heq & Hperm).
    exists (VSet s1), (VSet s2). simpl. rewrite Hs1. simpl. rewrite Hs2.
    repeat split. now apply oe_set with l0.
  - (* frozensets *)
    simpl in Hs, Hv, Hc. apply andb_true_iff in Hv as [Hv Hsurv].
    destruct (recovered_elements l IH Hs Hv Hc Hsurv)
      as (s1 & s2 & l0 & Hs1 & Hs2 & Heq & Hperm).
    exists (VFrozenset s1), (VFrozenset s2). simpl. rewrite Hs1. simpl. rewrite Hs2.
    repeat split. now apply oe_frozenset with l0.
  - (* domain objects *)
    simpl in Hs, Hv. destruct Hc as [Hcontract Hc].
    apply andb_true_iff in Hs as [Hs Hfields].
    apply andb_true_iff in Hs as [Hs Hres].
    apply andb_true_iff in Hs as [Hreg Hnd].
    apply nodupb_NoDup in Hnd.
    apply andb_true_iff in Hres as [Hnotype Hnohash].
    apply negb_true_iff in Hnotype, Hnohash.
    destruct (recovered_items fs IH Hfields Hv Hc) as (rs & xs & Hrs & Hxs & Heq).
    destruct (Hcontract xs Heq) as (c' & fs'' & Hdec & Hobj).
    eexists. exists (VObj c' fs''). split; [|split].
    + apply (to_raw_object E c fs rs); assumption.
    + rewrite (decode_emitted c fs rs xs); auto.
      apply dict_contains_false.
      pose proof (map_items_get _ _ _ (KStr s_hash) Hrs) as Hget1.
      pose proof (map_items_get _ _ _ (KStr s_hash) Hxs) as Hget2.
      apply dict_contains_false in Hnohash. rewrite Hnohash in Hget1.
      now rewrite Hget1 in Hget2.
    + now apply oe_obj.
Qed.

End ObjectRoundTrip.
(** ** The sets of an Object document keep their elements *)

Lemma collide_sym E x y : collide E x y = collide E y x.
Proof.
  destruct x, y; simpl; try reflexivity; try apply orb_comm.
  destruct (obj_hash E cls fields), (obj_hash E cls0 fields0); try reflexivity.
  apply Z.eqb_sym.
Qed.

Lemma separated_pairs E l :
  separated E l = true <-> ForallOrdPairs (fun x y => collide E x y = false) l.
Proof.
  induction l as [|x l IH]; simpl.
  - split; [constructor | reflexivity].
  - rewrite andb_true_iff, IH, forallb_forall. split.
    + intros [Hx Hl]. constructor; [|assumption].
      apply Forall_forall. intros y Hy. apply negb_true_iff. auto.
    + intros H. inversion H as [|? ? Hx Hl]; subst. split; [|assumption].
      rewrite Forall_forall in Hx. intros y Hy. apply negb_true_iff. auto.
Qed.

Lemma pairs_Permutation {A} (R : A -> A -> Prop) l l' :
  (forall x y, R x y -> R y x) ->
  Permutation l l' -> ForallOrdPairs R l -> ForallOrdPairs R l'.
Proof.
  intros Hsym. induction 1 as [|x l l' Hp IH|x y l|l l' l'' _ IH1 _ IH2]; intros H.
  - constructor.
  - inversion H as [|? ? Hx Hl]; subst. constructor; [|auto].
    rewrite Forall_forall in *. intros z Hz. apply Hx.
    now apply (Permutation_in _ (Permutation_sym Hp)).
  - inversion H as [|? ? Hy Hl]; subst.
    inversion Hl as [|? ? Hx Hl']; subst.
    inversion Hy as [|? ? Hyx Hy']; subst.
    constructor; [constructor; auto|]. constructor; auto.
  - auto.
Qed.

Lemma pairs_Forall2 {A B} (T : A -> B -> Prop) (R : A -> A -> Prop)
    (R' : B -> B -> Prop) l l' :
  (forall a b a' b', T a a' -> T b b' -> R a b -> R' a' b') ->
  Forall2 T l l' -> ForallOrdPairs R l -> ForallOrdPairs R' l'.
Proof.
  intros HT. induction 1 as [|a a' l l' Ha Hl IH]; intros H.
  - constructor.
  - inversion H as [|? ? Hx Hr]; subst. constructor; [|auto].
    clear IH H Hr. induction Hl as [|b b' l l' Hb _ IHl]; constructor.
    + inversion Hx; subst. eauto.
    + inversion Hx; subst. auto.
Qed.

Lemma distinct_after_pairs E l : forall seen,
  Forall (fun x => Forall (fun y => same_elem E y x = false) seen) l ->
  ForallOrdPairs (fun y x => same_elem E y x = false) l ->
  distinct_after E seen l = true.
Proof.
  induction l as [|x l IH]; simpl; intros seen Hseen Hl; [reflexivity|].
  inversion Hseen as [|? ? Hx Hrest]; subst.
  inversion Hl as [|? ? Hxl Hl']; subst.
  apply andb_true_iff. split.
  - apply negb_true_iff. apply not_true_is_false. intros Hex.
    apply existsb_exists in Hex as (y & Hy & Hyx).
    rewrite Forall_forall in Hx. rewrite (Hx y Hy) in Hyx. discriminate.
  - apply IH; [|assumption].
    rewrite Forall_forall in *. intros z Hz.
    apply Forall_app. split; [now apply Hrest|].
    constructor; [now apply Hxl | constructor].
Qed.

Lemma distinct_pairs E l :
  ForallOrdPairs (fun y x => same_elem E y x = false) l -> distinct E l = true.
Proof.
  intros H. apply distinct_after_pairs; [|assumption].
  apply Forall_forall. intros x _. constructor.
Qed.

(** An element of a set and what it is encoded as. *)
Lemma enc_member E reg x r :
  set_member E x = true -> obj_shape E reg x = true ->
  ObjFormat.to_raw_format_walk E x = Ok r ->
  encoded_member E x r /\ hashable E r = true.
Proof.
  intros Hm Hs Hr.
  destruct x; simpl in Hm; try discriminate;
    try (simpl in Hr; injection Hr as <-; split; reflexivity).
  destruct (obj_hash E cls fields) as [h|] eqn:Hh; [|discriminate].
  simpl in Hs.
  apply andb_true_iff in Hs as [Hs _]. apply andb_true_iff in Hs as [Hs Hres].
  apply andb_true_iff in Hs as [_ Hnd]. apply nodupb_NoDup in Hnd.
  apply andb_true_iff in Hres as [Hnotype Hnohash].
  apply negb_true_iff in Hnotype, Hnohash.
  destruct (map_items (ObjFormat.to_raw_format_walk E) fields) as [fs'|e] eqn:Hfs.
  - rewrite (to_raw_object E cls fields fs' Hnd Hnotype Hnohash Hfs), Hh in Hr.
    injection Hr as <-. split.
    + simpl. exists h. eexists. split; [exact Hh|]. split; [reflexivity|].
      reflexivity.
    + reflexivity.
  - exfalso. simpl in Hr. rewrite Hfs, Hh in Hr. simpl in Hr.
    destruct e; discriminate.
Qed.

Lemma dec_member E x x' :
  hash_respects_eq E ->
  set_member E x = true -> obj_equiv E x x' ->
  decoded_member E x x' /\ hashable E x' = true.
Proof.
  intros Hhash Hm Heq.
  destruct x; simpl in Hm; try discriminate;
    try (inversion Heq; subst; split; reflexivity).
  destruct (obj_hash E cls fields) as [h|] eqn:Hh; [|discriminate].
  inversion Heq as [v Hleaf| c fs c' fs' Hobj| | | |]; subst; [discriminate|].
  pose proof (Hhash _ _ _ _ Hobj) as Hsame. split.
  - simpl. exists c', fs'. split; [reflexivity | exact Hsame].
  - simpl. now rewrite Hsame, Hh.
Qed.

Lemma py_eq_leaf_dict E x h d :
  is_plain_leaf x = true ->
  py_eq E x (VDict h d) = false /\ py_eq E (VDict h d) x = false.
Proof. destruct x; try discriminate; intros _; split; reflexivity. Qed.

Lemma py_eq_leaf_obj E x c fs :
  is_plain_leaf x = true ->
  py_eq E x (VObj c fs) = false /\ py_eq E (VObj c fs) x = false.
Proof. destruct x; try discriminate; intros _; split; reflexivity. Qed.

Lemma same_elem_leaf E x y :
  is_plain_leaf x = true -> is_plain_leaf y = true ->
  same_elem E x y = py_eq E x y.
Proof.
  intros Hx Hy. unfold same_elem.
  destruct x; try discriminate; destruct y; try discriminate;
    apply andb_true_r.
Qed.

Lemma hashdicts_apart E d1 d2 h1 h2 :
  dict_get (KStr s_hash) d1 = Some (VInt h1) ->
  dict_get (KStr s_hash) d2 = Some (VInt h2) ->
  Z.eqb h1 h2 = false ->
  same_elem E (VDict true d1) (VDict true d2) = false.
Proof.
  intros H1 H2 Hne. unfold same_elem. rewrite andb_true_r. simpl.
  apply andb_false_iff. right.
  apply not_true_is_false. intros Hall. rewrite forallb_forall in Hall.
  apply dict_get_in in H1. specialize (Hall _ H1). simpl in Hall.
  rewrite H2 in Hall. simpl in Hall. congruence.
Qed.

Lemma member_cases E x :
  set_member E x = true ->
  is_plain_leaf x = true
  \/ exists c fs h, x = VObj c fs /\ obj_hash E c fs = Some h.
Proof.
  destruct x; simpl; try discriminate; auto.
  destruct (obj_hash E cls fields) as [h|] eqn:Hh; [|discriminate].
  intros _. right. eauto.
Qed.

Lemma encoded_leaf E x r :
  is_plain_leaf x = true -> encoded_member E x r -> r = x.
Proof. destruct x; try discriminate; auto. Qed.

Lemma decoded_leaf E x x' :
  is_plain_leaf x = true -> decoded_member E x x' -> x' = x.
Proof. destruct x; try discriminate; auto. Qed.

Lemma collide_leaf E x y :
  is_plain_leaf x = true -> is_plain_leaf y = true ->
  collide E x y = py_eq E x y || py_eq E y x.
Proof.
  destruct x; try discriminate; destruct y; try discriminate; reflexivity.
Qed.

Lemma same_elem_false_l E x y : py_eq E x y = false -> same_elem E x y = false.
Proof. unfold same_elem. now intros ->. Qed.

Lemma enc_apart E x1 x2 r1 r2 :
  set_member E x1 = true -> set_member E x2 = true ->
  encoded_member E x1 r1 -> encoded_member E x2 r2 ->
  collide E x1 x2 = false -> same_elem E r1 r2 = false.
Proof.
  intros [Hl1 | (c1 & fs1 & h1 & -> & Hh1)]%member_cases
         [Hl2 | (c2 & fs2 & h2 & -> & Hh2)]%member_cases H1 H2 Hc.
  - apply encoded_leaf in H1, H2; auto. subst.
    rewrite collide_leaf in Hc by assumption.
    apply orb_false_iff in Hc as [Hc _]. now apply same_elem_false_l.
  - apply encoded_leaf in H1; auto. subst.
    destruct H2 as (h & d & _ & -> & _).
    apply same_elem_false_l. now apply py_eq_leaf_dict.
  - apply encoded_leaf in H2; auto. subst.
    destruct H1 as (h & d & _ & -> & _).
    apply same_elem_false_l. now apply py_eq_leaf_dict.
  - destruct H1 as (h & d & Hh & -> & Hd).
    destruct H2 as (h' & d' & Hh' & -> & Hd').
    simpl in Hc. rewrite Hh1, Hh2 in Hc.
    rewrite Hh1 in Hh. rewrite Hh2 in Hh'. injection Hh as <-. injection Hh' as <-.
    now apply hashdicts_apart with h1 h2.
Qed.

Lemma dec_apart E x1 x2 y1 y2 :
  set_member E x1 = true -> set_member E x2 = true ->
  decoded_member E x1 y1 -> decoded_member E x2 y2 ->
  collide E x1 x2 = false -> same_elem E y1 y2 = false.
Proof.
  intros [Hl1 | (c1 & fs1 & h1 & -> & Hh1)]%member_cases
         [Hl2 | (c2 & fs2 & h2 & -> & Hh2)]%member_cases H1 H2 Hc.
  - apply decoded_leaf in H1, H2; auto. subst.
    rewrite collide_leaf in Hc by assumption.
    apply orb_false_iff in Hc as [Hc _]. now apply same_elem_false_l.
  - apply decoded_leaf in H1; auto. subst.
    destruct H2 as (c' & fs' & -> & _).
    apply same_elem_false_l. now apply py_eq_leaf_obj.
  - apply decoded_leaf in H2; auto. subst.
    destruct H1 as (c' & fs' & -> & _).
    apply same_elem_false_l. now apply py_eq_leaf_obj.
  - destruct H1 as (c1' & fs1' & -> & Hs1).
    destruct H2 as (c2' & fs2' & -> & Hs2).
    simpl in Hc. rewrite Hh1, Hh2 in Hc.
    unfold same_elem. rewrite Hs1, Hs2, Hh1, Hh2, Hc. apply andb_false_r.
Qed.

Lemma Forall2_Permutation_image {A B} (g : A -> result B) l l' :
  Permutation l l' -> forall m,
  Forall2 (fun a b => g a = Ok b) l m ->
  exists m', Forall2 (fun a b => g a = Ok b) l' m' /\ Permutation m m'.
Proof.
  induction 1 as [|x l l' Hp IH|x y l|l l' l'' _ IH1 _ IH2]; intros m Hm.
  - inversion Hm; subst. exists []. split; constructor.
  - inversion Hm as [|? b ? m0 Hb Hm0]; subst.
    destruct (IH _ Hm0) as (m' & Hm' & Hperm).
    exists (b :: m'). split; [now constructor | now constructor].
  - inversion Hm as [|? b ? m0 Hb Hm0]; subst.
    inversion Hm0 as [|? c ? m1 Hc Hm1]; subst.
    exists (c :: b :: m1). split; [repeat constructor; assumption | constructor].
  - destruct (IH1 _ Hm) as (m' & Hm' & Hp1).
    destruct (IH2 _ Hm') as (m'' & Hm'' & Hp2).
    exists m''. split; [assumption | now transitivity m'].
Qed.

Lemma pairs_impl {A} (R R' : A -> A -> Prop) l :
  (forall a b, R a b -> R' a b) -> ForallOrdPairs R l -> ForallOrdPairs R' l.
Proof.
  intros HR. induction 1 as [|a l Ha _ IH]; constructor; [|assumption].
  rewrite Forall_forall in *. auto.
Qed.

Section Members.
Variable E : pyenv.
Variable reg : registry.
Hypothesis Hord : set_order_ok E.
Hypothesis Hhash : hash_respects_eq E.

Local Abbreviation enc := (ObjFormat.to_raw_format_walk E).
Local Abbreviation dec := (RawFormat.to_obj_format_walk E reg).

Lemma members_encoded l rs :
  Forall2 (fun x r => enc x = Ok r) l rs ->
  forallb (obj_shape E reg) l = true -> forallb (set_member E) l = true ->
  Forall2 (fun x r => set_member E x = true /\ encoded_member E x r) l rs
  /\ forallb (hashable E) rs = true.
Proof.
  induction 1 as [|x r l rs Hx _ IH]; simpl; intros Hs Hm.
  - split; [constructor | reflexivity].
  - apply andb_true_iff in Hs as [Hs1 Hs2]. apply andb_true_iff in Hm as [Hm1 Hm2].
    destruct (IH Hs2 Hm2) as [Hl Hh].
    destruct (enc_member E reg x r Hm1 Hs1 Hx) as [He Hr].
    split; [constructor; auto|]. now rewrite Hr, Hh.
Qed.

Lemma members_decoded l xs :
  Forall2 (obj_equiv E) l xs -> forallb (set_member E) l = true ->
  Forall2 (fun x x' => set_member E x = true /\ decoded_member E x x') l xs
  /\ forallb (hashable E) xs = true.
Proof.
  induction 1 as [|x x' l xs Hx _ IH]; simpl; intros Hm.
  - split; [constructor | reflexivity].
  - apply andb_true_iff in Hm as [Hm1 Hm2].
    destruct (IH Hm2) as [Hl Hh].
    destruct (dec_member E x x' Hhash Hm1 Hx) as [Hd Hr].
    split; [constructor; auto|]. now rewrite Hr, Hh.
Qed.

(** A set of leaves and hashable domain objects no two of which collide
    keeps its elements through both conversions. *)
Lemma members_survive l :
  forallb (obj_shape E reg) l = true ->
  forallb (sets_survive E reg) l = true ->
  All (decodes_back E) l ->
  forallb (set_member E) l = true -> separated E l = true ->
  elements_survive E reg l = true.
Proof.
  intros Hs Hv Hc Hm Hsep.
  assert (IH : Forall (recovers E reg) l).
  { apply Forall_forall. intros x _. now apply round_trip_equiv. }
  destruct (recovered_list E reg l IH Hs Hv Hc) as (rs & xs & Hrs & Hxs & Heq).
  destruct (members_encoded l rs Hrs Hs Hm) as [Henc Hhrs].
  destruct (members_decoded l xs Heq Hm) as [Hdec Hhxs].
  apply separated_pairs in Hsep.
  unfold elements_survive.
  assert (Hrun : map_result enc l = Ok rs) by now apply map_result_ok.
  rewrite Hrun, Hhrs. simpl.
  assert (Hdrs : distinct E rs = true).
  { apply distinct_pairs.
    apply (pairs_Forall2 _ _ _ _ _ (fun a b a' b' Ha Hb Hab =>
             enc_apart E a b a' b' (proj1 Ha) (proj1 Hb) (proj2 Ha) (proj2 Hb) Hab)
             Henc Hsep). }
  rewrite Hdrs. simpl.
  destruct (Forall2_Permutation_image dec rs (set_order E rs)
              (Permutation_sym (Hord rs)) xs Hxs) as (ys & Hys & Hperm).
  assert (Hrun' : map_result dec (set_order E rs) = Ok ys) by now apply map_result_ok.
  rewrite Hrun'.
  rewrite <- (forallb_Permutation _ _ _ Hperm), Hhxs. simpl.
  apply distinct_pairs.
  apply (pairs_impl (fun a b => same_elem E a b = false /\ same_elem E b a = false));
    [intros a b [H _]; exact H|].
  apply (pairs_Permutation _ xs ys); [intros a b [? ?]; split; assumption | exact Hperm |].
  apply (pairs_Forall2 _ (fun x y => collide E x y = false) _ _ _
           (fun a b a' b' Ha Hb Hab =>
              conj (dec_apart E a b a' b' (proj1 Ha) (proj1 Hb) (proj2 Ha) (proj2 Hb) Hab)
                   (dec_apart E b a b' a' (proj1 Hb) (proj1 Ha) (proj2 Hb) (proj2 Ha)
                      (eq_trans (collide_sym E b a) Hab)))
           Hdec Hsep).
Qed.

End Members.

Section Derived.
Variable E : pyenv.
Variable reg : registry.
Hypothesis Hord : set_order_ok E.
Hypothesis Hhash : hash_respects_eq E.

Lemma sets_survive_list l :
  Forall (fun d => obj_shape E reg d = true -> sets_hold_members E d = true ->
                   decodes_back E d -> sets_survive E reg d = true) l ->
  forallb (obj_shape E reg) l = true ->
  forallb (sets_hold_members E) l = true ->
  All (decodes_back E) l ->
  forallb (sets_survive E reg) l = true.
Proof.
  induction 1 as [|x l Hx _ IH]; simpl; intros Hs Hm Hc; [reflexivity|].
  apply andb_true_iff in Hs as [Hs1 Hs2]. apply andb_true_iff in Hm as [Hm1 Hm2].
  destruct Hc as [Hc1 Hc2]. now rewrite Hx, IH.
Qed.

Lemma sets_survive_items (d : items) :
  Forall (fun kv => obj_shape E reg (snd kv) = true ->
                    sets_hold_members E (snd kv) = true ->
                    decodes_back E (snd kv) -> sets_survive E reg (snd kv) = true) d ->
  forallb (fun kv => obj_shape E reg (snd kv)) d = true ->
  forallb (fun kv => sets_hold_members E (snd kv)) d = true ->
  All (fun kv => decodes_back E (snd kv)) d ->
  forallb (fun kv => sets_survive E reg (snd kv)) d = true.
Proof.
  induction 1 as [|x l Hx _ IH]; simpl; intros Hs Hm Hc; [reflexivity|].
  apply andb_true_iff in Hs as [Hs1 Hs2]. apply andb_true_iff in Hm as [Hm1 Hm2].
  destruct Hc as [Hc1 Hc2]. now rewrite Hx, IH.
Qed.

(** The sets of the document keep their elements: this follows from
    what they hold. *)
Lemma sets_survive_derived d :
  obj_shape E reg d = true -> sets_hold_members E d = true ->
  decodes_back E d -> sets_survive E reg d = true.
Proof.
  induction d as [|b|n|s|yr mo dy|lab|p|l IH|h d IH|l IH|l IH|c fs IH] using value_ind;
    intros Hs Hm Hc; try reflexivity.
  - simpl in *. now apply sets_survive_list.
  - simpl in *. apply andb_true_iff in Hs as [_ Hs]. now apply sets_survive_items.
  - simpl in *. apply andb_true_iff in Hm as [Hm Hsep].
    apply andb_true_iff in Hm as [Hm Hmem].
    pose proof (sets_survive_list l IH Hs Hm Hc) as Hl. rewrite Hl. simpl.
    now apply members_survive.
  - simpl in *. apply andb_true_iff in Hm as [Hm Hsep].
    apply andb_true_iff in Hm as [Hm Hmem].
    pose proof (sets_survive_list l IH Hs Hm Hc) as Hl. rewrite Hl. simpl.
    now apply members_survive.
  - simpl in *. destruct Hc as [_ Hc].
    apply andb_true_iff in Hs as [_ Hs]. now apply sets_survive_items.
Qed.

End Derived.


Lemma list_eqb_with_length {A B} (f : A -> B -> bool) la : forall lb,
  list_eqb_with f la lb = true -> length la = length lb.
Proof.
  induction la as [|a la IH]; intros [|b lb]; simpl; try discriminate; auto.
  intros [_ H]%andb_true_iff. f_equal. now apply IH.
Qed.

Lemma sample_hash_respects_eq : hash_respects_eq Sample.env.
Proof.
  intros c fs c' fs' Heq. simpl in Heq.
  apply andb_true_iff in Heq as [Hc Hfs]. apply Nat.eqb_eq in Hc. subst c'.
  apply list_eqb_with_length in Hfs. simpl. now rewrite Hfs.
Qed.

Lemma obj_equiv_leaf E v v' :
  is_plain_leaf v = true -> obj_equiv E v v' -> v' = v.
Proof.
  intros Hv Heq. inversion Heq; subst; try discriminate; reflexivity.
Qed.

Lemma fields_equiv_leaves E fs fs' :
  forallb (fun kv => is_plain_leaf (snd kv)) fs = true ->
  fields_equiv E fs fs' -> fs' = fs.
Proof.
  intros Hl Heq. induction Heq as [|[k v] [k' v'] fs fs' [Hk Hv] _ IH];
    [reflexivity|].
  simpl in *. apply andb_true_iff in Hl as [Hl1 Hl2].
  subst k'. rewrite (obj_equiv_leaf E v v' Hl1 Hv). f_equal. now apply IH.
Qed.

(** In the sample runtime a class decodes the fields it is given. *)
Lemma sample_decodes_leaves c fs :
  forallb (fun kv => is_plain_leaf (snd kv)) fs = true ->
  value_eqb (VObj c fs) (VObj c fs) = true ->
  forall fs', fields_equiv Sample.env fs fs' ->
    exists c' fs'', from_dict Sample.env c fs' = Ok (VObj c' fs'')
                    /\ obj_eq Sample.env c' fs'' c fs = true.
Proof.
  intros Hl Hrefl fs' Heq. apply fields_equiv_leaves in Heq; [|exact Hl].
  subst fs'. exists c, fs. split; [reflexivity | exact Hrefl].
Qed.


(** ** Further properties of the conversions *)

Lemma uint_digits_dot_free d :
  contains dot (lit (NilEmpty.string_of_uint d)) = false.
Proof. induction d; simpl; auto. Qed.

Lemma of_Z_dot_free n : contains dot (of_Z n) = false.
Proof.
  unfold of_Z. destruct (Z.to_int n) as [d|d]; simpl.
  - destruct d; try reflexivity; apply (uint_digits_dot_free (_ d)).
  - destruct d; try reflexivity; apply (uint_digits_dot_free (_ d)).
Qed.

Lemma contains_app c s t : contains c (s ++ t) = contains c s || contains c t.
Proof. unfold contains. apply existsb_app. Qed.

Lemma map_key_storage_key k :
  label_dot_free k = true -> storage_key (WorkingFormat.map_key k) = true.
Proof.
  destruct k as [s|label|n| |b|neg whole fraction]; simpl; intros Hk.
  - destruct (contains dot s) eqn:Hs; simpl.
    + rewrite replace_removes; [reflexivity | discriminate].
    + now rewrite Hs.
  - apply negb_true_iff in Hk. apply negb_true_iff.
    rewrite !contains_app, Hk. reflexivity.
  - apply negb_true_iff. apply of_Z_dot_free.
  - reflexivity.
  - now destruct b.
  - discriminate.
Qed.

(** What is written for a key that is no [str] is not escaped: with a
    "." in the label of a [Symbol], and for every float, the stored key
    has a ".". *)
Lemma map_key_keeps_dot k :
  label_dot_free k = false ->
  exists t, WorkingFormat.map_key k = KStr t /\ contains dot t = true.
Proof.
  intros Hk.
  destruct k as [s|label|n| |b|neg whole fraction]; simpl in Hk; try discriminate.
  - apply negb_false_iff in Hk.
    exists (lit "__" ++ label ++ lit "__"). split; [reflexivity|].
    rewrite !contains_app, Hk. now rewrite orb_true_r.
  - exists (of_float neg whole fraction). split; [reflexivity|].
    unfold of_float. rewrite !contains_app.
    change (contains dot [dot]) with true. now rewrite !orb_true_r.
Qed.

Lemma store_safe_walk w :
  labels_dot_free w = true ->
  storage_safe (WorkingFormat.to_storage_format_walk w) = true.
Proof.
  induction w as [|b|n|s|yr mo dy|lab|p|l IH|h d IH|l IH|l IH|c fs IH] using value_ind;
    simpl; intros Hw; try reflexivity.
  - apply forallb_map_true. apply forallb_Forall in Hw.
    rewrite Forall_forall in *. auto.
  - apply forallb_Forall. apply rebuild_total_Forall; [|constructor].
    intros k v Hin. apply forallb_Forall in Hw.
    rewrite Forall_forall in IH, Hw.
    specialize (IH _ Hin). specialize (Hw _ Hin). simpl in *.
    apply andb_true_iff in Hw as [Hk Hv].
    now rewrite (map_key_storage_key _ Hk), (IH Hv).
  - rewrite forallb_map_true; [reflexivity|]. apply forallb_Forall in Hw.
    rewrite Forall_forall in *. auto.
  - rewrite forallb_map_true; [reflexivity|]. apply forallb_Forall in Hw.
    rewrite Forall_forall in *. auto.
Qed.



(** Dot escaping of the keys without the full-width dot: it is undone by
    the restoring of keys, hence injective, and what it returns has no
    ".". *)
Theorem dot_escaping_is_injective (s1 s2 : pystr) :
  contains fullwidth_dot s1 = false ->
  contains fullwidth_dot s2 = false ->
  StorageFormat.restore_key (WorkingFormat.map_key (KStr s1)) = Ok (KStr s1)
  /\ storage_key (WorkingFormat.map_key (KStr s1)) = true
  /\ (WorkingFormat.map_key (KStr s1) = WorkingFormat.map_key (KStr s2) -> s1 = s2).
Proof.
  intros H1 H2.
  assert (Hk1 : working_key (KStr s1) = true) by (simpl; now rewrite H1).
  assert (Hk2 : working_key (KStr s2) = true) by (simpl; now rewrite H2).
  repeat split.
  - now apply working_key_round_trip.
  - now apply map_key_storage_key.
  - intros Heq. apply (map_key_injective _ _ Hk1 Hk2) in Heq. congruence.
Qed.

Lemma dot_escaping_is_injective_witness :
  StorageFormat.restore_key (WorkingFormat.map_key (KStr (lit "a.b")))
  = Ok (KStr (lit "a.b")).
Proof.
  apply (dot_escaping_is_injective (lit "a.b") (lit "a.c")); reflexivity.
Defined.

(** Raw -> Working on a mapping whose converted items carry an integer
    under "_hash": the result is a [hashdict], which is hashable; without
    a "_hash" item it is a plain, unhashable [dict]. *)
Theorem hash_carrying_mappings_are_hashable (E : pyenv) (h : bool) (d d' : items) :
  map_items (RawFormat.to_working_format E) d = Ok d' ->
  (forall n, dict_get (KStr s_hash) d' = Some (VInt n) ->
     RawFormat.to_working_format E (VDict h d) = Ok (VDict true d')
     /\ hashable E (VDict true d') = true)
  /\ (dict_get (KStr s_hash) d' = None ->
      RawFormat.to_working_format E (VDict h d) = Ok (VDict false d')
      /\ hashable E (VDict false d') = false).
Proof.
  intros Hd'. change (map_items (RawFormat.to_working_format_walk E) d = Ok d') in Hd'.
  unfold RawFormat.to_working_format. split.
  - intros n Hn. simpl. rewrite Hd'. simpl.
    assert (Hc : dict_contains (KStr s_hash) d' = true)
      by (apply dict_contains_get; eauto).
    rewrite Hc. split; [reflexivity|].
    unfold hashdict_hash. rewrite Hc, (getitem_with_get _ _ _ _ Hn). reflexivity.
  - intros Hnone. simpl. rewrite Hd'. simpl.
    apply dict_contains_false in Hnone. now rewrite Hnone.
Qed.

Lemma hash_carrying_mappings_are_hashable_witness :
  RawFormat.to_working_format Sample.env
    (VDict false [(KStr s_type, VStr (lit "Widget")); (KStr s_hash, VInt 1)])
  = Ok (VDict true [(KStr s_type, VStr (lit "Widget")); (KStr s_hash, VInt 1)]).
Proof.
  destruct (hash_carrying_mappings_are_hashable Sample.env false
              [(KStr s_type, VStr (lit "Widget")); (KStr s_hash, VInt 1)]
              [(KStr s_type, VStr (lit "Widget")); (KStr s_hash, VInt 1)] eq_refl)
    as [Hhashed _].
  apply (Hhashed 1%Z). reflexivity.
Defined.

(** ** Loading: shape of the result, idempotence, failures *)

Lemma replace_to_free old new s t :
  contains new t = false -> replace old new s = t -> s = t.
Proof.
  unfold contains, replace. revert t.
  induction s as [|c s IH]; intros [|c' t]; simpl; try congruence.
  intros [Hc Ht]%orb_false_iff [= Hhead Htail].
  destruct (N.eqb c old).
  - subst c'. now rewrite N.eqb_refl in Hc.
  - subst c'. f_equal. now apply IH.
Qed.

(** Only "_type" is restored to "_type". *)
Lemma restore_key_type k :
  StorageFormat.restore_key k = Ok (KStr s_type) -> k = KStr s_type.
Proof.
  destruct k as [s| | | | |]; simpl; try discriminate.
  intros [= H]. f_equal. now apply replace_to_free in H.
Qed.

Lemma restore_key_working k k' :
  StorageFormat.restore_key k = Ok k' -> working_key k' = true.
Proof.
  destruct k as [s| | | | |]; simpl; try discriminate.
  intros [= <-]. simpl. apply negb_true_iff.
  apply replace_removes. discriminate.
Qed.

Lemma restore_working_key k :
  working_key k = true -> StorageFormat.restore_key k = Ok k.
Proof.
  destruct k as [s| | | | |]; simpl; try discriminate.
  intros Hs%negb_true_iff. now rewrite replace_unchanged.
Qed.

(** A string is loaded from that string only. *)
Lemma load_str_is E t v v' :
  StorageFormat.to_working_format_walk E v = Ok v' ->
  str_is t v' = true -> str_is t v = true.
Proof.
  destruct v; simpl; intros Hv Ht; try (injection Hv as <-; exact Ht).
  - apply bind_ok in Hv as (l' & _ & [= <-]). discriminate.
  - destruct (tag_is s_set items0).
    { apply bind_ok in Hv as (x & _ & Hv). unfold set_of in Hv.
      apply bind_ok in Hv as (l & _ & Hv).
      apply bind_ok in Hv as (s & _ & [= <-]). discriminate. }
    destruct (tag_is s_frozenset items0).
    { apply bind_ok in Hv as (x & _ & Hv). unfold frozenset_of in Hv.
      apply bind_ok in Hv as (l & _ & Hv).
      apply bind_ok in Hv as (s & _ & [= <-]). discriminate. }
    apply bind_ok in Hv as (res & _ & [= <-]). discriminate.
Qed.

(** An item of the rebuilt mapping was there before the loop or comes
    from an item of the source. *)
Lemma rebuild_get_inv fk f d : forall res res' k' v',
  rebuild fk f d res = Ok res' -> dict_get k' res' = Some v' ->
  dict_get k' res = Some v'
  \/ exists k v, In (k, v) d /\ fk k = Ok k' /\ f v = Ok v'.
Proof.
  induction d as [|[k v] d IH]; simpl; intros res res' k' v' Hrun Hget.
  - injection Hrun as <-. now left.
  - apply bind_ok in Hrun as (v1 & Hv1 & Hrun).
    apply bind_ok in Hrun as (k1 & Hk1 & Hrun).
    destruct (IH _ _ _ _ Hrun Hget) as [Hres | (k2 & v2 & Hin & Hk2 & Hv2)].
    + rewrite dict_get_set in Hres. destruct (key_eqb k1 k') eqn:Hk.
      * apply key_eqb_eq in Hk. subst k1. injection Hres as <-.
        right. exists k, v. auto.
      * now left.
    + right. exists k2, v2. auto.
Qed.

(** The rebuilt mapping is tagged only if the source is. *)
Lemma rebuild_tag_is E t d res :
  NoDup (dict_keys d) ->
  rebuild StorageFormat.restore_key (StorageFormat.to_working_format_walk E) d []
  = Ok res ->
  tag_is t res = true -> tag_is t d = true.
Proof.
  intros Hnd Hrun. unfold tag_is.
  destruct (dict_get (KStr s_type) res) as [v'|] eqn:Hget; [|discriminate].
  destruct (rebuild_get_inv _ _ _ _ _ _ _ Hrun Hget)
    as [Hnil | (k & v & Hin & Hk & Hv)]; [discriminate|].
  apply restore_key_type in Hk. subst k.
  rewrite (dict_get_nodup _ _ _ Hnd Hin).
  now apply load_str_is with (1 := Hv).
Qed.

Lemma Forall_Forall2_diag {A} (R : A -> A -> Prop) l :
  Forall (fun x => R x x) l -> Forall2 R l l.
Proof. induction 1; constructor; auto. Qed.

Section Loading.
Variable E : pyenv.

Local Abbreviation walk := (StorageFormat.to_working_format_walk E).

Lemma load_loaded_shape d :
  keys_distinct d = true -> forall w, walk d = Ok w -> loaded_shape w = true.
Proof.
  induction d as [| | | | | | |l IH|h d IH|l IH|l IH|c fs IH] using value_ind;
    simpl; intros Hd w Hw; try (injection Hw as <-; reflexivity).
  - apply bind_ok in Hw as (l' & Hl' & [= <-]). simpl.
    apply map_result_ok in Hl'. apply forallb_Forall in Hd.
    apply forallb_Forall.
    induction Hl' as [|x y l l' Hxy _ IHl]; constructor;
      inversion IH; inversion Hd; subst; eauto.
  - apply andb_true_iff in Hd as [Hnd Hd]. apply nodupb_NoDup in Hnd.
    apply forallb_Forall in Hd.
    destruct (tag_is s_set d) eqn:Hset.
    { apply bind_ok in Hw as (v & _ & Hw). unfold set_of in Hw.
      apply bind_ok in Hw as (l & _ & Hw).
      apply bind_ok in Hw as (s & _ & [= <-]). reflexivity. }
    destruct (tag_is s_frozenset d) eqn:Hfrozen.
    { apply bind_ok in Hw as (v & _ & Hw). unfold frozenset_of in Hw.
      apply bind_ok in Hw as (l & _ & Hw).
      apply bind_ok in Hw as (s & _ & [= <-]). reflexivity. }
    apply bind_ok in Hw as (res & Hres & [= <-]). simpl.
    apply andb_true_iff. split; [apply andb_true_iff; split|].
    + apply forallb_Forall.
      eapply rebuild_ok_Forall; [| exact Hres | constructor].
      intros k v k' v' Hin Hk Hv. simpl.
      rewrite Forall_forall in IH, Hd.
      specialize (IH _ Hin). specialize (Hd _ Hin). cbn [fst snd] in *.
      now rewrite (restore_key_working _ _ Hk), (IH Hd _ Hv).
    + apply nodupb_NoDup.
      apply (rebuild_keys_NoDup _ _ _ _ _ Hres). constructor.
    + apply negb_true_iff. unfold StorageFormat.tag_in_sets.
      apply orb_false_iff. split; apply not_true_iff_false; intros Htag;
        apply (rebuild_tag_is E _ d res Hnd Hres) in Htag; congruence.
Qed.

Lemma load_fixed w : loaded_shape w = true -> walk w = Ok w.
Proof.
  induction w as [| | | | | | |l IH|h d IH|l IH|l IH|c fs IH] using value_ind;
    simpl; intros Hw; try reflexivity.
  - apply forallb_Forall in Hw.
    assert (Hl : map_result walk l = Ok l).
    { apply map_result_ok. apply Forall_Forall2_diag.
      rewrite Forall_forall in *. auto. }
    now rewrite Hl.
  - apply andb_true_iff in Hw as [Hw Htag].
    apply andb_true_iff in Hw as [Hw Hnd].
    apply andb_true_iff in Hw as [Hh Hw].
    apply negb_true_iff in Htag, Hh. subst h.
    destruct (tag_in_sets_none _ Htag) as [-> ->].
    apply nodupb_NoDup in Hnd. apply forallb_Forall in Hw.
    assert (Hres : rebuild StorageFormat.restore_key walk d [] = Ok ([] ++ d)).
    { apply rebuild_pointwise; [| assumption | reflexivity].
      apply Forall_Forall2_diag. rewrite Forall_forall in *.
      intros kv Hin. specialize (IH _ Hin). specialize (Hw _ Hin).
      apply andb_true_iff in Hw as [Hk Hv].
      split; [now apply restore_working_key | auto]. }
    now rewrite Hres.
Qed.

Lemma load_raises_part x doc :
  loaded_part x doc -> raises (walk x) -> raises (walk doc).
Proof.
  intros Hpart Hx.
  induction Hpart as [| l y Hin _ IH | h d k v Htag Hin _ IH
                     | h d v Htag Hget _ IH].
  - exact Hx.
  - simpl. apply raises_bind. now apply map_result_raises with y.
  - simpl. destruct (tag_in_sets_none _ Htag) as [-> ->].
    apply raises_bind. now apply rebuild_raises with k v.
  - simpl. rewrite (getitem_with_get _ _ _ _ Hget).
    destruct (tag_in_sets_cases _ Htag) as [-> | [-> ->]];
      now apply raises_bind.
Qed.

Lemma rebuild_key_raises (fk : key -> result key) (f : value -> result value) e d :
  Forall (fun kv => exists v', f (snd kv) = Ok v') d ->
  Forall (fun kv => (exists k', fk (fst kv) = Ok k') \/ fk (fst kv) = Raise e) d ->
  Exists (fun kv => fk (fst kv) = Raise e) d ->
  forall res, rebuild fk f d res = Raise e.
Proof.
  intros Hvals Hkeys Hbad.
  induction Hbad as [[k v] d Hk | [k v] d _ IH]; intros res; simpl in *.
  - inversion Hvals as [|? ? [v' Hv'] _]; subst. simpl in Hv'.
    now rewrite Hv', Hk.
  - inversion Hvals as [|? ? [v' Hv'] Hvals']; subst.
    inversion Hkeys as [|? ? [[k' Hk'] | Hk'] Hkeys']; subst; simpl in *.
    + rewrite Hv', Hk'. simpl. now apply IH.
    + now rewrite Hv', Hk'.
Qed.

End Loading.

(** A mapping returned by the Storage -> Working walker has string keys
    only: when the walker iterates over what it converted, as it does
    for the "_value" of a stored set, the elements are strings. *)
Lemma loaded_mapping_str_keys E v h d :
  StorageFormat.to_working_format_walk E v = Ok (VDict h d) ->
  forallb (fun kv => is_str (fst kv)) d = true.
Proof.
  destruct v as [| | | | | | |l|h0 d0|l|l|c fs]; simpl; intros H; try discriminate.
  - apply bind_ok in H as (l' & _ & H). discriminate.
  - destruct (tag_is s_set d0).
    { apply bind_ok in H as (v & _ & H). unfold set_of in H.
      apply bind_ok in H as (l & _ & H). apply bind_ok in H as (s & _ & H).
      discriminate. }
    destruct (tag_is s_frozenset d0).
    { apply bind_ok in H as (v & _ & H). unfold frozenset_of in H.
      apply bind_ok in H as (l & _ & H). apply bind_ok in H as (s & _ & H).
      discriminate. }
    apply bind_ok in H as (res & Hres & [= _ <-]).
    apply forallb_Forall.
    eapply rebuild_ok_Forall; [| exact Hres | constructor].
    intros k v k' v' _ Hk _. simpl.
    destruct k; simpl in Hk; try discriminate. now injection Hk as <-.
Qed.

(** Loading is idempotent: what [load] returned is loaded to itself. *)
Theorem load_is_idempotent (E : pyenv) (d w : value) :
  keys_distinct d = true -> load E d = Ok w -> load E w = Ok w.
Proof.
  unfold load, get, StorageFormat.to_working_format. intros Hd Hw.
  apply bind_ok in Hw as (w0 & Hw0 & [= <-]).
  now rewrite (load_fixed E w0 (load_loaded_shape E d Hd w0 Hw0)).
Qed.

Lemma load_is_idempotent_witness :
  load Sample.env
    (VDict false
       [(KStr [97; 65294; 98]%N, set_mapping s_set [VInt 1; VInt 2]);
        (KStr (lit "l"), VList [VNone; VStr (lit "x")])])
  = Ok (VDict false
          [(KStr (lit "a.b"), VSet [VInt 2; VInt 1]);
           (KStr (lit "l"), VList [VNone; VStr (lit "x")])])
  /\ load Sample.env
       (VDict false
          [(KStr (lit "a.b"), VSet [VInt 2; VInt 1]);
           (KStr (lit "l"), VList [VNone; VStr (lit "x")])])
     = Ok (VDict false
             [(KStr (lit "a.b"), VSet [VInt 2; VInt 1]);
              (KStr (lit "l"), VList [VNone; VStr (lit "x")])]).
Proof.
  split; [reflexivity|].
  apply (load_is_idempotent Sample.env
           (VDict false
              [(KStr [97; 65294; 98]%N, set_mapping s_set [VInt 1; VInt 2]);
               (KStr (lit "l"), VList [VNone; VStr (lit "x")])]));
    reflexivity.
Defined.

(** What [load] returns has, outside its sets, plain mappings only, whose
    keys are pairwise distinct and free of the full-width dot, and none
    of which is tagged "set" or "frozenset": no stored set and no escaped
    key is left. *)
Theorem load_leaves_no_stored_set (E : pyenv) (d w : value) :
  keys_distinct d = true -> load E d = Ok w -> loaded_shape w = true.
Proof.
  unfold load, get, StorageFormat.to_working_format. intros Hd Hw.
  apply bind_ok in Hw as (w0 & Hw0 & [= <-]).
  exact (load_loaded_shape E d Hd w0 Hw0).
Qed.

Lemma load_leaves_no_stored_set_witness :
  exists w,
    load Sample.env
      (VList [set_mapping s_frozenset [VInt 1];
              VDict true [(KStr [97; 65294; 98]%N, VInt 2)]]) = Ok w
    /\ loaded_shape w = true.
Proof.
  eexists. split; [reflexivity|].
  apply (load_leaves_no_stored_set Sample.env
           (VList [set_mapping s_frozenset [VInt 1];
                   VDict true [(KStr [97; 65294; 98]%N, VInt 2)]]));
    reflexivity.
Defined.

(** [load] swallows no exception: when the conversion of a part of the
    document that the walk reaches raises, so does [load] of the
    document. *)
Theorem load_swallows_no_exception (E : pyenv) (x doc : value) :
  loaded_part x doc -> raises (load E x) -> raises (load E doc).
Proof.
  unfold load, get, StorageFormat.to_working_format.
  intros Hpart [e Hx].
  assert (Hr : raises (StorageFormat.to_working_format_walk E x)).
  { destruct (StorageFormat.to_working_format_walk E x) as [a|e'];
      [discriminate | now exists e']. }
  apply raises_bind. now apply load_raises_part with x.
Qed.

(** [{"a": [{"_type": "frozenset", "_value": 5}]}] *)
Lemma load_swallows_no_exception_witness :
  raises (load Sample.env
            (VDict false
               [(KStr (lit "a"),
                  VList [VDict false [(KStr s_type, VStr s_frozenset);
                                      (KStr s_value, VInt 5)]])])).
Proof.
  apply (load_swallows_no_exception Sample.env
           (VDict false [(KStr s_type, VStr s_frozenset); (KStr s_value, VInt 5)])).
  - apply lp_field with (KStr (lit "a"))
      (VList [VDict false [(KStr s_type, VStr s_frozenset);
                           (KStr s_value, VInt 5)]]);
      [reflexivity | simpl; auto |].
    apply lp_element with
      (VDict false [(KStr s_type, VStr s_frozenset); (KStr s_value, VInt 5)]);
      [simpl; auto | apply lp_here].
  - exists TypeError. reflexivity.
Defined.

(** A mapping that is not tagged "set" or "frozenset" and has a key that
    is not a string (a [Symbol], a number) cannot be loaded: [load]
    raises, and it raises [AttributeError] when the values of the mapping
    load. *)
Theorem load_rejects_non_string_keys (E : pyenv) (h : bool) (d : items)
    (k : key) (v : value) :
  StorageFormat.tag_in_sets d = false ->
  In (k, v) d -> is_str k = false ->
  raises (load E (VDict h d))
  /\ ((forall k0 v0, In (k0, v0) d -> exists w0, load E v0 = Ok w0) ->
      load E (VDict h d) = Raise AttributeError).
Proof.
  unfold load, get, StorageFormat.to_working_format.
  intros Htag Hin Hk. simpl.
  destruct (tag_in_sets_none _ Htag) as [-> ->].
  assert (Hbad : StorageFormat.restore_key k = Raise AttributeError)
    by (destruct k; simpl in *; congruence).
  split.
  - apply raises_bind, raises_bind. clear Htag.
    generalize (@nil (key * value)).
    induction d as [|[k1 v1] d IH]; simpl; intros res; [contradiction|].
    destruct Hin as [[= -> ->] | Hin].
    + destruct (StorageFormat.to_working_format_walk E v) as [v'|e]; simpl;
        [|now exists e].
      rewrite Hbad. now exists AttributeError.
    + destruct (StorageFormat.to_working_format_walk E v1) as [v'|e]; simpl;
        [|now exists e].
      destruct (StorageFormat.restore_key k1) as [k'|e]; simpl;
        [|now exists e].
      now apply IH.
  - intros Hvals.
    rewrite (rebuild_key_raises StorageFormat.restore_key
               (StorageFormat.to_working_format_walk E) AttributeError d);
      [reflexivity | | |].
    + apply Forall_forall. intros [k0 v0] Hin0.
      destruct (Hvals _ _ Hin0) as [w0 Hw0]. simpl.
      apply bind_ok in Hw0 as (w1 & Hw1 & _). eauto.
    + apply Forall_forall. intros [[s| | | | |] v0] _; simpl; eauto.
    + apply Exists_exists. exists (k, v). auto.
Qed.

Lemma load_rejects_non_string_keys_witness :
  load Sample.env (VDict false [(KStr (lit "a"), VInt 1); (KInt 2, VNone)])
  = Raise AttributeError.
Proof.
  apply (load_rejects_non_string_keys Sample.env false
           [(KStr (lit "a"), VInt 1); (KInt 2, VNone)] (KInt 2) VNone).
  - reflexivity.
  - simpl. auto.
  - reflexivity.
  - intros k0 v0 [[= <- <-] | [[= <- <-] | []]]; eexists; reflexivity.
Defined.

Lemma load_unhashable E x y :
  StorageFormat.to_working_format_walk E x = Ok y ->
  loads_unhashable x = true -> hashable E y = false.
Proof.
  destruct x; simpl; intros Hx Hu; try discriminate.
  - apply bind_ok in Hx as (l' & _ & [= <-]). reflexivity.
  - destruct (tag_is s_set items0).
    { apply bind_ok in Hx as (v & _ & Hx). unfold set_of in Hx.
      apply bind_ok in Hx as (l & _ & Hx).
      apply bind_ok in Hx as (s & _ & [= <-]). reflexivity. }
    destruct (tag_is s_frozenset items0); [discriminate|].
    apply bind_ok in Hx as (res & _ & [= <-]). reflexivity.
  - injection Hx as <-. reflexivity.
Qed.

Lemma map_result_total {A B} (f : A -> result B) l :
  (forall x, In x l -> exists y, f x = Ok y) -> exists l', map_result f l = Ok l'.
Proof.
  induction l as [|x l IH]; simpl; intros H.
  - now exists [].
  - destruct (H x) as [y Hy]; [now left|].
    destruct IH as [l' Hl']; [intros; apply H; now right|].
    exists (y :: l'). now rewrite Hy, Hl'.
Qed.

Lemma Forall2_In_left {A B} (R : A -> B -> Prop) l l' x :
  Forall2 R l l' -> In x l -> exists y, In y l' /\ R x y.
Proof.
  induction 1 as [|a b l l' Hab _ IH]; simpl; [contradiction|].
  intros [-> | Hin].
  - exists b. auto.
  - destruct (IH Hin) as (y & Hy & Hxy). exists y. auto.
Qed.

Lemma forallb_false_In {A} (p : A -> bool) l x :
  In x l -> p x = false -> forallb p l = false.
Proof.
  intros Hin Hp. apply not_true_iff_false. intros H.
  rewrite forallb_forall in H. specialize (H _ Hin). congruence.
Qed.

(** A stored set or frozenset that holds a list, or a mapping other than
    a stored frozenset, cannot be loaded: the element comes back as a
    [list], a [set] or a plain [dict], so that building the set raises
    [TypeError] (when an element fails to load, its exception is
    raised). *)
Theorem stored_set_of_mappings_does_not_load (E : pyenv) (h : bool) (d : items)
    (l : list value) (x : value) :
  StorageFormat.tag_in_sets d = true ->
  dict_get (KStr s_value) d = Some (VList l) ->
  In x l -> loads_unhashable x = true ->
  raises (load E (VDict h d))
  /\ ((forall y, In y l -> exists w, load E y = Ok w) ->
      load E (VDict h d) = Raise TypeError).
Proof.
  unfold load, get, StorageFormat.to_working_format.
  intros Htag Hget Hin Hx.
  assert (Hbuild : forall ws,
            map_result (StorageFormat.to_working_format_walk E) l = Ok ws ->
            build_set E ws = Raise TypeError).
  { intros ws Hws. apply map_result_ok in Hws.
    unfold build_set.
    destruct (Forall2_In_left _ _ _ _ Hws Hin) as (y & Hy & Hxy).
    now rewrite (forallb_false_In _ _ y Hy (load_unhashable E x y Hxy Hx)). }
  assert (Hrun : forall ws,
            map_result (StorageFormat.to_working_format_walk E) l = Ok ws ->
            StorageFormat.to_working_format_walk E (VDict h d) = Raise TypeError).
  { intros ws Hws. simpl. rewrite (getitem_with_get _ _ _ _ Hget). simpl.
    rewrite Hws. simpl. unfold set_of, frozenset_of. simpl.
    rewrite (Hbuild ws Hws). simpl.
    destruct (tag_in_sets_cases _ Htag) as [-> | [-> ->]]; reflexivity. }
  split.
  - destruct (map_result (StorageFormat.to_working_format_walk E) l)
      as [ws|e] eqn:Hws.
    + rewrite (Hrun ws eq_refl). now exists TypeError.
    + apply raises_bind. simpl. rewrite (getitem_with_get _ _ _ _ Hget).
      simpl. rewrite Hws. simpl.
      destruct (tag_in_sets_cases _ Htag) as [-> | [-> ->]]; now exists e.
  - intros Hall.
    destruct (map_result_total (StorageFormat.to_working_format_walk E) l)
      as [ws Hws].
    { intros y Hy. destruct (Hall y Hy) as [w Hw].
      apply bind_ok in Hw as (w1 & Hw1 & _). eauto. }
    now rewrite (Hrun ws Hws).
Qed.

(** [{"_type": "set", "_value": [{"_type": "Widget", "_hash": 1}]}] *)
Lemma stored_set_of_mappings_does_not_load_witness :
  load Sample.env
    (set_mapping s_set
       [VDict false [(KStr s_type, VStr (lit "Widget")); (KStr s_hash, VInt 1)]])
  = Raise TypeError.
Proof.
  apply (stored_set_of_mappings_does_not_load Sample.env false
           [(KStr s_type, VStr s_set);
            (KStr s_value,
              VList [VDict false [(KStr s_type, VStr (lit "Widget"));
                                  (KStr s_hash, VInt 1)]])]
           [VDict false [(KStr s_type, VStr (lit "Widget")); (KStr s_hash, VInt 1)]]
           (VDict false [(KStr s_type, VStr (lit "Widget")); (KStr s_hash, VInt 1)])).
  - reflexivity.
  - reflexivity.
  - simpl. auto.
  - reflexivity.
  - intros y [<- | []]. eexists. reflexivity.
Defined.

Lemma rebuild_keeps fk f d : forall res res' k0,
  rebuild fk f d res = Ok res' ->
  dict_contains k0 res = true -> dict_contains k0 res' = true.
Proof.
  induction d as [|[k v] d IH]; simpl; intros res res' k0 Hrun Hk0.
  - now injection Hrun as <-.
  - apply bind_ok in Hrun as (v1 & Hv1 & Hrun).
    apply bind_ok in Hrun as (k1 & Hk1 & Hrun).
    apply (IH _ _ _ Hrun). now apply dict_set_contains_other.
Qed.

Lemma rebuild_contains fk f d k v k' : forall res res',
  rebuild fk f d res = Ok res' ->
  In (k, v) d -> fk k = Ok k' -> dict_contains k' res' = true.
Proof.
  induction d as [|[k0 v0] d IH]; simpl; intros res res' Hrun Hin Hk;
    [contradiction|].
  apply bind_ok in Hrun as (v1 & Hv1 & Hrun).
  apply bind_ok in Hrun as (k1 & Hk1 & Hrun).
  destruct Hin as [[= -> ->] | Hin].
  - apply (rebuild_keeps _ _ _ _ _ _ Hrun).
    assert (k1 = k') by congruence. subst k1. apply dict_set_contains.
  - now apply (IH _ _ Hrun).
Qed.

(** [load] keeps the item under a key that has neither "." nor "．", such
    as "_id": the loaded mapping has, under that key, the loaded value. *)
Theorem load_keeps_dot_free_keys (E : pyenv) (h : bool) (d : items)
    (s : pystr) (v w : value) :
  NoDup (dict_keys d) ->
  StorageFormat.tag_in_sets d = false ->
  contains dot s = false -> contains fullwidth_dot s = false ->
  dict_get (KStr s) d = Some v ->
  load E (VDict h d) = Ok w ->
  exists v', load E v = Ok v' /\ dict_get (KStr s) (items_of w) = Some v'.
Proof.
  unfold load, get, StorageFormat.to_working_format.
  intros Hnd Htag Hdot Hfw Hget Hw.
  apply bind_ok in Hw as (w0 & Hw0 & [= <-]). simpl in Hw0.
  destruct (tag_in_sets_none _ Htag) as [Hset Hfrozen].
  rewrite Hset, Hfrozen in Hw0.
  apply bind_ok in Hw0 as (res & Hres & [= <-]). simpl.
  assert (Hk : StorageFormat.restore_key (KStr s) = Ok (KStr s)).
  { simpl. now rewrite replace_unchanged. }
  pose proof (rebuild_contains _ _ _ _ _ _ _ _ Hres (dict_get_in _ _ _ Hget) Hk)
    as Hin.
  apply dict_contains_get in Hin as [v' Hv'].
  destruct (rebuild_get_inv _ _ _ _ _ _ _ Hres Hv')
    as [Hnil | (k2 & v2 & Hin2 & Hk2 & Hv2)]; [discriminate|].
  assert (k2 = KStr s).
  { destruct k2 as [s2| | | | |]; simpl in Hk2; try discriminate.
    injection Hk2 as Hk2. f_equal. now apply replace_to_free in Hk2. }
  subst k2. rewrite (dict_get_nodup _ _ _ Hnd Hin2) in Hget.
  injection Hget as ->.
  exists v'. rewrite Hv2. auto.
Qed.

Lemma load_keeps_dot_free_keys_witness :
  exists v',
    load Sample.env (VList [VInt 1]) = Ok v'
    /\ dict_get (KStr (lit "_id"))
         (items_of (VDict false [(KStr (lit "a.b"), VNone);
                                 (KStr (lit "_id"), VList [VInt 1])]))
       = Some v'.
Proof.
  apply (load_keeps_dot_free_keys Sample.env false
           [(KStr [97; 65294; 98]%N, VNone); (KStr (lit "_id"), VList [VInt 1])]
           (lit "_id") (VList [VInt 1])).
  - repeat constructor; simpl; intuition discriminate.
  - reflexivity.
  - reflexivity.
  - reflexivity.
  - reflexivity.
  - reflexivity.
Defined.

Lemma In_Forall2_map_left {A B C} (g : A -> B) (R : B -> C -> Prop) l l' x :
  Forall2 R (List.map g l) l' -> In x l -> exists y, In y l' /\ R (g x) y.
Proof.
  intros H Hin. apply (Forall2_In_left _ _ _ (g x) H). now apply in_map.
Qed.

Lemma uint_digits_underscore_free d :
  contains 95 (lit (NilEmpty.string_of_uint d)) = false.
Proof. induction d; simpl; auto. Qed.

(** The digits of an integer are not "_type". *)
Lemma of_Z_not_type n : of_Z n <> s_type.
Proof.
  assert (H : contains 95 (of_Z n) = false).
  { unfold of_Z. destruct (Z.to_int n) as [d|d]; simpl.
    - destruct d; try reflexivity; apply (uint_digits_underscore_free (_ d)).
    - destruct d; try reflexivity; apply (uint_digits_underscore_free (_ d)). }
  intros Heq. rewrite Heq in H. discriminate.
Qed.

(** Only "_type" is stored under "_type". *)
Lemma map_key_type k :
  WorkingFormat.map_key k = KStr s_type -> k = KStr s_type.
Proof.
  destruct k as [s|label|n| |b|neg whole fraction]; intros Hk.
  - rewrite map_key_str in Hk. injection Hk as Hk.
    f_equal. now apply replace_to_free in Hk.
  - simpl in Hk. injection Hk as Hk. destruct label; discriminate.
  - simpl in Hk. injection Hk as Hk. now apply of_Z_not_type in Hk.
  - discriminate.
  - now destruct b.
  - simpl in Hk. injection Hk as Hk. exfalso.
    assert (H : contains dot s_type = true).
    { rewrite <- Hk. unfold of_float. rewrite !contains_app. simpl.
      now rewrite !orb_true_r. }
    discriminate.
Qed.

(** Among pairwise distinct keys, the last item under a key is the only
    one. *)
Lemma find_rev_unique {A} (p : key * A -> bool) (d : list (key * A)) k :
  (forall kv, In kv d -> p kv = key_eqb (fst kv) k) ->
  NoDup (dict_keys d) ->
  find p (rev d) = match dict_get k d with
                   | Some v => Some (k, v)
                   | None => None
                   end.
Proof.
  induction d as [|[k0 v0] d IH]; simpl; intros Hp Hnd; [reflexivity|].
  inversion Hnd as [|? ? Hnotin Hnd']; subst.
  rewrite find_app_first, IH by auto. simpl.
  rewrite (Hp (k0, v0)) by now left. simpl.
  destruct (key_eqb k0 k) eqn:Hk.
  - apply key_eqb_eq in Hk. subst k0.
    destruct (dict_get k d) as [v|] eqn:Hget; [|reflexivity].
    exfalso. apply Hnotin. apply dict_contains_keys.
    apply dict_contains_get. eauto.
  - now destruct (dict_get k d).
Qed.

Lemma rebuild_total_get_last fk f d : forall res k',
  dict_get k' (rebuild_total fk f d res)
  = match find (fun kv => key_eqb (fk (fst kv)) k') (rev d) with
    | Some kv => Some (f (snd kv))
    | None => dict_get k' res
    end.
Proof.
  induction d as [|[k v] d IH]; simpl; intros res k'; [reflexivity|].
  rewrite IH, find_app_first, dict_get_set. simpl.
  destruct (find _ (rev d)); [reflexivity|].
  now destruct (key_eqb (fk k) k').
Qed.

(** The stored form of a mapping is tagged as the mapping is. *)
Lemma stored_tag_is t d :
  NoDup (dict_keys d) ->
  tag_is t (rebuild_total WorkingFormat.map_key
              WorkingFormat.to_storage_format_walk d [])
  = tag_is t d.
Proof.
  intros Hnd. unfold tag_is. rewrite rebuild_total_get_last.
  rewrite (find_rev_unique _ d (KStr s_type)); [| | exact Hnd].
  - destruct (dict_get (KStr s_type) d); simpl; [apply str_is_stored | reflexivity].
  - intros [k v] _. simpl.
    destruct (key_eqb (WorkingFormat.map_key k) (KStr s_type)) eqn:Hk.
    + apply key_eqb_eq, map_key_type in Hk. subst k. symmetry. apply key_eqb_refl.
    + symmetry. apply key_eqb_neq. intros ->. now rewrite key_eqb_refl in Hk.
Qed.

Lemma stored_mapping_unhashable h d :
  NoDup (dict_keys d) -> tag_is s_frozenset d = false ->
  loads_unhashable (store (VDict h d)) = true.
Proof.
  intros Hnd Htag. unfold store, get, WorkingFormat.to_storage_format. simpl.
  now rewrite (stored_tag_is _ d Hnd), Htag.
Qed.

(** What [load] makes of a stored set with an element that loads to an
    unhashable value. *)
Lemma stored_set_raises (E : pyenv) (l : list value) (x : value) :
  In x l -> loads_unhashable (store x) = true ->
  raises (load E (store (VSet l)))
  /\ raises (load E (store (VFrozenset l)))
  /\ ((forall y, In y l -> exists w, load E (store y) = Ok w) ->
      load E (store (VSet l)) = Raise TypeError
      /\ load E (store (VFrozenset l)) = Raise TypeError).
Proof.
  unfold load, store, get, StorageFormat.to_working_format,
    WorkingFormat.to_storage_format.
  intros Hin Hx.
  set (stored := List.map WorkingFormat.to_storage_format_walk l).
  assert (Hset : StorageFormat.to_working_format_walk E
                   (WorkingFormat.to_storage_format_walk (VSet l))
                 = (ws <- map_result (StorageFormat.to_working_format_walk E) stored ;;
                    s <- build_set E ws ;; Ok (VSet s))).
  { change (WorkingFormat.to_storage_format_walk (VSet l))
      with (set_mapping s_set stored).
    unfold set_mapping. simpl.
    change (tag_is s_set [(KStr s_type, VStr s_set); (KStr s_value, VList stored)])
      with true. cbv iota.
    change (getitem_with (StorageFormat.to_working_format_walk E) (KStr s_value)
              [(KStr s_type, VStr s_set); (KStr s_value, VList stored)])
      with (StorageFormat.to_working_format_walk E (VList stored)).
    simpl. now destruct (map_result _ stored). }
  assert (Hfrozen : StorageFormat.to_working_format_walk E
                      (WorkingFormat.to_storage_format_walk (VFrozenset l))
                    = (ws <- map_result (StorageFormat.to_working_format_walk E) stored ;;
                       s <- build_set E ws ;; Ok (VFrozenset s))).
  { change (WorkingFormat.to_storage_format_walk (VFrozenset l))
      with (set_mapping s_frozenset stored).
    unfold set_mapping. simpl.
    change (tag_is s_set [(KStr s_type, VStr s_frozenset); (KStr s_value, VList stored)])
      with false.
    change (tag_is s_frozenset
              [(KStr s_type, VStr s_frozenset); (KStr s_value, VList stored)])
      with true. cbv iota.
    change (getitem_with (StorageFormat.to_working_format_walk E) (KStr s_value)
              [(KStr s_type, VStr s_frozenset); (KStr s_value, VList stored)])
      with (StorageFormat.to_working_format_walk E (VList stored)).
    simpl. now destruct (map_result _ stored). }
  assert (Hbuild : forall ws,
            map_result (StorageFormat.to_working_format_walk E) stored = Ok ws ->
            build_set E ws = Raise TypeError).
  { intros ws Hws. apply map_result_ok in Hws. unfold build_set.
    destruct (In_Forall2_map_left _ _ l ws x Hws Hin) as (y & Hy & Hxy).
    now rewrite (forallb_false_In _ _ y Hy (load_unhashable E _ y Hxy Hx)). }
  rewrite Hset, Hfrozen.
  destruct (map_result (StorageFormat.to_working_format_walk E) stored)
    as [ws|e] eqn:Hws.
  - simpl. rewrite (Hbuild ws eq_refl). simpl.
    split; [now exists TypeError|]. split; [now exists TypeError|]. auto.
  - simpl. split; [now exists e|]. split; [now exists e|].
    intros Hall. exfalso.
    destruct (map_result_total (StorageFormat.to_working_format_walk E) stored)
      as [ws Hws'].
    { intros y (y0 & <- & Hy0)%in_map_iff. destruct (Hall y0 Hy0) as [w Hw].
      apply bind_ok in Hw as (w1 & Hw1 & _). eauto. }
    congruence.
Qed.


(** A set or frozenset that holds a mapping does not survive storage:
    [store] writes the element as a plain mapping, which [load] cannot put
    into a set again.  So for a Working set one of whose elements is
    stored as a list or as a mapping other than a stored frozenset,
    [load] of what [store] returned raises, [TypeError] when the elements
    load; and every mapping that is not tagged "frozenset" (a [hashdict],
    such as the mapping of a path, is the mapping a set can hold) is such
    an element. *)
Theorem sets_of_mappings_do_not_survive_storage (E : pyenv) (l : list value)
    (x : value) :
  In x l -> loads_unhashable (store x) = true ->
  raises (load E (store (VSet l)))
  /\ raises (load E (store (VFrozenset l)))
  /\ ((forall y, In y l -> exists w, load E (store y) = Ok w) ->
      load E (store (VSet l)) = Raise TypeError
      /\ load E (store (VFrozenset l)) = Raise TypeError)
  /\ (forall h d,
      NoDup (dict_keys d) -> tag_is s_frozenset d = false ->
      loads_unhashable (store (VDict h d)) = true).
Proof.
  intros Hin Hx.
  destruct (stored_set_raises E l x Hin Hx) as (Hset & Hfrozen & Hexact).
  split; [exact Hset|]. split; [exact Hfrozen|]. split; [exact Hexact|].
  intros h d Hnd Htag. now apply stored_mapping_unhashable.
Qed.

(** [{Path("/x/y") as its mapping}] *)
Lemma sets_of_mappings_do_not_survive_storage_witness :
  load Sample.env (store (VSet [path_mapping Sample.env (lit "/x/y")]))
  = Raise TypeError.
Proof.
  apply (sets_of_mappings_do_not_survive_storage Sample.env
           [path_mapping Sample.env (lit "/x/y")]
           (path_mapping Sample.env (lit "/x/y"))).
  - simpl. auto.
  - reflexivity.
  - intros y [<- | []]. eexists. reflexivity.
Defined.

(** ** Storing: idempotence, colliding keys *)

Lemma rebuild_total_keys_NoDup fk f d : forall res,
  NoDup (dict_keys res) -> NoDup (dict_keys (rebuild_total fk f d res)).
Proof.
  induction d as [|[k v] d IH]; simpl; intros res Hres; auto.
  apply IH. now apply dict_set_keys_NoDup.
Qed.

(** A key the database accepts is stored as it is. *)
Lemma storage_key_map_key k :
  storage_key k = true -> WorkingFormat.map_key k = k.
Proof.
  destruct k as [s| | | | |]; simpl; try discriminate.
  intros Hs%negb_true_iff. now rewrite Hs.
Qed.

Lemma map_fixed {A} (g : A -> A) l :
  Forall (fun x => g x = x) l -> List.map g l = l.
Proof. induction 1; simpl; congruence. Qed.

Lemma store_stored_shape w :
  labels_dot_free w = true ->
  stored_shape (WorkingFormat.to_storage_format_walk w) = true.
Proof.
  induction w as [|b|n|s|yr mo dy|lab|p|l IH|h d IH|l IH|l IH|c fs IH] using value_ind;
    simpl; intros Hw; try reflexivity.
  - apply forallb_map_true. apply forallb_Forall in Hw.
    rewrite Forall_forall in *. auto.
  - apply andb_true_iff. split.
    + apply forallb_Forall. apply rebuild_total_Forall; [|constructor].
      intros k v Hin. apply forallb_Forall in Hw.
      rewrite Forall_forall in IH, Hw.
      specialize (IH _ Hin). specialize (Hw _ Hin). simpl in *.
      apply andb_true_iff in Hw as [Hk Hv].
      now rewrite (map_key_storage_key _ Hk), (IH Hv).
    + apply nodupb_NoDup. apply rebuild_total_keys_NoDup. constructor.
  - rewrite forallb_map_true; [reflexivity|]. apply forallb_Forall in Hw.
    rewrite Forall_forall in *. auto.
  - rewrite forallb_map_true; [reflexivity|]. apply forallb_Forall in Hw.
    rewrite Forall_forall in *. auto.
Qed.

Lemma store_fixed s :
  stored_shape s = true -> WorkingFormat.to_storage_format_walk s = s.
Proof.
  induction s as [|b|n|s|yr mo dy|lab|p|l IH|h d IH|l IH|l IH|c fs IH] using value_ind;
    simpl; intros Hs; try reflexivity; try discriminate.
  - f_equal. apply map_fixed. apply forallb_Forall in Hs.
    rewrite Forall_forall in *. auto.
  - apply andb_true_iff in Hs as [Hs Hnd].
    apply andb_true_iff in Hs as [Hh Hs].
    apply negb_true_iff in Hh. subst h.
    apply nodupb_NoDup in Hnd. apply forallb_Forall in Hs.
    assert (Hkeys : List.map WorkingFormat.map_key (dict_keys d) = dict_keys d).
    { apply map_fixed. unfold dict_keys. apply Forall_map.
      rewrite Forall_forall in *. intros kv Hin. specialize (Hs _ Hin).
      apply andb_true_iff in Hs as [Hk _]. now apply storage_key_map_key. }
    rewrite rebuild_total_pointwise; [| now rewrite Hkeys | reflexivity].
    simpl. f_equal. apply map_fixed. rewrite Forall_forall in *.
    intros [k v] Hin. specialize (IH _ Hin). specialize (Hs _ Hin).
    simpl in *. apply andb_true_iff in Hs as [Hk Hv].
    now rewrite (storage_key_map_key _ Hk), (IH Hv).
Qed.

Lemma escaped_differs t :
  contains dot t = true -> replace dot fullwidth_dot t <> t.
Proof.
  intros Hdot Heq.
  assert (H : contains dot (replace dot fullwidth_dot t) = false)
    by (apply replace_removes; discriminate).
  rewrite Heq in H. congruence.
Qed.



Lemma rebuild_total_keys_incl fk f d :
  incl (dict_keys (rebuild_total fk f d [])) (List.map fk (dict_keys d)).
Proof.
  intros k Hk.
  assert (H : Forall (fun kv : key * value => In (fst kv) (List.map fk (dict_keys d)))
                (rebuild_total fk f d [])).
  { apply rebuild_total_Forall; [|constructor].
    intros k0 v0 Hin. simpl. apply in_map. unfold dict_keys.
    change k0 with (fst (k0, v0)). now apply in_map. }
  rewrite Forall_forall in H. unfold dict_keys in Hk.
  apply in_map_iff in Hk as (kv & <- & Hkv). now apply H.
Qed.

Lemma rebuild_total_keys_all fk f d :
  incl (List.map fk (dict_keys d)) (dict_keys (rebuild_total fk f d [])).
Proof.
  intros k' Hk'. apply in_map_iff in Hk' as (k & <- & Hk).
  unfold dict_keys in Hk. apply in_map_iff in Hk as ([k0 v] & <- & Hin).
  apply dict_contains_keys. simpl. now apply rebuild_total_contains with v.
Qed.

(** Keys that [map_key] sends to the same string collide in [store]: the
    stored mapping has, under a key, the stored value of the last item
    sent to that key; it has at most as many items as the mapping, and as
    many exactly when no two keys collide.  An integer key and the string
    of its digits collide. *)
Theorem store_keeps_the_last_of_colliding_keys (h : bool) (d : items) :
  (forall k',
      dict_get k' (items_of (store (VDict h d)))
      = option_map (fun kv => store (snd kv)) (last_mapped d k'))
  /\ length (items_of (store (VDict h d))) <= length d
  /\ (length (items_of (store (VDict h d))) = length d
      <-> NoDup (List.map WorkingFormat.map_key (dict_keys d)))
  /\ (forall n v1 v2,
      store (VDict h [(KInt n, v1); (KStr (of_Z n), v2)])
      = VDict false [(KStr (of_Z n), store v2)]).
Proof.
  unfold store, get, WorkingFormat.to_storage_format. simpl.
  set (res := rebuild_total WorkingFormat.map_key
                WorkingFormat.to_storage_format_walk d []).
  assert (Hnd : NoDup (dict_keys res))
    by (apply rebuild_total_keys_NoDup; constructor).
  assert (Hlen : length (List.map WorkingFormat.map_key (dict_keys d)) = length d)
    by (unfold dict_keys; now rewrite !length_map).
  assert (Hres : length res = length (dict_keys res))
    by (unfold dict_keys; now rewrite length_map).
  split; [|split; [|split]].
  - intros k'. unfold res, last_mapped. rewrite rebuild_total_get_last.
    now destruct (find _ (rev d)).
  - rewrite Hres, <- Hlen.
    apply NoDup_incl_length; [exact Hnd | apply rebuild_total_keys_incl].
  - split.
    + intros Heq. apply (@NoDup_incl_NoDup _ (dict_keys res)); [exact Hnd | |].
      * rewrite Hlen, <- Hres, Heq. apply Nat.le_refl.
      * apply rebuild_total_keys_incl.
    + intros Hkeys. unfold res.
      rewrite rebuild_total_pointwise; [| exact Hkeys | reflexivity].
      simpl. now rewrite length_map.
  - intros n v1 v2. simpl.
    pose proof (of_Z_dot_free n) as Hn. rewrite Hn.
    unfold dict_set. now rewrite key_eqb_refl.
Qed.
(** ** Symbol keys through [store] and [load] *)

Lemma rebuild_total_ext (fk : key -> key) (f : value -> value)
    (g : key * value -> key * value) d :
  Forall (fun kv => fk (fst (g kv)) = fk (fst kv) /\ f (snd (g kv)) = f (snd kv)) d ->
  forall res, rebuild_total fk f (List.map g d) res = rebuild_total fk f d res.
Proof.
  induction 1 as [|[k v] d [Hk Hv] _ IH]; simpl; intros res; [reflexivity|].
  destruct (g (k, v)) as [k' v'] eqn:Hg. simpl in Hk, Hv.
  now rewrite Hk, Hv, IH.
Qed.

Lemma bracketed_dot_free label :
  contains dot label = false -> contains dot (bracketed label) = false.
Proof.
  intros H. unfold bracketed. now rewrite !contains_app, H.
Qed.

(** A key without a "." in what is written for it is stored like the
    string written for it. *)
Lemma map_key_written k :
  label_dot_free k = true ->
  WorkingFormat.map_key (KStr (written k)) = WorkingFormat.map_key k.
Proof.
  destruct k as [s|label|n| |b|neg whole fraction]; simpl written;
    intros Hk; try reflexivity.
  - simpl in Hk. apply negb_true_iff in Hk.
    unfold WorkingFormat.map_key at 1.
    now rewrite (bracketed_dot_free label Hk).
  - unfold WorkingFormat.map_key at 1. now rewrite of_Z_dot_free.
  - now destruct b.
  - discriminate.
Qed.

Lemma store_as_written_walk w :
  labels_dot_free w = true ->
  WorkingFormat.to_storage_format_walk (as_written w)
  = WorkingFormat.to_storage_format_walk w.
Proof.
  assert (Hlist : forall l,
            Forall (fun w => labels_dot_free w = true ->
                      WorkingFormat.to_storage_format_walk (as_written w)
                      = WorkingFormat.to_storage_format_walk w) l ->
            forallb labels_dot_free l = true ->
            List.map WorkingFormat.to_storage_format_walk (List.map as_written l)
            = List.map WorkingFormat.to_storage_format_walk l).
  { intros l IH Hl. rewrite map_map. apply map_ext_in. intros x Hx.
    rewrite Forall_forall in IH. rewrite forallb_forall in Hl. auto. }
  induction w as [|b|n|s|yr mo dy|lab|p|l IH|h d IH|l IH|l IH|c fs IH] using value_ind;
    intros Hw; try reflexivity.
  - cbn [as_written WorkingFormat.to_storage_format_walk].
    now rewrite (Hlist l IH Hw).
  - cbn [as_written WorkingFormat.to_storage_format_walk].
    f_equal. apply rebuild_total_ext. simpl in Hw.
    rewrite Forall_forall in *. rewrite forallb_forall in Hw.
    intros [k v] Hin. specialize (IH _ Hin). specialize (Hw _ Hin).
    simpl in *. apply andb_true_iff in Hw as [Hk Hv].
    split; [now apply map_key_written | now apply IH].
  - cbn [as_written WorkingFormat.to_storage_format_walk].
    now rewrite (Hlist l IH Hw).
  - cbn [as_written WorkingFormat.to_storage_format_walk].
    now rewrite (Hlist l IH Hw).
Qed.

(** C8.  [map_key] renders a [Symbol] key as the bracketed string
    "__<label>__", and [store] applies it to every key of every mapping
    it meets, in lists, mappings, sets and frozensets alike (the
    equations of the walker; a mapping is stored item by item, the last
    item sent to a key winning).  Neither the stored document nor
    whatever [load] makes of it has a [Symbol] key anywhere, so a
    document with a [Symbol] key is never what the round trip returns.
    When no label has a "." (and no key is a float), a document is stored
    like the document with every key replaced by the string written for
    it, and when that one is a Working document of the round trip, the
    round trip returns it, up to the iteration order of sets: every
    [Symbol] key, at any depth, comes back as the bracketed string, an
    ordinary string key. *)
Theorem symbol_keys_are_not_restored (E : pyenv) :
  set_order_ok E ->
  (forall label, WorkingFormat.map_key (KSym label) = KStr (bracketed label))
  /\ (forall h d,
        NoDup (List.map WorkingFormat.map_key (dict_keys d)) ->
        store (VDict h d)
        = VDict false (List.map (fun kv => (WorkingFormat.map_key (fst kv),
                                             store (snd kv))) d))
  /\ (forall h d k v, In (k, v) d ->
        exists k0 v0,
          last_mapped d (WorkingFormat.map_key k) = Some (k0, v0)
          /\ dict_get (WorkingFormat.map_key k) (items_of (store (VDict h d)))
             = Some (store v0))
  /\ (forall l, store (VList l) = VList (List.map store l))
  /\ (forall l, store (VSet l) = set_mapping s_set (List.map store l))
  /\ (forall l, store (VFrozenset l) = set_mapping s_frozenset (List.map store l))
  /\ (forall w, symbol_free (store w) = true)
  /\ (forall w w', load E (store w) = Ok w' -> symbol_free w' = true)
  /\ (forall w, symbol_free w = false -> load E (store w) <> Ok w)
  /\ (forall w, labels_dot_free w = true -> store (as_written w) = store w)
  /\ (forall w,
        labels_dot_free w = true -> working_doc E (as_written w) = true ->
        exists w', load E (store w) = Ok w' /\ working_equiv (as_written w) w').
Proof.
  intros Hord.
  assert (Hload : forall w w', load E (store w) = Ok w' -> symbol_free w' = true).
  { intros w w' Hw. unfold load, StorageFormat.to_working_format in Hw.
    apply bind_ok in Hw as (r & Hr & [= <-]).
    eapply load_symbol_free; eauto. apply store_storage_shaped. }
  split; [reflexivity|].
  split; [|split; [|split; [|split; [|split; [|split; [|split; [|split; [|split]]]]]]]].
  - intros h d Hnd. unfold store, get, WorkingFormat.to_storage_format. simpl.
    now rewrite rebuild_total_pointwise.
  - intros h d k v Hin. unfold store, get, WorkingFormat.to_storage_format.
    simpl. rewrite rebuild_total_get_last. unfold last_mapped.
    destruct (find (fun kv => key_eqb (WorkingFormat.map_key (fst kv))
                                (WorkingFormat.map_key k)) (rev d))
      as [[k0 v0]|] eqn:Hfind.
    + exists k0, v0. split; reflexivity.
    + exfalso. apply in_rev in Hin.
      pose proof (find_none _ _ Hfind (k, v) Hin) as Hno. simpl in Hno.
      rewrite key_eqb_refl in Hno. discriminate.
  - reflexivity.
  - reflexivity.
  - reflexivity.
  - intros w. apply storage_shaped_symbol_free, store_storage_shaped.
  - exact Hload.
  - intros w Hw Hrt. apply Hload in Hrt. congruence.
  - intros w Hw. now apply store_as_written_walk.
  - intros w Hw Hdoc.
    destruct (load_store_equiv E Hord (as_written w) Hdoc) as (w' & Hw' & Heq).
    exists w'. split; [|exact Heq].
    unfold load, store, get, StorageFormat.to_working_format,
      WorkingFormat.to_storage_format.
    rewrite <- (store_as_written_walk w Hw). now rewrite Hw'.
Qed.

(** The difference [sample_diff] does not come back from the database:
    its symbols, which lie in two mappings, come back as "__delete__",
    "__insert__" and "__replace__". *)
Lemma symbol_keys_are_not_restored_witness :
  load Sample.env (store sample_diff) <> Ok sample_diff
  /\ exists w', load Sample.env (store sample_diff) = Ok w'
                /\ working_equiv (as_written sample_diff) w'.
Proof.
  destruct (symbol_keys_are_not_restored Sample.env sample_set_order_ok)
    as (_ & _ & _ & _ & _ & _ & _ & _ & Hnot & _ & Hback).
  split.
  - apply Hnot. reflexivity.
  - apply Hback; reflexivity.
Defined.

(** ** Encoding domain objects *)

(** Looking a key up in [{**d, **e}]. *)
Lemma dict_update_get {A} (e : list (key * A)) :
  NoDup (dict_keys e) ->
  forall d k,
    dict_get k (dict_update d e)
    = match dict_get k e with
      | Some v => Some v
      | None => dict_get k d
      end.
Proof.
  unfold dict_update.
  induction e as [|[k0 v0] e IH]; simpl; intros Hnd d k; [reflexivity|].
  inversion Hnd as [|? ? Hnotin Hnd']; subst.
  rewrite IH by assumption. rewrite dict_get_set.
  destruct (key_eqb k0 k) eqn:Hk; [|reflexivity].
  apply key_eqb_eq in Hk. subst k0.
  destruct (dict_get k e) as [v|] eqn:Hget; [|reflexivity].
  exfalso. apply Hnotin. apply dict_contains_keys.
  apply dict_contains_get. eauto.
Qed.

Lemma Forall_dict_update {A} (P : key * A -> Prop) (e : list (key * A)) :
  Forall P e -> forall d, Forall P d -> Forall P (dict_update d e).
Proof.
  unfold dict_update.
  induction 1 as [|[k v] e Hkv _ IH]; simpl; intros d Hd; [assumption|].
  apply IH. now apply Forall_dict_set.
Qed.

(** What the encoding of a domain object returns, once its fields are
    encoded into [fs']. *)
Lemma to_raw_object_any E c fs fs' :
  map_items (ObjFormat.to_raw_format_walk E) fs = Ok fs' ->
  ObjFormat.to_raw_format_walk E (VObj c fs)
  = Ok (VDict (match obj_hash E c fs with Some _ => true | None => false end)
          (dict_update (header E c fs) fs')).
Proof.
  intros Henc. simpl. rewrite Henc. unfold header.
  destruct (obj_hash E c fs) as [h|]; reflexivity.
Qed.

(** A field of a domain object named "_type" or "_hash" takes the place
    of the tag or of the hash: the emitted mapping is the header
    [{"_type": name, "_hash": h}] (without "_hash" for an unhashable
    instance) updated with the encoded fields, so that it has, under a
    key, the encoded field of that name if there is one, and the item of
    the header otherwise. *)
Theorem reserved_fields_override_the_tag (E : pyenv) (c : class_id)
    (fs fs' : items) :
  NoDup (dict_keys fs) ->
  map_items (ObjFormat.to_raw_format E) fs = Ok fs' ->
  exists hd out,
    ObjFormat.to_raw_format E (VObj c fs) = Ok (VDict hd out)
    /\ (forall k,
          dict_get k out = match dict_get k fs' with
                           | Some v => Some v
                           | None => dict_get k (header E c fs)
                           end)
    /\ (forall v, dict_get (KStr s_type) fs' = Some v ->
          dict_get (KStr s_type) out = Some v)
    /\ (dict_get (KStr s_type) fs' = None ->
          dict_get (KStr s_type) out = Some (VStr (cls_name E c))).
Proof.
  unfold ObjFormat.to_raw_format. intros Hnd Henc.
  change (map_items (ObjFormat.to_raw_format_walk E) fs = Ok fs') in Henc.
  assert (Hnd' : NoDup (dict_keys fs'))
    by now rewrite (map_items_keys _ _ _ Henc).
  eexists _, _. split; [apply to_raw_object_any; exact Henc|].
  assert (Hget : forall k,
            dict_get k (dict_update (header E c fs) fs')
            = match dict_get k fs' with
              | Some v => Some v
              | None => dict_get k (header E c fs)
              end)
    by (intros k; now apply dict_update_get).
  split; [exact Hget|]. split.
  - intros v Hv. now rewrite Hget, Hv.
  - intros Hv. rewrite Hget, Hv. unfold header.
    destruct (obj_hash E c fs); reflexivity.
Qed.

(** [Widget(_type="Gadget", n=3)] is emitted as a mapping tagged
    "Gadget". *)
Lemma reserved_fields_override_the_tag_witness :
  exists hd out,
    ObjFormat.to_raw_format Sample.env
      (VObj Sample.Widget [(KStr s_type, VStr (lit "Gadget")); (KStr (lit "n"), VInt 3)])
    = Ok (VDict hd out)
    /\ dict_get (KStr s_type) out = Some (VStr (lit "Gadget")).
Proof.
  destruct (reserved_fields_override_the_tag Sample.env Sample.Widget
              [(KStr s_type, VStr (lit "Gadget")); (KStr (lit "n"), VInt 3)]
              [(KStr s_type, VStr (lit "Gadget")); (KStr (lit "n"), VInt 3)])
    as (hd & out & Hrun & _ & Htag & _).
  - repeat constructor; simpl; intuition discriminate.
  - reflexivity.
  - exists hd, out. split; [exact Hrun | now apply Htag].
Defined.

Lemma map_items_raises f d k v :
  In (k, v) d -> raises (f v) -> raises (map_items f d).
Proof.
  induction d as [|[k0 v0] d IH]; simpl; [tauto|].
  intros [[= -> ->] | Hin] Hv.
  - now apply raises_bind.
  - destruct (f v0) as [b|e]; simpl; [|now exists e].
    apply raises_bind. now apply IH.
Qed.

Lemma to_raw_object_raises E c fs e :
  map_items (ObjFormat.to_raw_format_walk E) fs = Raise e ->
  ObjFormat.to_raw_format_walk E (VObj c fs) = Raise e.
Proof.
  intros Henc. simpl. rewrite Henc.
  destruct (obj_hash E c fs); [|reflexivity]. now destruct e.
Qed.

(** The handler of [TypeError] masks no failure of the encoding: when
    the encoding of the fields of a domain object raises, be it
    [TypeError], the encoding of the object raises the same exception;
    and when the encoding of a part of a document raises, so does the
    encoding of the document. *)
Theorem encoding_masks_no_exception (E : pyenv) :
  (forall c fs e,
      map_items (ObjFormat.to_raw_format E) fs = Raise e ->
      ObjFormat.to_raw_format E (VObj c fs) = Raise e)
  /\ (forall x doc,
      part_of x doc -> raises (ObjFormat.to_raw_format E x) ->
      raises (ObjFormat.to_raw_format E doc)).
Proof.
  unfold ObjFormat.to_raw_format. split.
  - intros c fs e Henc. now apply to_raw_object_raises.
  - intros x doc Hpart Hx.
    induction Hpart as [| l y Hin _ IH | l y Hin _ IH | l y Hin _ IH
                       | h d k v Hin _ IH | c fs k v Hin _ IH].
    + exact Hx.
    + simpl. apply raises_bind. now apply map_result_raises with y.
    + simpl. apply raises_bind. now apply set_of_map_raises with y.
    + simpl. apply raises_bind. now apply set_of_map_raises with y.
    + simpl. apply raises_bind. now apply map_items_raises with k v.
    + destruct (map_items_raises (ObjFormat.to_raw_format_walk E) fs k v Hin IH)
        as [e He].
      exists e. now apply to_raw_object_raises.
Qed.

(** A hashable [Widget] with a set of lists among its fields: the
    [TypeError] of the set is raised by the handler again. *)
Lemma encoding_masks_no_exception_witness :
  ObjFormat.to_raw_format Sample.env
    (VObj Sample.Widget [(KStr (lit "s"), VSet [VList []])])
  = Raise TypeError.
Proof.
  apply (encoding_masks_no_exception Sample.env).
  reflexivity.
Defined.

Lemma map_items_total f d :
  Forall (fun kv => exists r, f (snd kv) = Ok r) d ->
  exists d', map_items f d = Ok d'.
Proof.
  induction 1 as [|[k v] d [r Hr] _ [d' Hd']]; simpl.
  - now exists [].
  - simpl in Hr. exists ((k, r) :: d'). now rewrite Hr, Hd'.
Qed.

Lemma emitted_hashable E c fs fs' h :
  NoDup (dict_keys fs') ->
  dict_contains (KStr s_hash) fs' = false ->
  obj_hash E c fs = Some h ->
  hashable E (VDict true (dict_update (header E c fs) fs')) = true.
Proof.
  intros Hnd Hno Hh. simpl. unfold hashdict_hash.
  assert (Hget : dict_get (KStr s_hash) (dict_update (header E c fs) fs')
                 = Some (VInt h)).
  { rewrite dict_update_get by assumption.
    apply dict_contains_false in Hno. rewrite Hno.
    unfold header. now rewrite Hh. }
  assert (Hin : dict_contains (KStr s_hash) (dict_update (header E c fs) fs') = true)
    by (apply dict_contains_get; eauto).
  now rewrite Hin, (getitem_with_get _ _ _ _ Hget).
Qed.

Section Encoding.
Variable E : pyenv.
Hypothesis Hord : set_order_ok E.

Local Abbreviation enc := (ObjFormat.to_raw_format_walk E).

Lemma encodes_list l :
  Forall (encodes E) l -> forallb (encodable E) l = true ->
  exists l', Forall2 (fun x y => enc x = Ok y) l l'
             /\ (forallb (plain_hashable E) l = true ->
                 forallb (hashable E) l' = true).
Proof.
  induction 1 as [|x l Hx _ IH]; simpl; intros Hl.
  - exists []. split; [constructor | reflexivity].
  - apply andb_true_iff in Hl as [Hx1 Hl].
    destruct (Hx Hx1) as (y & Hy & Hhash).
    destruct (IH Hl) as (l' & Hl' & Hhash').
    exists (y :: l'). split; [now constructor|].
    intros [H1 H2]%andb_true_iff. simpl.
    now rewrite (Hhash H1), (Hhash' H2).
Qed.

Lemma encodes_items d :
  Forall (fun kv => encodes E (snd kv)) d ->
  forallb (fun kv => encodable E (snd kv)) d = true ->
  exists d', map_items enc d = Ok d'.
Proof.
  intros IH Hd. apply map_items_total. apply forallb_Forall in Hd.
  rewrite Forall_forall in *. intros kv Hin.
  destruct (IH _ Hin (Hd _ Hin)) as (r & Hr & _). eauto.
Qed.

Lemma encoding_total d : encodes E d.
Proof.
  induction d as [|b|n|s|yr mo dy|lab|p|l IH|h d IH|l IH|l IH|c fs IH] using value_ind;
    unfold encodes; intros Hd;
    try (eexists; split; [reflexivity | intros H; exact H]).
  - simpl in Hd. destruct (encodes_list l IH Hd) as (l' & Hl' & _).
    apply map_result_ok in Hl'. exists (VList l'). simpl. rewrite Hl'.
    split; [reflexivity | discriminate].
  - simpl in Hd. destruct (encodes_items d IH Hd) as (d' & Hd').
    exists (VDict false d'). simpl. rewrite Hd'.
    split; [reflexivity | discriminate].
  - simpl in Hd. apply andb_true_iff in Hd as [Hd Hhash].
    destruct (encodes_list l IH Hd) as (l' & Hl' & Hl'hash).
    assert (Hrun : set_of_map E enc l = Ok (set_elements E l')).
    { apply set_of_map_ok. exists l'. auto. }
    exists (VSet (set_elements E l')). simpl. rewrite Hrun.
    split; [reflexivity | discriminate].
  - simpl in Hd. apply andb_true_iff in Hd as [Hd Hhash].
    destruct (encodes_list l IH Hd) as (l' & Hl' & Hl'hash).
    assert (Hrun : set_of_map E enc l = Ok (set_elements E l')).
    { apply set_of_map_ok. exists l'. auto. }
    exists (VFrozenset (set_elements E l')). simpl. rewrite Hrun.
    split; [reflexivity|]. intros _.
    apply forallb_incl with l'; [|auto].
    intros y Hy. now apply set_elements_In with E.
  - simpl in Hd. apply andb_true_iff in Hd as [Hd Hfs].
    apply andb_true_iff in Hd as [Hnd Hno].
    apply nodupb_NoDup in Hnd. apply negb_true_iff in Hno.
    destruct (encodes_items fs IH Hfs) as (fs' & Hfs').
    pose proof (map_items_keys _ _ _ Hfs') as Hkeys.
    eexists. split; [apply to_raw_object_any; exact Hfs'|].
    simpl. destruct (obj_hash E c fs) as [h|] eqn:Hh; [|discriminate].
    intros _. apply emitted_hashable with h; auto.
    + now rewrite Hkeys.
    + apply not_true_iff_false. intros Hin.
      apply dict_contains_keys in Hin. rewrite Hkeys in Hin.
      apply dict_contains_keys in Hin. congruence.
Qed.

Lemma to_raw_obj_free d :
  forall r, enc d = Ok r -> obj_free r = true.
Proof.
  induction d as [|b|n|s|yr mo dy|lab|p|l IH|h d IH|l IH|l IH|c fs IH] using value_ind;
    intros r Hr; try (injection Hr as <-; reflexivity).
  - simpl in Hr. apply bind_ok in Hr as (l' & Hl' & [= <-]). simpl.
    apply map_result_ok in Hl'.
    apply (Forall2_forallb _ _ _ _ _ Hl' IH). intros x y _ Hx Hxy. eauto.
  - simpl in Hr. apply bind_ok in Hr as (d' & Hd' & [= <-]). simpl.
    apply map_items_ok in Hd'.
    apply (Forall2_forallb _ _ _ _ _ Hd' IH). intros x y _ Hx [_ Hxy]. eauto.
  - simpl in Hr. apply bind_ok in Hr as (s & Hs & [= <-]). simpl.
    apply set_of_map_ok in Hs as (l' & Hl' & _ & ->).
    apply forallb_incl with l'; [intros y Hy; now apply set_elements_In with E|].
    apply (Forall2_forallb _ _ _ _ _ Hl' IH). intros x y _ Hx Hxy. eauto.
  - simpl in Hr. apply bind_ok in Hr as (s & Hs & [= <-]). simpl.
    apply set_of_map_ok in Hs as (l' & Hl' & _ & ->).
    apply forallb_incl with l'; [intros y Hy; now apply set_elements_In with E|].
    apply (Forall2_forallb _ _ _ _ _ Hl' IH). intros x y _ Hx Hxy. eauto.
  - destruct (map_items enc fs) as [fs'|e] eqn:Hfs.
    + rewrite (to_raw_object_any E c fs fs' Hfs) in Hr. injection Hr as <-.
      simpl. apply forallb_Forall. apply Forall_dict_update.
      * apply forallb_Forall. apply map_items_ok in Hfs.
        apply (Forall2_forallb _ _ _ _ _ Hfs IH).
        intros x y _ Hx [_ Hxy]. eauto.
      * unfold header. destruct (obj_hash E c fs); repeat constructor.
    + rewrite (to_raw_object_raises E c fs e Hfs) in Hr. discriminate.
Qed.

End Encoding.

(** The encoding of an Object document never raises when the document is
    as Python builds it: sets and frozensets of hashable leaves, hashable
    domain objects and frozensets of such, and no field named "_hash". *)
Theorem encoding_never_raises (E : pyenv) (d : value) :
  set_order_ok E -> encodable E d = true ->
  exists r, ObjFormat.to_raw_format E d = Ok r.
Proof.
  intros Hord Hd. unfold ObjFormat.to_raw_format.
  destruct (encoding_total E Hord d Hd) as (r & Hr & _). eauto.
Qed.

Lemma encoding_never_raises_witness :
  exists r, ObjFormat.to_raw_format Sample.env sample_certificate = Ok r.
Proof.
  apply (encoding_never_raises Sample.env sample_certificate).
  - intros l. symmetry. apply Permutation_rev.
  - reflexivity.
Defined.

(** A Raw document holds no domain object: whatever the encoding of an
    Object document returns has mappings in the place of the
    instances. *)
Theorem raw_documents_hold_no_domain_object (E : pyenv) (d r : value) :
  set_order_ok E -> ObjFormat.to_raw_format E d = Ok r -> obj_free r = true.
Proof.
  intros Hord Hr. now apply (to_raw_obj_free E Hord d).
Qed.

Lemma raw_documents_hold_no_domain_object_witness :
  exists r,
    ObjFormat.to_raw_format Sample.env sample_certificate = Ok r
    /\ obj_free r = true.
Proof.
  eexists. split; [reflexivity|].
  apply (raw_documents_hold_no_domain_object Sample.env sample_certificate).
  - intros l. symmetry. apply Permutation_rev.
  - reflexivity.
Defined.

(** ** Decoding: tags that are not strings *)

(** A mapping whose converted "_type" is not a string: when that value is
    unhashable (a list, a set, a plain mapping) the membership test in
    the registry raises [TypeError]; when it is hashable and no domain
    object, the mapping is returned as a plain mapping. *)
Theorem tags_that_are_not_strings (E : pyenv) (reg : registry) (h : bool)
    (d res : items) (t : value) :
  map_items (RawFormat.to_obj_format_walk E reg) d = Ok res ->
  dict_get (KStr s_type) res = Some t ->
  is_string t = false ->
  (hashable E t = false ->
   RawFormat.to_obj_format_walk E reg (VDict h d) = Raise TypeError)
  /\ (hashable E t = true -> obj_free t = true ->
      RawFormat.to_obj_format_walk E reg (VDict h d) = Ok (VDict false res)).
Proof.
  intros Hres Hget Ht. simpl. rewrite Hres. simpl.
  unfold RawFormat.resolve, registry_contains. rewrite Hget.
  split.
  - intros ->. reflexivity.
  - intros -> _. destruct t; simpl in *; try reflexivity; discriminate.
Qed.

(** [{"_type": ["Widget"], "n": 3}] *)
Lemma tags_that_are_not_strings_witness :
  RawFormat.to_obj_format_walk Sample.env [(KStr (lit "Widget"), Sample.Widget)]
    (VDict false [(KStr s_type, VList [VStr (lit "Widget")]); (KStr (lit "n"), VInt 3)])
  = Raise TypeError.
Proof.
  apply (tags_that_are_not_strings Sample.env [(KStr (lit "Widget"), Sample.Widget)]
           false
           [(KStr s_type, VList [VStr (lit "Widget")]); (KStr (lit "n"), VInt 3)]
           [(KStr s_type, VList [VStr (lit "Widget")]); (KStr (lit "n"), VInt 3)]
           (VList [VStr (lit "Widget")])); reflexivity.
Defined.

(** ** The registry of classes with pairwise distinct names *)

Lemma build_registry_distinct E classes : forall acc,
  NoDup (List.map (cls_name E) classes) ->
  (forall c, In c classes -> dict_contains (KStr (cls_name E c)) acc = false) ->
  fold_left (fun acc c => dict_set (KStr (cls_name E c)) c acc) classes acc
  = acc ++ List.map (registry_entry E) classes.
Proof.
  induction classes as [|c classes IH]; simpl; intros acc Hnd Hfresh.
  - now rewrite app_nil_r.
  - inversion Hnd as [|? ? Hnotin Hnd']; subst.
    rewrite dict_set_fresh by auto.
    rewrite IH; [now rewrite <- app_assoc | assumption |].
    intros c' Hc'. rewrite dict_contains_app. simpl. rewrite orb_false_r.
    rewrite Hfresh by auto. simpl.
    apply key_eqb_neq. intros [= Heq]. apply Hnotin. rewrite Heq.
    now apply in_map.
Qed.

(** When the subclasses have pairwise distinct names, the registry lists
    them in the order of [__subclasses__()], each under its name, and
    every subclass is resolved by its own name; conversely, pairwise
    distinct subclasses that are all resolved by their names have pairwise
    distinct names. *)
Theorem distinct_names_register_every_class (E : pyenv) :
  NoDup (subclasses E) ->
  (NoDup (List.map (cls_name E) (subclasses E)) ->
   fst (serializable_complex_types E None)
   = List.map (registry_entry E) (subclasses E))
  /\ (NoDup (List.map (cls_name E) (subclasses E))
      <-> forall c, In c (subclasses E) ->
            dict_get (KStr (cls_name E c)) (fst (serializable_complex_types E None))
            = Some c).
Proof.
  intros Hclasses. simpl. unfold build_registry.
  assert (Hlist : NoDup (List.map (cls_name E) (subclasses E)) ->
            fold_left (fun acc c => dict_set (KStr (cls_name E c)) c acc)
              (subclasses E) []
            = List.map (registry_entry E) (subclasses E)).
  { intros Hnd. now rewrite build_registry_distinct. }
  split; [exact Hlist|]. split.
  - intros Hnd c Hc. rewrite Hlist by assumption.
    apply dict_get_nodup.
    + unfold dict_keys. rewrite map_map. simpl.
      rewrite <- (map_map (cls_name E) KStr).
      apply Finite.Injective_map_NoDup; [|assumption].
      intros a b [= Hab]. exact Hab.
    + change (KStr (cls_name E c), c) with (registry_entry E c).
      now apply in_map.
  - intros Hall. apply NoDup_map_NoDup_ForallPairs; [|assumption].
    intros a b Ha Hb Hab.
    pose proof (Hall a Ha) as Hga. pose proof (Hall b Hb) as Hgb.
    rewrite Hab in Hga. congruence.
Qed.

Lemma distinct_names_register_every_class_witness :
  fst (serializable_complex_types Sample.env None)
  = [(KStr (lit "Widget"), Sample.Widget); (KStr (lit "Gadget"), Sample.Gadget)].
Proof.
  apply (distinct_names_register_every_class Sample.env).
  - repeat constructor; simpl; intuition discriminate.
  - repeat constructor; simpl; intuition discriminate.
Defined.

(** ** JSON export and loading of plain data *)

Lemma bind_Ok {A} (r : result A) : bind r (fun a => Ok a) = r.
Proof. now destruct r. Qed.

Lemma map_result_ext_in {A B} (f g : A -> result B) l :
  Forall (fun x => f x = g x) l -> map_result f l = map_result g l.
Proof. induction 1 as [|x l Hx _ IH]; simpl; [reflexivity | now rewrite Hx, IH]. Qed.

Lemma rebuild_ext_in fk f g d :
  Forall (fun kv => f (snd kv) = g (snd kv)) d ->
  forall res, rebuild fk f d res = rebuild fk g d res.
Proof.
  induction 1 as [|[k v] d Hx _ IH]; simpl; intros res; [reflexivity|].
  simpl in Hx. rewrite Hx. destruct (g v); simpl; [|reflexivity].
  destruct (fk k); simpl; [apply IH | reflexivity].
Qed.

Lemma In_dict_contains {A} k (v : A) d : In (k, v) d -> dict_contains k d = true.
Proof.
  intros Hin. apply dict_contains_keys. unfold dict_keys.
  change k with (fst (k, v)). now apply in_map.
Qed.

(** No other key than "_hash" is restored to "_hash". *)
Lemma rebuild_no_hash f d res :
  dict_contains (KStr s_hash) d = false ->
  rebuild StorageFormat.restore_key f d [] = Ok res ->
  dict_contains (KStr s_hash) res = false.
Proof.
  intros Hno Hrun. apply not_true_iff_false. intros Hin.
  apply dict_contains_get in Hin as [v' Hv'].
  destruct (rebuild_get_inv _ _ _ _ _ _ _ Hrun Hv')
    as [Hnil | (k & v & Hin & Hk & _)]; [discriminate|].
  destruct k as [s| | | | |]; simpl in Hk; try discriminate.
  injection Hk as Hk. apply replace_to_free in Hk; [|reflexivity]. subst s.
  apply In_dict_contains in Hin. congruence.
Qed.

Lemma to_json_plain_data E d :
  plain_data d = true ->
  StorageFormat.to_json_mapping_walk d = StorageFormat.to_working_format_walk E d.
Proof.
  induction d as [|b|n|s|yr mo dy|lab|p|l IH|h d IH|l IH|l IH|c fs IH] using value_ind;
    simpl; intros Hd; try reflexivity; try discriminate.
  - apply forallb_Forall in Hd.
    rewrite (map_result_ext_in StorageFormat.to_json_mapping_walk
               (StorageFormat.to_working_format_walk E) l); [reflexivity|].
    rewrite Forall_forall in *. auto.
  - apply andb_true_iff in Hd as [Hd Hvals].
    apply andb_true_iff in Hd as [Hd Hhash].
    apply andb_true_iff in Hd as [Hsets Hpath].
    apply negb_true_iff in Hsets, Hpath, Hhash.
    rewrite Hsets, Hpath. destruct (tag_in_sets_none _ Hsets) as [-> ->].
    apply forallb_Forall in Hvals.
    rewrite (rebuild_ext_in StorageFormat.restore_key
               StorageFormat.to_json_mapping_walk
               (StorageFormat.to_working_format_walk E) d).
    + destruct (rebuild _ _ d []) as [res|e] eqn:Hres; simpl; [|reflexivity].
      now rewrite (rebuild_no_hash _ d res Hhash Hres).
    + rewrite Forall_forall in *. auto.
Qed.

(** On plain data (lists, leaves other than dates, and mappings that are
    not tagged "set", "frozenset" or "Path" and have no "_hash" key) the
    JSON export is what [load] returns, an exception included. *)
Theorem json_mapping_agrees_with_load (E : pyenv) (d : value) :
  plain_data d = true -> StorageFormat.to_json_mapping d = load E d.
Proof.
  unfold load, get, StorageFormat.to_json_mapping, StorageFormat.to_working_format.
  rewrite bind_Ok. apply to_json_plain_data.
Qed.

Lemma json_mapping_agrees_with_load_witness :
  StorageFormat.to_json_mapping
    (VDict false [(KStr [97; 65294; 98]%N, VList [VInt 1; VNone]);
                  (KStr s_type, VStr (lit "Widget"))])
  = load Sample.env
      (VDict false [(KStr [97; 65294; 98]%N, VList [VInt 1; VNone]);
                    (KStr s_type, VStr (lit "Widget"))]).
Proof.
  apply (json_mapping_agrees_with_load Sample.env
           (VDict false [(KStr [97; 65294; 98]%N, VList [VInt 1; VNone]);
                         (KStr s_type, VStr (lit "Widget"))])).
  reflexivity.
Defined.

(** ** Raw -> Working -> Raw *)

(** A string is converted from that string only. *)
Lemma to_working_str_is E t v v' :
  RawFormat.to_working_format_walk E v = Ok v' ->
  str_is t v' = true -> str_is t v = true.
Proof.
  destruct v; simpl; intros Hv Ht; try (injection Hv as <-; exact Ht).
  - apply bind_ok in Hv as (l' & _ & [= <-]). discriminate.
  - apply bind_ok in Hv as (d' & _ & [= <-]). discriminate.
  - apply bind_ok in Hv as (s & _ & [= <-]). discriminate.
  - apply bind_ok in Hv as (s & _ & [= <-]). discriminate.
Qed.

Lemma map_items_tag_is f t d d' :
  (forall v v', f v = Ok v' -> str_is t v' = true -> str_is t v = true) ->
  map_items f d = Ok d' -> tag_is t d = false -> tag_is t d' = false.
Proof.
  intros Hstr Hd' Htag. unfold tag_is in *.
  pose proof (map_items_get f d d' (KStr s_type) Hd') as Hget.
  destruct (dict_get (KStr s_type) d) as [v|].
  - destruct Hget as (v' & -> & Hv').
    apply not_true_iff_false. intros H. apply (Hstr _ _ Hv') in H. congruence.
  - now rewrite Hget.
Qed.

(** The hashdict flag of a mapping does not matter to the conversions. *)
Lemma to_working_plain E r :
  RawFormat.to_working_format_walk E (plain r) = RawFormat.to_working_format_walk E r.
Proof.
  induction r as [|b|n|s|yr mo dy|lab|p|l IH|h d IH|l IH|l IH|c fs IH] using value_ind;
    simpl; try reflexivity.
  - f_equal. induction IH as [|x l Hx _ IHl]; simpl; [reflexivity|].
    now rewrite Hx, IHl.
  - f_equal. induction IH as [|[k v] d Hx _ IHd]; simpl; [reflexivity|].
    simpl in Hx. now rewrite Hx, IHd.
Qed.

Section RawWorking.
Variable E : pyenv.

Local Abbreviation down := (RawFormat.to_working_format_walk E).
Local Abbreviation up := (WorkingFormat.to_raw_format_walk E).

Lemma comes_back_list l :
  Forall (comes_back E) l ->
  forallb set_free l = true -> forallb path_tag_free l = true ->
  forallb (paths_canonical E) l = true ->
  exists ws, map_result down l = Ok ws
             /\ map_result up ws = Ok (List.map plain l).
Proof.
  induction 1 as [|x l Hx _ IH]; simpl; intros Hs Ht Hp.
  - exists []. auto.
  - apply andb_true_iff in Hs as [Hs1 Hs2].
    apply andb_true_iff in Ht as [Ht1 Ht2].
    apply andb_true_iff in Hp as [Hp1 Hp2].
    destruct (Hx Hs1 Ht1 Hp1) as (w & Hw & Hback).
    destruct (IH Hs2 Ht2 Hp2) as (ws & Hws & Hbacks).
    exists (w :: ws). simpl. now rewrite Hw, Hws, Hback, Hbacks.
Qed.

Lemma comes_back_items d :
  Forall (fun kv => comes_back E (snd kv)) d ->
  forallb (fun kv => set_free (snd kv)) d = true ->
  forallb (fun kv => path_tag_free (snd kv)) d = true ->
  forallb (fun kv => paths_canonical E (snd kv)) d = true ->
  exists d', map_items down d = Ok d'
             /\ map_items up d'
                = Ok (List.map (fun kv => (fst kv, plain (snd kv))) d).
Proof.
  induction 1 as [|[k v] d Hx _ IH]; simpl; intros Hs Ht Hp.
  - exists []. auto.
  - apply andb_true_iff in Hs as [Hs1 Hs2].
    apply andb_true_iff in Ht as [Ht1 Ht2].
    apply andb_true_iff in Hp as [Hp1 Hp2].
    destruct (Hx Hs1 Ht1 Hp1) as (w & Hw & Hback). cbn [fst snd] in *.
    destruct (IH Hs2 Ht2 Hp2) as (d' & Hd' & Hbacks).
    exists ((k, w) :: d'). simpl. now rewrite Hw, Hd', Hback, Hbacks.
Qed.

Lemma raw_comes_back r : comes_back E r.
Proof.
  induction r as [|b|n|s|yr mo dy|lab|p|l IH|h d IH|l IH|l IH|c fs IH] using value_ind;
    unfold comes_back; intros Hs Ht Hp; try discriminate;
    try (eexists; split; reflexivity).
  - simpl in Hp. apply pystr_eqb_eq in Hp.
    eexists. split; [reflexivity|]. simpl. now rewrite Hp.
  - simpl in *. destruct (comes_back_list l IH Hs Ht Hp) as (ws & Hws & Hback).
    exists (VList ws). simpl. now rewrite Hws, Hback.
  - simpl in *. apply andb_true_iff in Ht as [Htag Ht].
    apply negb_true_iff in Htag.
    destruct (comes_back_items d IH Hs Ht Hp) as (d' & Hd' & Hback).
    exists (VDict (dict_contains (KStr s_hash) d') d'). rewrite Hd'. simpl.
    split; [reflexivity|].
    rewrite (map_items_tag_is down s_Path d d'
               (to_working_str_is E s_Path) Hd' Htag).
    now rewrite Hback.
Qed.

End RawWorking.

(** Raw -> Working -> Raw is the identity, up to [hashdict]s being plain
    mappings again, on the documents without sets whose mappings are not
    tagged "Path" and whose paths are written as pathlib prints them; and
    the Working document is a fixed point of Working -> Raw -> Working. *)
Theorem raw_working_round_trip (E : pyenv) (r : value) :
  set_free r = true -> path_tag_free r = true -> paths_canonical E r = true ->
  exists w,
    RawFormat.to_working_format E r = Ok w
    /\ WorkingFormat.to_raw_format E w = Ok (plain r)
    /\ RawFormat.to_working_format E (plain r) = Ok w.
Proof.
  intros Hs Ht Hp.
  destruct (raw_comes_back E r Hs Ht Hp) as (w & Hw & Hback).
  exists w. unfold RawFormat.to_working_format, WorkingFormat.to_raw_format.
  now rewrite to_working_plain.
Qed.

Lemma raw_working_round_trip_witness :
  exists w,
    RawFormat.to_working_format Sample.env
      (VDict true [(KStr (lit "report"), VPath (lit "/x/y"));
                   (KStr s_hash, VInt 7)]) = Ok w
    /\ WorkingFormat.to_raw_format Sample.env w
       = Ok (VDict false [(KStr (lit "report"), VPath (lit "/x/y"));
                          (KStr s_hash, VInt 7)])
    /\ RawFormat.to_working_format Sample.env
         (VDict false [(KStr (lit "report"), VPath (lit "/x/y"));
                       (KStr s_hash, VInt 7)]) = Ok w.
Proof.
  apply (raw_working_round_trip Sample.env
           (VDict true [(KStr (lit "report"), VPath (lit "/x/y"));
                        (KStr s_hash, VInt 7)])); reflexivity.
Defined.

(** ** To the database and back *)

Lemma str_is_plain t v : str_is t (plain v) = str_is t v.
Proof. now destruct v. Qed.

Lemma tag_is_plain t d :
  tag_is t (List.map (fun kv => (fst kv, plain (snd kv))) d) = tag_is t d.
Proof.
  unfold tag_is. rewrite dict_get_map_values.
  destruct (dict_get (KStr s_type) d); simpl; [apply str_is_plain | reflexivity].
Qed.

Lemma getitem_with_map_values {B} (f : value -> result B) (g : value -> value) k d :
  getitem_with f k (List.map (fun kv => (fst kv, g (snd kv))) d)
  = getitem_with (fun v => f (g v)) k d.
Proof.
  induction d as [|[k0 v0] d IH]; simpl; [reflexivity|].
  now destruct (key_eqb k0 k).
Qed.

Lemma map_items_map_values f (g : value -> value) d :
  Forall (fun kv => f (g (snd kv)) = f (snd kv)) d ->
  map_items f (List.map (fun kv => (fst kv, g (snd kv))) d) = map_items f d.
Proof.
  induction 1 as [|[k v] d Hx _ IH]; simpl; [reflexivity|].
  simpl in Hx. now rewrite Hx, IH.
Qed.

Lemma map_result_map f (g : value -> value) (l : list value) :
  Forall (fun x => f (g x) = f x) l ->
  map_result (B := value) f (List.map g l) = map_result f l.
Proof.
  induction 1 as [|x l Hx _ IH]; simpl; [reflexivity|].
  now rewrite Hx, IH.
Qed.

(** The conversions above the Working format do not look at the
    [hashdict] flag of a mapping. *)
Lemma to_raw_plain E w :
  WorkingFormat.to_raw_format_walk E (plain w) = WorkingFormat.to_raw_format_walk E w.
Proof.
  induction w as [|b|n|s|yr mo dy|lab|p|l IH|h d IH|l IH|l IH|c fs IH] using value_ind;
    simpl; try reflexivity.
  - now rewrite map_result_map.
  - rewrite tag_is_plain. destruct (tag_is s_Path d).
    + rewrite getitem_with_map_values.
      clear. induction d as [|[k0 v0] d IHd]; simpl; [reflexivity|].
      destruct (key_eqb k0 (KStr s_value)); [now destruct v0 | exact IHd].
    + now rewrite map_items_map_values.
Qed.

Lemma to_obj_plain E reg r :
  RawFormat.to_obj_format_walk E reg (plain r) = RawFormat.to_obj_format_walk E reg r.
Proof.
  induction r as [|b|n|s|yr mo dy|lab|p|l IH|h d IH|l IH|l IH|c fs IH] using value_ind;
    simpl; try reflexivity.
  - now rewrite map_result_map.
  - now rewrite map_items_map_values.
Qed.

Lemma storable_set_free E v : storable E v = true -> set_free v = true.
Proof.
  induction v as [|b|n|s|yr mo dy|lab|p|l IH|h d IH|l IH|l IH|c fs IH] using value_ind;
    simpl; intros Hv; try reflexivity; try discriminate.
  - apply forallb_Forall. apply forallb_Forall in Hv.
    rewrite Forall_forall in *. auto.
  - apply andb_true_iff in Hv as [Hv _]. apply andb_true_iff in Hv as [Hv _].
    apply andb_true_iff in Hv as [Hv _].
    apply forallb_Forall. apply forallb_Forall in Hv.
    rewrite Forall_forall in *. intros kv Hin.
    specialize (Hv _ Hin). apply andb_true_iff in Hv as [_ Hv]. auto.
  - apply andb_true_iff in Hv as [Hv _]. apply andb_true_iff in Hv as [Hv _].
    apply andb_true_iff in Hv as [Hv _].
    apply forallb_Forall. apply forallb_Forall in Hv.
    rewrite Forall_forall in *. intros kv Hin.
    specialize (Hv _ Hin). apply andb_true_iff in Hv as [_ Hv]. auto.
Qed.

Lemma storable_path_tag_free E v : storable E v = true -> path_tag_free v = true.
Proof.
  induction v as [|b|n|s|yr mo dy|lab|p|l IH|h d IH|l IH|l IH|c fs IH] using value_ind;
    simpl; intros Hv; try reflexivity; try discriminate.
  - apply forallb_Forall. apply forallb_Forall in Hv.
    rewrite Forall_forall in *. auto.
  - apply andb_true_iff in Hv as [Hv Hpath]. apply andb_true_iff in Hv as [Hv _].
    apply andb_true_iff in Hv as [Hv _]. rewrite Hpath. simpl.
    apply forallb_Forall. apply forallb_Forall in Hv.
    rewrite Forall_forall in *. intros kv Hin.
    specialize (Hv _ Hin). apply andb_true_iff in Hv as [_ Hv]. auto.
Qed.

Lemma storable_paths_canonical E v :
  storable E v = true -> paths_canonical E v = true.
Proof.
  induction v as [|b|n|s|yr mo dy|lab|p|l IH|h d IH|l IH|l IH|c fs IH] using value_ind;
    simpl; intros Hv; try reflexivity; try discriminate; try assumption.
  - apply forallb_Forall. apply forallb_Forall in Hv.
    rewrite Forall_forall in *. auto.
  - apply andb_true_iff in Hv as [Hv _]. apply andb_true_iff in Hv as [Hv _].
    apply andb_true_iff in Hv as [Hv _].
    apply forallb_Forall. apply forallb_Forall in Hv.
    rewrite Forall_forall in *. intros kv Hin.
    specialize (Hv _ Hin). apply andb_true_iff in Hv as [_ Hv]. auto.
  - apply andb_true_iff in Hv as [Hv _]. apply andb_true_iff in Hv as [Hv _].
    apply andb_true_iff in Hv as [Hv _].
    apply forallb_Forall. apply forallb_Forall in Hv.
    rewrite Forall_forall in *. intros kv Hin.
    specialize (Hv _ Hin). apply andb_true_iff in Hv as [_ Hv]. auto.
Qed.

Lemma set_free_sets_survive E reg v :
  set_free v = true -> sets_survive E reg v = true.
Proof.
  induction v as [|b|n|s|yr mo dy|lab|p|l IH|h d IH|l IH|l IH|c fs IH] using value_ind;
    simpl; intros Hv; try reflexivity; try discriminate.
  - apply forallb_Forall. apply forallb_Forall in Hv.
    rewrite Forall_forall in *. auto.
  - apply forallb_Forall. apply forallb_Forall in Hv.
    rewrite Forall_forall in *. auto.
  - apply forallb_Forall. apply forallb_Forall in Hv.
    rewrite Forall_forall in *. auto.
Qed.

(** A string is encoded from that string only. *)
Lemma enc_str_is E t v v' :
  ObjFormat.to_raw_format_walk E v = Ok v' ->
  str_is t v' = true -> str_is t v = true.
Proof.
  destruct v; simpl; intros Hv Ht; try (injection Hv as <-; exact Ht).
  - apply bind_ok in Hv as (? & _ & [= <-]). discriminate.
  - apply bind_ok in Hv as (? & _ & [= <-]). discriminate.
  - apply bind_ok in Hv as (? & _ & [= <-]). discriminate.
  - apply bind_ok in Hv as (? & _ & [= <-]). discriminate.
  - destruct (obj_hash E cls fields);
      destruct (map_items _ fields) as [?|[]]; simpl in Hv; try discriminate;
      injection Hv as <-; discriminate.
Qed.

Section Pipeline.
Variable E : pyenv.

Local Abbreviation enc := (ObjFormat.to_raw_format_walk E).
Local Abbreviation down := (RawFormat.to_working_format_walk E).
Local Abbreviation up := (WorkingFormat.to_raw_format_walk E).
Local Abbreviation to_db := WorkingFormat.to_storage_format_walk.
Local Abbreviation from_db := (StorageFormat.to_working_format_walk E).

(** Encoding a storable document gives a storable document. *)
Lemma enc_storable d :
  storable E d = true -> exists r, enc d = Ok r /\ storable E r = true.
Proof.
  induction d as [|b|n|s|yr mo dy|lab|p|l IH|h d IH|l IH|l IH|c fs IH] using value_ind;
    intros Hd; try discriminate;
    try (eexists; split; [reflexivity | exact Hd]).
  - simpl in Hd. apply forallb_Forall in Hd.
    assert (Hl : exists l', map_result enc l = Ok l' /\ forallb (storable E) l' = true).
    { induction IH as [|x l Hx _ IHl]; [now exists []|].
      inversion Hd as [|? ? Hx1 Hl1]; subst.
      destruct (Hx Hx1) as (y & Hy & Hsy).
      destruct (IHl Hl1) as (l' & Hl' & Hsl').
      exists (y :: l'). simpl. now rewrite Hy, Hl', Hsy, Hsl'. }
    destruct Hl as (l' & Hl' & Hsl').
    exists (VList l'). simpl. now rewrite Hl'.
  - simpl in Hd. apply andb_true_iff in Hd as [Hd Hpath].
    apply andb_true_iff in Hd as [Hd Hsets].
    apply andb_true_iff in Hd as [Hd Hnd].
    apply negb_true_iff in Hpath, Hsets. apply forallb_Forall in Hd.
    assert (Hitems : exists d',
              map_items enc d = Ok d'
              /\ forallb (fun kv => working_key (fst kv) && storable E (snd kv)) d' = true).
    { clear Hpath Hsets Hnd. induction IH as [|[k v] d Hx _ IHd]; [now exists []|].
      inversion Hd as [|? ? Hx1 Hd1]; subst. simpl in Hx1.
      apply andb_true_iff in Hx1 as [Hk Hv].
      destruct (Hx Hv) as (y & Hy & Hsy). simpl in Hy.
      destruct (IHd Hd1) as (d' & Hd' & Hsd').
      exists ((k, y) :: d'). simpl. now rewrite Hy, Hd', Hk, Hsy, Hsd'. }
    destruct Hitems as (d' & Hd' & Hsd').
    exists (VDict false d'). simpl. rewrite Hd'. split; [reflexivity|].
    rewrite Hsd', (map_items_keys _ _ _ Hd'), Hnd. simpl.
    destruct (tag_in_sets_none _ Hsets) as [Hset Hfrozen].
    pose proof (enc_str_is E) as Hstr.
    unfold StorageFormat.tag_in_sets.
    rewrite (map_items_tag_is enc s_set d d' (fun v v' => Hstr s_set v v') Hd' Hset).
    rewrite (map_items_tag_is enc s_frozenset d d'
               (fun v v' => Hstr s_frozenset v v') Hd' Hfrozen).
    now rewrite (map_items_tag_is enc s_Path d d'
                   (fun v v' => Hstr s_Path v v') Hd' Hpath).
  - simpl in Hd. apply andb_true_iff in Hd as [Hd Hname].
    apply andb_true_iff in Hd as [Hd Hres].
    apply andb_true_iff in Hd as [Hd Hnd].
    apply negb_true_iff in Hname. apply forallb_Forall in Hd.
    unfold reserved_free in Hres. apply andb_true_iff in Hres as [Htype Hhash].
    apply negb_true_iff in Htype, Hhash.
    assert (Hitems : exists fs',
              map_items enc fs = Ok fs'
              /\ forallb (fun kv => working_key (fst kv) && storable E (snd kv)) fs' = true).
    { clear Hname Htype Hhash Hnd. induction IH as [|[k v] fs Hx _ IHd]; [now exists []|].
      inversion Hd as [|? ? Hx1 Hd1]; subst. simpl in Hx1.
      apply andb_true_iff in Hx1 as [Hk Hv].
      destruct (Hx Hv) as (y & Hy & Hsy). simpl in Hy.
      destruct (IHd Hd1) as (fs' & Hfs' & Hsfs').
      exists ((k, y) :: fs'). simpl. now rewrite Hy, Hfs', Hk, Hsy, Hsfs'. }
    destruct Hitems as (fs' & Hfs' & Hsfs').
    pose proof (map_items_keys _ _ _ Hfs') as Hkeys.
    apply nodupb_NoDup in Hnd.
    eexists. split; [apply (to_raw_object E c fs fs' Hnd Htype Hhash Hfs')|].
    unfold builtin_tag in Hname.
    apply orb_false_iff in Hname as [Hname HPath].
    apply orb_false_iff in Hname as [Hset Hfrozen].
    assert (Hfresh : forall k, dict_contains k fs = false ->
              existsb (key_eqb k) (dict_keys fs') = false).
    { intros k Hk. rewrite Hkeys. apply not_true_iff_false.
      intros (k' & Hin & Heq)%existsb_exists. apply key_eqb_eq in Heq. subst k'.
      apply dict_contains_keys in Hin. congruence. }
    assert (Hnd' : nodupb (dict_keys fs') = true)
      by (rewrite Hkeys; now apply nodupb_NoDup).
    destruct (obj_hash E c fs) as [hh|]; simpl;
      unfold StorageFormat.tag_in_sets, tag_is; simpl;
      rewrite Hsfs', Hnd', Hset, Hfrozen, HPath, ?(Hfresh _ Htype), ?(Hfresh _ Hhash);
      reflexivity.
Qed.

(** Raw -> Working on a storable document gives a Working document
    without sets. *)
Lemma down_working_doc r :
  storable E r = true ->
  forall w, down r = Ok w -> working_doc E w = true /\ set_free w = true.
Proof.
  induction r as [|b|n|s|yr mo dy|lab|p|l IH|h d IH|l IH|l IH|c fs IH] using value_ind;
    intros Hr w Hw; try discriminate;
    try (injection Hw as <-; split; reflexivity).
  - simpl in Hw. apply bind_ok in Hw as (l' & Hl' & [= <-]).
    simpl in Hr. apply forallb_Forall in Hr.
    apply map_result_ok in Hl'. simpl.
    assert (H : Forall (fun y => working_doc E y = true /\ set_free y = true) l').
    { clear -IH Hr Hl'.
      induction Hl' as [|x y l l' Hxy _ IHl]; constructor;
        inversion IH; inversion Hr; subst; eauto. }
    split; apply forallb_Forall; eapply Forall_impl; try exact H;
      simpl; intros y [? ?]; assumption.
  - simpl in Hw. apply bind_ok in Hw as (d' & Hd' & [= <-]).
    simpl in Hr. apply andb_true_iff in Hr as [Hr Hpath].
    apply andb_true_iff in Hr as [Hr Hsets].
    apply andb_true_iff in Hr as [Hr Hnd].
    apply negb_true_iff in Hsets. apply forallb_Forall in Hr.
    pose proof (map_items_keys _ _ _ Hd') as Hkeys.
    destruct (tag_in_sets_none _ Hsets) as [Hset Hfrozen].
    assert (Htag : StorageFormat.tag_in_sets d' = false).
    { unfold StorageFormat.tag_in_sets.
      rewrite (map_items_tag_is down s_set d d' (to_working_str_is E s_set) Hd' Hset).
      now rewrite (map_items_tag_is down s_frozenset d d'
                     (to_working_str_is E s_frozenset) Hd' Hfrozen). }
    apply map_items_ok in Hd'.
    assert (H : Forall (fun kv => working_key (fst kv) = true
                                  /\ working_doc E (snd kv) = true
                                  /\ set_free (snd kv) = true) d').
    { clear -IH Hr Hd'.
      induction Hd' as [|[k v] [k' v'] d d' [Hk Hv] _ IHd]; constructor.
      - inversion IH; inversion Hr; subst. simpl in *. subst k'.
        match goal with H : _ && _ = true |- _ =>
          apply andb_true_iff in H as [Hkey Hval] end.
        split; [assumption|]. eauto.
      - inversion IH; inversion Hr; subst. eauto. }
    assert (H1 : forallb (fun kv => working_key (fst kv) && working_doc E (snd kv)) d'
                 = true).
    { apply forallb_Forall. eapply Forall_impl; [|exact H].
      simpl. intros kv (Hk & Hv & _). now rewrite Hk, Hv. }
    assert (H2 : forallb (fun kv => set_free (snd kv)) d' = true).
    { apply forallb_Forall. eapply Forall_impl; [|exact H].
      simpl. intros kv (_ & _ & Hv). exact Hv. }
    simpl. rewrite H1, H2, Hkeys, Hnd, Htag. split; reflexivity.
  - simpl in Hw. injection Hw as <-. split; [reflexivity|].
    now apply storable_set_free with E.
Qed.

(** On a Working document without sets, [load] after [store] gives the
    document back, its [hashdict]s as plain mappings. *)
Lemma load_store_plain w :
  working_doc E w = true -> set_free w = true ->
  from_db (to_db w) = Ok (plain w).
Proof.
  induction w as [|b|n|s|yr mo dy|lab|p|l IH|h d IH|l IH|l IH|c fs IH] using value_ind;
    simpl; intros Hw Hs; try reflexivity; try discriminate.
  - apply forallb_Forall in Hw. apply forallb_Forall in Hs.
    assert (Hl : map_result from_db (List.map to_db l) = Ok (List.map plain l)).
    { clear -IH Hw Hs. induction IH as [|x l Hx _ IHl]; simpl; [reflexivity|].
      inversion Hw; inversion Hs; subst. now rewrite Hx, IHl. }
    now rewrite Hl.
  - apply andb_true_iff in Hw as [Hw Htag].
    apply andb_true_iff in Hw as [Hitems Hnd].
    apply negb_true_iff in Htag. apply nodupb_NoDup in Hnd.
    apply forallb_Forall in Hitems. apply forallb_Forall in Hs.
    assert (Hkeys : Forall (fun kv => working_key (fst kv) = true) d).
    { eapply Forall_impl; [|exact Hitems].
      now intros [k v] [? ?]%andb_true_iff. }
    rewrite rebuild_total_pointwise; cycle 1.
    { apply map_key_NoDup; [|assumption].
      unfold dict_keys. now apply Forall_map. }
    { reflexivity. }
    simpl.
    set (ds := List.map (fun kv => (WorkingFormat.map_key (fst kv), to_db (snd kv))) d).
    assert (Hget : forall t, tag_is t ds = tag_is t d).
    { intros t. unfold tag_is, ds.
      change (KStr s_type) with (WorkingFormat.map_key (KStr s_type)) at 1.
      rewrite dict_get_stored by (auto; reflexivity).
      destruct (dict_get (KStr s_type) d); simpl; [apply str_is_stored | reflexivity]. }
    destruct (tag_in_sets_none _ Htag) as [Hset Hfs].
    rewrite !Hget, Hset, Hfs.
    rewrite (rebuild_pointwise _ _ ds
               (List.map (fun kv => (fst kv, plain (snd kv))) d)); cycle 1.
    { unfold ds. apply Forall2_map_left. apply Forall2_map_right.
      apply Forall_Forall2_diag. rewrite Forall_forall in *.
      intros [k v] Hin. simpl.
      specialize (IH _ Hin). specialize (Hitems _ Hin). specialize (Hs _ Hin).
      simpl in *. apply andb_true_iff in Hitems as [Hk Hv].
      split; [now apply working_key_round_trip | auto]. }
    { unfold dict_keys. rewrite map_map. simpl. exact Hnd. }
    { reflexivity. }
    reflexivity.
Qed.

End Pipeline.

(** A Raw document survives the database: for a document without sets
    (string keys without the full-width dot, no mapping tagged "set",
    "frozenset" or "Path", canonical paths), Raw -> Working succeeds,
    [load] after [store] gives the Working document back with plain
    mappings, and Working -> Raw of that is the Raw document, its
    [hashdict]s as plain mappings. *)
Theorem raw_documents_survive_the_database (E : pyenv) (r : value) :
  storable E r = true ->
  exists w,
    RawFormat.to_working_format E r = Ok w
    /\ load E (store w) = Ok (plain w)
    /\ WorkingFormat.to_raw_format E (plain w) = Ok (plain r).
Proof.
  intros Hr.
  destruct (raw_comes_back E r (storable_set_free E r Hr)
              (storable_path_tag_free E r Hr) (storable_paths_canonical E r Hr))
    as (w & Hw & Hback).
  destruct (down_working_doc E r Hr w Hw) as [Hdoc Hfree].
  exists w. split; [exact Hw|]. split.
  - unfold load, store, get, StorageFormat.to_working_format,
      WorkingFormat.to_storage_format.
    now rewrite (load_store_plain E w Hdoc Hfree).
  - unfold WorkingFormat.to_raw_format. now rewrite to_raw_plain.
Qed.

Lemma raw_documents_survive_the_database_witness :
  exists w,
    RawFormat.to_working_format Sample.env
      (VDict true [(KStr (lit "a.b"), VPath (lit "/x/y"));
                   (KStr s_hash, VInt 7)]) = Ok w
    /\ load Sample.env (store w) = Ok (plain w)
    /\ WorkingFormat.to_raw_format Sample.env (plain w)
       = Ok (VDict false [(KStr (lit "a.b"), VPath (lit "/x/y"));
                          (KStr s_hash, VInt 7)]).
Proof.
  apply (raw_documents_survive_the_database Sample.env
           (VDict true [(KStr (lit "a.b"), VPath (lit "/x/y"));
                        (KStr s_hash, VInt 7)])).
  reflexivity.
Defined.

(** An Object document without sets survives the database: the chain
    Object -> Raw -> Working -> Storage -> Working -> Raw -> Object
    succeeds and returns the document with, at the place of every domain
    object, an instance equal to it, provided the classes are registered
    and decode what their instances encode. *)
Theorem object_documents_survive_the_database (E : pyenv)
    (sct : option registry) (d : value) :
  set_order_ok E ->
  storable E d = true ->
  obj_shape E (fst (serializable_complex_types E sct)) d = true ->
  decodes_back E d ->
  exists r w w' r' d',
    ObjFormat.to_raw_format E d = Ok r
    /\ RawFormat.to_working_format E r = Ok w
    /\ load E (store w) = Ok w'
    /\ WorkingFormat.to_raw_format E w' = Ok r'
    /\ RawFormat.to_obj_format E sct r' = Ok d'
    /\ obj_equiv E d d'.
Proof.
  intros Hord Hd Hshape Hdec.
  set (reg := fst (serializable_complex_types E sct)) in *.
  destruct (round_trip_equiv E reg Hord d Hshape
              (set_free_sets_survive E reg d (storable_set_free E d Hd)) Hdec)
    as (r & d' & Hr & Hd' & Heq).
  destruct (enc_storable E d Hd) as (r0 & Hr0 & Hsr).
  assert (r0 = r) by congruence. subst r0.
  destruct (raw_comes_back E r (storable_set_free E r Hsr)
              (storable_path_tag_free E r Hsr) (storable_paths_canonical E r Hsr))
    as (w & Hw & Hback).
  destruct (down_working_doc E r Hsr w Hw) as [Hdoc Hfree].
  exists r, w, (plain w), (plain r), d'.
  split; [exact Hr|]. split; [exact Hw|]. split; [|split; [|split]].
  - unfold load, store, get, StorageFormat.to_working_format,
      WorkingFormat.to_storage_format.
    now rewrite (load_store_plain E w Hdoc Hfree).
  - unfold WorkingFormat.to_raw_format. now rewrite to_raw_plain.
  - unfold RawFormat.to_obj_format. fold reg. now rewrite to_obj_plain.
  - exact Heq.
Qed.

(** The sample classes decode the one-field instances back. *)
Lemma sample_decodes_field c k n fs' :
  fields_equiv Sample.env [(KStr k, VInt n)] fs' ->
  exists c' fs'', from_dict Sample.env c fs' = Ok (VObj c' fs'')
                  /\ obj_eq Sample.env c' fs'' c [(KStr k, VInt n)] = true.
Proof.
  intros Hfs'.
  inversion Hfs' as [|? [k' v'] ? ? [Hk Hv] Hnil]; subst.
  inversion Hnil; subst. simpl in Hk, Hv. subst k'.
  inversion Hv; subst.
  exists c, [(KStr k, VInt n)]. split; [reflexivity|].
  simpl. rewrite Nat.eqb_refl. unfold key_eqb.
  now rewrite pystr_eqb_refl, Z.eqb_refl.
Qed.

Lemma object_documents_survive_the_database_witness :
  exists r w w' r' d',
    ObjFormat.to_raw_format Sample.env sample_entry = Ok r
    /\ RawFormat.to_working_format Sample.env r = Ok w
    /\ load Sample.env (store w) = Ok w'
    /\ WorkingFormat.to_raw_format Sample.env w' = Ok r'
    /\ RawFormat.to_obj_format Sample.env None r' = Ok d'
    /\ obj_equiv Sample.env sample_entry d'.
Proof.
  apply (object_documents_survive_the_database Sample.env None sample_entry
           sample_set_order_ok eq_refl eq_refl).
  simpl. repeat split; apply sample_decodes_field.
Defined.

(** ** What reaches the database *)

Section Reaching.
Variable E : pyenv.
Hypothesis Hord : set_order_ok E.

Local Abbreviation enc := (ObjFormat.to_raw_format_walk E).
Local Abbreviation down := (RawFormat.to_working_format_walk E).
Local Abbreviation to_db := WorkingFormat.to_storage_format_walk.

Lemma Forall2_items_forallb (f : value -> result value)
    (p : value -> Prop) (q : key * value -> bool) d d' :
  Forall2 (fun kv kv' => fst kv' = fst kv /\ f (snd kv) = Ok (snd kv')) d d' ->
  Forall (fun kv => p (snd kv)) d ->
  (forall k v v', In (k, v) d -> p v -> f v = Ok v' -> q (k, v') = true) ->
  forallb q d' = true.
Proof.
  intros H2 Hp Hq. apply forallb_Forall.
  induction H2 as [|[k v] [k' v'] d d' [Hk Hv] _ IH]; constructor.
  - simpl in *. subst k'. inversion Hp; subst. apply (Hq k v v'); auto.
  - inversion Hp; subst. apply IH; auto.
    intros k0 v0 v0' Hin. apply Hq. now right.
Qed.

Lemma enc_str_keyed d :
  forall r, enc d = Ok r -> str_keyed d = true -> str_keyed r = true.
Proof.
  induction d as [|b|n|s|yr mo dy|lab|p|l IH|h d IH|l IH|l IH|c fs IH] using value_ind;
    intros r Hr Hd; try (injection Hr as <-; reflexivity).
  - simpl in Hr. apply bind_ok in Hr as (l' & Hl' & [= <-]). simpl in *.
    apply map_result_ok in Hl'. apply forallb_Forall in Hd.
    apply (Forall2_forallb _ _ _ _ _ Hl' IH). intros x y Hin Hx Hxy.
    rewrite Forall_forall in Hd. eauto.
  - simpl in Hr. apply bind_ok in Hr as (d' & Hd' & [= <-]). simpl in *.
    apply map_items_ok in Hd'. apply forallb_Forall in Hd.
    apply (Forall2_items_forallb enc
             (fun v => forall r, enc v = Ok r -> str_keyed v = true -> str_keyed r = true)
             _ d d' Hd' IH).
    intros k v v' Hin Hv Hvv'. rewrite Forall_forall in Hd.
    specialize (Hd _ Hin). simpl in *. apply andb_true_iff in Hd as [Hk Hs].
    rewrite Hk. simpl. eauto.
  - simpl in Hr. apply bind_ok in Hr as (s & Hs & [= <-]). simpl in *.
    apply set_of_map_ok in Hs as (l' & Hl' & _ & ->).
    apply forallb_incl with l'; [intros y Hy; now apply set_elements_In with E|].
    apply forallb_Forall in Hd.
    apply (Forall2_forallb _ _ _ _ _ Hl' IH). intros x y Hin Hx Hxy.
    rewrite Forall_forall in Hd. eauto.
  - simpl in Hr. apply bind_ok in Hr as (s & Hs & [= <-]). simpl in *.
    apply set_of_map_ok in Hs as (l' & Hl' & _ & ->).
    apply forallb_incl with l'; [intros y Hy; now apply set_elements_In with E|].
    apply forallb_Forall in Hd.
    apply (Forall2_forallb _ _ _ _ _ Hl' IH). intros x y Hin Hx Hxy.
    rewrite Forall_forall in Hd. eauto.
  - destruct (map_items enc fs) as [fs'|e] eqn:Hfs.
    + rewrite (to_raw_object_any E c fs fs' Hfs) in Hr. injection Hr as <-.
      simpl in *. apply forallb_Forall. apply Forall_dict_update.
      * apply forallb_Forall. apply map_items_ok in Hfs.
        apply forallb_Forall in Hd.
        apply (Forall2_items_forallb enc
                 (fun v => forall r, enc v = Ok r -> str_keyed v = true -> str_keyed r = true)
                 _ fs fs' Hfs IH).
        intros k v v' Hin Hv Hvv'. rewrite Forall_forall in Hd.
        specialize (Hd _ Hin). simpl in *. apply andb_true_iff in Hd as [Hk Hs].
        rewrite Hk. simpl. eauto.
      * unfold header. destruct (obj_hash E c fs); repeat constructor.
    + rewrite (to_raw_object_raises E c fs e Hfs) in Hr. discriminate.
Qed.

Lemma down_str_keyed r :
  forall w, down r = Ok w -> str_keyed r = true -> str_keyed w = true.
Proof.
  induction r as [|b|n|s|yr mo dy|lab|p|l IH|h d IH|l IH|l IH|c fs IH] using value_ind;
    intros w Hw Hr; try (injection Hw as <-; first [reflexivity | exact Hr]).
  - simpl in Hw. apply bind_ok in Hw as (l' & Hl' & [= <-]). simpl in *.
    apply map_result_ok in Hl'. apply forallb_Forall in Hr.
    apply (Forall2_forallb _ _ _ _ _ Hl' IH). intros x y Hin Hx Hxy.
    rewrite Forall_forall in Hr. eauto.
  - simpl in Hw. apply bind_ok in Hw as (d' & Hd' & [= <-]). simpl in *.
    apply map_items_ok in Hd'. apply forallb_Forall in Hr.
    apply (Forall2_items_forallb down
             (fun v => forall w, down v = Ok w -> str_keyed v = true -> str_keyed w = true)
             _ d d' Hd' IH).
    intros k v v' Hin Hv Hvv'. rewrite Forall_forall in Hr.
    specialize (Hr _ Hin). simpl in *. apply andb_true_iff in Hr as [Hk Hs].
    rewrite Hk. simpl. eauto.
  - simpl in Hw. apply bind_ok in Hw as (s & Hs & [= <-]). simpl in *.
    apply set_of_map_ok in Hs as (l' & Hl' & _ & ->).
    apply forallb_incl with l'; [intros y Hy; now apply set_elements_In with E|].
    apply forallb_Forall in Hr.
    apply (Forall2_forallb _ _ _ _ _ Hl' IH). intros x y Hin Hx Hxy.
    rewrite Forall_forall in Hr. eauto.
  - simpl in Hw. apply bind_ok in Hw as (s & Hs & [= <-]). simpl in *.
    apply set_of_map_ok in Hs as (l' & Hl' & _ & ->).
    apply forallb_incl with l'; [intros y Hy; now apply set_elements_In with E|].
    apply forallb_Forall in Hr.
    apply (Forall2_forallb _ _ _ _ _ Hl' IH). intros x y Hin Hx Hxy.
    rewrite Forall_forall in Hr. eauto.
Qed.

Lemma down_obj_free r :
  forall w, down r = Ok w -> obj_free r = true -> obj_free w = true.
Proof.
  induction r as [|b|n|s|yr mo dy|lab|p|l IH|h d IH|l IH|l IH|c fs IH] using value_ind;
    intros w Hw Hr; try (injection Hw as <-; first [reflexivity | exact Hr]).
  - simpl in Hw. apply bind_ok in Hw as (l' & Hl' & [= <-]). simpl in *.
    apply map_result_ok in Hl'. apply forallb_Forall in Hr.
    apply (Forall2_forallb _ _ _ _ _ Hl' IH). intros x y Hin Hx Hxy.
    rewrite Forall_forall in Hr. eauto.
  - simpl in Hw. apply bind_ok in Hw as (d' & Hd' & [= <-]). simpl in *.
    apply map_items_ok in Hd'. apply forallb_Forall in Hr.
    apply (Forall2_items_forallb down
             (fun v => forall w, down v = Ok w -> obj_free v = true -> obj_free w = true)
             _ d d' Hd' IH).
    intros k v v' Hin Hv Hvv'. rewrite Forall_forall in Hr.
    specialize (Hr _ Hin). simpl in *. eauto.
  - simpl in Hw. apply bind_ok in Hw as (s & Hs & [= <-]). simpl in *.
    apply set_of_map_ok in Hs as (l' & Hl' & _ & ->).
    apply forallb_incl with l'; [intros y Hy; now apply set_elements_In with E|].
    apply forallb_Forall in Hr.
    apply (Forall2_forallb _ _ _ _ _ Hl' IH). intros x y Hin Hx Hxy.
    rewrite Forall_forall in Hr. eauto.
  - simpl in Hw. apply bind_ok in Hw as (s & Hs & [= <-]). simpl in *.
    apply set_of_map_ok in Hs as (l' & Hl' & _ & ->).
    apply forallb_incl with l'; [intros y Hy; now apply set_elements_In with E|].
    apply forallb_Forall in Hr.
    apply (Forall2_forallb _ _ _ _ _ Hl' IH). intros x y Hin Hx Hxy.
    rewrite Forall_forall in Hr. eauto.
Qed.

End Reaching.

Lemma str_keyed_labels w : str_keyed w = true -> labels_dot_free w = true.
Proof.
  induction w as [|b|n|s|yr mo dy|lab|p|l IH|h d IH|l IH|l IH|c fs IH] using value_ind;
    simpl; intros Hw; try reflexivity.
  - apply forallb_Forall. apply forallb_Forall in Hw.
    rewrite Forall_forall in *. auto.
  - apply forallb_Forall. apply forallb_Forall in Hw.
    rewrite Forall_forall in *. intros [k v] Hin.
    specialize (IH _ Hin). specialize (Hw _ Hin). simpl in *.
    apply andb_true_iff in Hw as [Hk Hv]. rewrite (IH Hv).
    destruct k; try discriminate. reflexivity.
  - apply forallb_Forall. apply forallb_Forall in Hw.
    rewrite Forall_forall in *. auto.
  - apply forallb_Forall. apply forallb_Forall in Hw.
    rewrite Forall_forall in *. auto.
Qed.

Lemma store_path_free w :
  path_free w = true -> path_free (WorkingFormat.to_storage_format_walk w) = true.
Proof.
  induction w as [|b|n|s|yr mo dy|lab|p|l IH|h d IH|l IH|l IH|c fs IH] using value_ind;
    simpl; intros Hw; try reflexivity; try discriminate.
  - apply forallb_map_true. apply forallb_Forall in Hw.
    rewrite Forall_forall in *. auto.
  - apply forallb_Forall. apply rebuild_total_Forall; [|constructor].
    intros k v Hin. apply forallb_Forall in Hw.
    rewrite Forall_forall in IH, Hw. simpl. exact (IH _ Hin (Hw _ Hin)).
  - rewrite forallb_map_true; [reflexivity|]. apply forallb_Forall in Hw.
    rewrite Forall_forall in *. auto.
  - rewrite forallb_map_true; [reflexivity|]. apply forallb_Forall in Hw.
    rewrite Forall_forall in *. auto.
Qed.

Lemma store_obj_free w :
  obj_free w = true -> obj_free (WorkingFormat.to_storage_format_walk w) = true.
Proof.
  induction w as [|b|n|s|yr mo dy|lab|p|l IH|h d IH|l IH|l IH|c fs IH] using value_ind;
    simpl; intros Hw; try reflexivity; try discriminate.
  - apply forallb_map_true. apply forallb_Forall in Hw.
    rewrite Forall_forall in *. auto.
  - apply forallb_Forall. apply rebuild_total_Forall; [|constructor].
    intros k v Hin. apply forallb_Forall in Hw.
    rewrite Forall_forall in IH, Hw. simpl. exact (IH _ Hin (Hw _ Hin)).
  - rewrite forallb_map_true; [reflexivity|]. apply forallb_Forall in Hw.
    rewrite Forall_forall in *. auto.
  - rewrite forallb_map_true; [reflexivity|]. apply forallb_Forall in Hw.
    rewrite Forall_forall in *. auto.
Qed.

(** What reaches the database: when an Object document with string keys
    and field names is encoded, converted to the Working format and
    stored, the stored document has plain mappings with pairwise distinct
    dot-free string keys, and holds no native set, no native path and no
    domain object. *)
Theorem only_database_values_are_stored (E : pyenv) (d r w : value) :
  set_order_ok E ->
  str_keyed d = true ->
  ObjFormat.to_raw_format E d = Ok r ->
  RawFormat.to_working_format E r = Ok w ->
  stored_shape (store w) = true
  /\ path_free (store w) = true
  /\ obj_free (store w) = true.
Proof.
  unfold ObjFormat.to_raw_format, RawFormat.to_working_format, store, get,
    WorkingFormat.to_storage_format.
  intros Hord Hd Hr Hw.
  pose proof (enc_str_keyed E Hord d r Hr Hd) as Hkr.
  pose proof (down_str_keyed E Hord r w Hw Hkr) as Hkw.
  split; [|split].
  - apply store_stored_shape. now apply str_keyed_labels.
  - apply store_path_free. now apply (to_working_path_free E r Hord).
  - apply store_obj_free. apply (down_obj_free E Hord r w Hw).
    now apply (to_raw_obj_free E Hord d).
Qed.

Lemma only_database_values_are_stored_witness :
  exists r w,
    ObjFormat.to_raw_format Sample.env sample_certificate = Ok r
    /\ RawFormat.to_working_format Sample.env r = Ok w
    /\ stored_shape (store w) = true
    /\ path_free (store w) = true
    /\ obj_free (store w) = true.
Proof.
  eexists _, _. split; [reflexivity|]. split; [reflexivity|].
  eapply (only_database_values_are_stored Sample.env sample_certificate).
  - exact sample_set_order_ok.
  - reflexivity.
  - reflexivity.
  - reflexivity.
Defined.

(** ** Malformed path mappings are reported *)

Lemma to_raw_raises_part E x doc :
  raised_part x doc ->
  raises (WorkingFormat.to_raw_format_walk E x) ->
  raises (WorkingFormat.to_raw_format_walk E doc).
Proof.
  intros Hpart Hx.
  induction Hpart as [| l y Hin _ IH | l y Hin _ IH | l y Hin _ IH
                     | h d k v Htag Hin _ IH].
  - exact Hx.
  - simpl. apply raises_bind. now apply map_result_raises with y.
  - simpl. apply raises_bind. now apply set_of_map_raises with y.
  - simpl. apply raises_bind. now apply set_of_map_raises with y.
  - simpl. rewrite Htag. apply raises_bind. now apply map_items_raises with k v.
Qed.

(** A mapping tagged "Path" without "_value" makes Working -> Raw raise
    [KeyError]; one whose "_value" is neither a string nor a path makes it
    raise [TypeError]; and the conversion of a document that holds such a
    mapping where the walk goes raises: no path is made up. *)
Theorem malformed_path_is_reported (E : pyenv) (h : bool) (d : items) (doc : value) :
  malformed_path d = true ->
  raised_part (VDict h d) doc ->
  (dict_contains (KStr s_value) d = false ->
   WorkingFormat.to_raw_format E (VDict h d) = Raise KeyError)
  /\ (dict_contains (KStr s_value) d = true ->
      WorkingFormat.to_raw_format E (VDict h d) = Raise TypeError)
  /\ raises (WorkingFormat.to_raw_format E doc).
Proof.
  unfold malformed_path, WorkingFormat.to_raw_format.
  intros [Htag Hval]%andb_true_iff Hpart.
  assert (Hmissing : dict_contains (KStr s_value) d = false ->
            WorkingFormat.to_raw_format_walk E (VDict h d) = Raise KeyError).
  { intros Hno. simpl. rewrite Htag. now apply getitem_with_missing. }
  assert (Hbad : dict_contains (KStr s_value) d = true ->
            WorkingFormat.to_raw_format_walk E (VDict h d) = Raise TypeError).
  { intros [v Hv]%dict_contains_get. simpl. rewrite Htag.
    rewrite (getitem_with_get _ _ _ _ Hv). rewrite Hv in Hval.
    destruct v; try discriminate; reflexivity. }
  split; [exact Hmissing|]. split; [exact Hbad|].
  apply to_raw_raises_part with (VDict h d); [exact Hpart|].
  destruct (dict_contains (KStr s_value) d) eqn:Hc.
  - exists TypeError. now apply Hbad.
  - exists KeyError. now apply Hmissing.
Qed.

(** [{"files": [{"_type": "Path", "_value": 5}]}] *)
Lemma malformed_path_is_reported_witness :
  raises (WorkingFormat.to_raw_format Sample.env
            (VDict false
               [(KStr (lit "files"),
                  VList [VDict false [(KStr s_type, VStr s_Path);
                                      (KStr s_value, VInt 5)]])])).
Proof.
  apply (malformed_path_is_reported Sample.env false
           [(KStr s_type, VStr s_Path); (KStr s_value, VInt 5)]
           (VDict false
              [(KStr (lit "files"),
                 VList [VDict false [(KStr s_type, VStr s_Path);
                                     (KStr s_value, VInt 5)]])])).
  - reflexivity.
  - apply rp_dict with (KStr (lit "files"))
      (VList [VDict false [(KStr s_type, VStr s_Path); (KStr s_value, VInt 5)]]);
      [reflexivity | simpl; auto |].
    apply rp_list with
      (VDict false [(KStr s_type, VStr s_Path); (KStr s_value, VInt 5)]);
      [simpl; auto | apply rp_here].
Defined.

(** ** Exporting what was stored *)

Lemma map_key_is_str k : is_str (WorkingFormat.map_key k) = true.
Proof. destruct k as [s| | | | |]; simpl; [now destruct (contains dot s) | reflexivity..]. Qed.

(** In the stored form of a mapping with pairwise distinct string keys,
    a key that has neither "." nor "．" holds the stored value of the item
    under that key. *)
Lemma stored_get_plain_key f d s0 :
  Forall (fun kv : key * value => is_str (fst kv) = true) d ->
  NoDup (dict_keys d) ->
  contains dot s0 = false -> contains fullwidth_dot s0 = false ->
  dict_get (KStr s0) (rebuild_total WorkingFormat.map_key f d [])
  = option_map f (dict_get (KStr s0) d).
Proof.
  intros Hstr Hnd Hdot Hfw.
  rewrite rebuild_total_get_last.
  rewrite (find_rev_unique _ d (KStr s0)); [now destruct (dict_get (KStr s0) d) | | exact Hnd].
  intros [k v] Hin. simpl. rewrite Forall_forall in Hstr.
  specialize (Hstr _ Hin). destruct k as [s| | | | |]; try discriminate.
  rewrite map_key_str. unfold key_eqb.
  destruct (PyStr.eqb s s0) eqn:Hs.
  - apply pystr_eqb_eq in Hs. subst s.
    rewrite replace_unchanged by assumption. apply pystr_eqb_refl.
  - apply pystr_eqb_neq. apply pystr_eqb_neq in Hs. intros Heq. apply Hs.
    now apply replace_to_free in Heq.
Qed.

Section Exporting.
Variable E : pyenv.
Hypothesis Hord : set_order_ok E.

Local Abbreviation down := (RawFormat.to_working_format_walk E).
Local Abbreviation to_db := WorkingFormat.to_storage_format_walk.

Lemma down_exportable r :
  forall w, down r = Ok w -> exportable r = true -> exportable_working w = true.
Proof.
  induction r as [|b|n|s|yr mo dy|lab|p|l IH|h d IH|l IH|l IH|c fs IH] using value_ind;
    intros w Hw Hr; try discriminate;
    try (injection Hw as <-; reflexivity).
  - simpl in Hw. apply bind_ok in Hw as (l' & Hl' & [= <-]). simpl in *.
    apply map_result_ok in Hl'. apply forallb_Forall in Hr.
    apply (Forall2_forallb _ _ _ _ _ Hl' IH). intros x y Hin Hx Hxy.
    rewrite Forall_forall in Hr. eauto.
  - simpl in Hw. apply bind_ok in Hw as (d' & Hd' & [= <-]). simpl in *.
    apply andb_true_iff in Hr as [Hr Hpath].
    apply andb_true_iff in Hr as [Hr Hsets].
    apply andb_true_iff in Hr as [Hr Hnd].
    apply negb_true_iff in Hsets, Hpath. apply forallb_Forall in Hr.
    destruct (tag_in_sets_none _ Hsets) as [Hset Hfrozen].
    rewrite (map_items_keys _ _ _ Hd'), Hnd.
    unfold StorageFormat.tag_in_sets, path_value_ok.
    rewrite (map_items_tag_is down s_set d d' (to_working_str_is E s_set) Hd' Hset).
    rewrite (map_items_tag_is down s_frozenset d d'
               (to_working_str_is E s_frozenset) Hd' Hfrozen).
    rewrite (map_items_tag_is down s_Path d d' (to_working_str_is E s_Path) Hd' Hpath).
    simpl. rewrite !andb_true_r.
    apply map_items_ok in Hd'.
    apply (Forall2_items_forallb down
             (fun v => forall w, down v = Ok w -> exportable v = true ->
                                 exportable_working w = true)
             _ d d' Hd' IH).
    intros k v v' Hin Hv Hvv'. rewrite Forall_forall in Hr.
    specialize (Hr _ Hin). simpl in *. apply andb_true_iff in Hr as [Hk Hs].
    rewrite Hk. simpl. eauto.
  - simpl in Hw. apply bind_ok in Hw as (s & Hs & [= <-]). simpl in *.
    apply set_of_map_ok in Hs as (l' & Hl' & _ & ->).
    apply forallb_incl with l'; [intros y Hy; now apply set_elements_In with E|].
    apply forallb_Forall in Hr.
    apply (Forall2_forallb _ _ _ _ _ Hl' IH). intros x y Hin Hx Hxy.
    rewrite Forall_forall in Hr. eauto.
  - simpl in Hw. apply bind_ok in Hw as (s & Hs & [= <-]). simpl in *.
    apply set_of_map_ok in Hs as (l' & Hl' & _ & ->).
    apply forallb_incl with l'; [intros y Hy; now apply set_elements_In with E|].
    apply forallb_Forall in Hr.
    apply (Forall2_forallb _ _ _ _ _ Hl' IH). intros x y Hin Hx Hxy.
    rewrite Forall_forall in Hr. eauto.
Qed.

End Exporting.

Lemma json_source_set_mapping tag l :
  is_set_tag tag = true ->
  json_source (set_mapping tag l) = forallb json_source l.
Proof.
  intros Htag. unfold set_mapping. simpl.
  assert (Hsets : StorageFormat.tag_in_sets
                    [(KStr s_type, VStr tag); (KStr s_value, VList l)] = true).
  { unfold StorageFormat.tag_in_sets, tag_is. simpl. exact Htag. }
  unfold tagged_value_ok. rewrite Hsets. simpl.
  now rewrite !andb_true_r.
Qed.

Lemma stored_json_source w :
  exportable_working w = true ->
  json_source (WorkingFormat.to_storage_format_walk w) = true.
Proof.
  induction w as [|b|n|s|yr mo dy|lab|p|l IH|h d IH|l IH|l IH|c fs IH] using value_ind;
    intros Hw; try discriminate; try reflexivity.
  - simpl in *. apply forallb_map_true. apply forallb_Forall in Hw.
    rewrite Forall_forall in *. auto.
  - simpl in Hw. apply andb_true_iff in Hw as [Hw Hpath].
    apply andb_true_iff in Hw as [Hw Hsets].
    apply andb_true_iff in Hw as [Hw Hnd].
    apply negb_true_iff in Hsets. apply nodupb_NoDup in Hnd.
    apply forallb_Forall in Hw.
    assert (Hstr : Forall (fun kv : key * value => is_str (fst kv) = true) d).
    { eapply Forall_impl; [|exact Hw]. now intros kv [? ?]%andb_true_iff. }
    simpl.
    set (res := rebuild_total WorkingFormat.map_key
                  WorkingFormat.to_storage_format_walk d []).
    assert (Hget : forall s0, contains dot s0 = false ->
              contains fullwidth_dot s0 = false ->
              dict_get (KStr s0) res
              = option_map WorkingFormat.to_storage_format_walk (dict_get (KStr s0) d))
      by (intros; now apply stored_get_plain_key).
    assert (Htag : forall t, tag_is t res = tag_is t d).
    { intros t. unfold tag_is. rewrite Hget by reflexivity.
      destruct (dict_get (KStr s_type) d); simpl; [apply str_is_stored | reflexivity]. }
    apply andb_true_iff. split.
    + apply forallb_Forall. apply rebuild_total_Forall; [|constructor].
      intros k v Hin. rewrite Forall_forall in IH, Hw.
      specialize (IH _ Hin). specialize (Hw _ Hin). simpl in *.
      apply andb_true_iff in Hw as [_ Hv].
      now rewrite map_key_is_str, (IH Hv).
    + unfold tagged_value_ok, StorageFormat.tag_in_sets.
      unfold StorageFormat.tag_in_sets in Hsets.
      rewrite !Htag, Hsets. unfold path_value_ok in Hpath.
      destruct (tag_is s_Path d); [|reflexivity].
      rewrite Hget by reflexivity.
      destruct (dict_get (KStr s_value) d) as [[]|]; try discriminate; reflexivity.
  - simpl in Hw.
    change (WorkingFormat.to_storage_format_walk (VSet l))
      with (set_mapping s_set (List.map WorkingFormat.to_storage_format_walk l)).
    rewrite json_source_set_mapping by reflexivity.
    apply forallb_map_true. apply forallb_Forall in Hw.
    rewrite Forall_forall in *. auto.
  - simpl in Hw.
    change (WorkingFormat.to_storage_format_walk (VFrozenset l))
      with (set_mapping s_frozenset (List.map WorkingFormat.to_storage_format_walk l)).
    rewrite json_source_set_mapping by reflexivity.
    apply forallb_map_true. apply forallb_Forall in Hw.
    rewrite Forall_forall in *. auto.
Qed.

(** What the pipeline stores can be exported: for a Raw document of
    null, booleans, integers, strings, dates, paths, lists, sets,
    frozensets and untagged mappings with string keys, the JSON export of
    the stored form of its Working document succeeds and is a plain JSON
    tree (no set, no date, no path, no "_hash"). *)
Theorem stored_documents_can_be_exported (E : pyenv) (r w : value) :
  set_order_ok E ->
  exportable r = true ->
  RawFormat.to_working_format E r = Ok w ->
  exists j, StorageFormat.to_json_mapping (store w) = Ok j /\ json_shaped j = true.
Proof.
  unfold RawFormat.to_working_format, StorageFormat.to_json_mapping, store, get,
    WorkingFormat.to_storage_format.
  intros Hord Hr Hw.
  apply to_json_mapping_shaped. apply stored_json_source.
  now apply (down_exportable E Hord r).
Qed.

Lemma stored_documents_can_be_exported_witness :
  exists j,
    StorageFormat.to_json_mapping
      (store (VDict false
                [(KStr (lit "a.b"),
                   VSet [path_mapping Sample.env (lit "/x/y")]);
                 (KStr (lit "day"), VDate 2020 3 7)])) = Ok j
    /\ json_shaped j = true.
Proof.
  apply (stored_documents_can_be_exported Sample.env
           (VDict false [(KStr (lit "a.b"), VSet [VPath (lit "/x/y")]);
                         (KStr (lit "day"), VDate 2020 3 7)])).
  - exact sample_set_order_ok.
  - reflexivity.
  - reflexivity.
Defined.

(** ** Exporting plain data that was stored *)

Lemma plain_data_stored E w :
  working_doc E w = true -> set_free w = true -> plain_data w = true ->
  plain_data (WorkingFormat.to_storage_format_walk w) = true.
Proof.
  induction w as [|b|n|s|yr mo dy|lab|p|l IH|h d IH|l IH|l IH|c fs IH] using value_ind;
    simpl; intros Hw Hs Hp; try reflexivity; try discriminate.
  - apply forallb_map_true. apply forallb_Forall in Hw.
    apply forallb_Forall in Hs. apply forallb_Forall in Hp.
    rewrite Forall_forall in *. auto.
  - apply andb_true_iff in Hw as [Hw Htag].
    apply andb_true_iff in Hw as [Hitems Hnd].
    apply nodupb_NoDup in Hnd. apply forallb_Forall in Hitems.
    apply forallb_Forall in Hs.
    apply andb_true_iff in Hp as [Hp Hvals].
    apply andb_true_iff in Hp as [Hp Hhash].
    apply andb_true_iff in Hp as [Hsets Hpath].
    apply negb_true_iff in Hsets, Hpath, Hhash. apply forallb_Forall in Hvals.
    assert (Hkeys : Forall (fun kv => working_key (fst kv) = true) d).
    { eapply Forall_impl; [|exact Hitems].
      now intros [k v] [? ?]%andb_true_iff. }
    rewrite rebuild_total_pointwise; cycle 1.
    { apply map_key_NoDup; [|assumption].
      unfold dict_keys. now apply Forall_map. }
    { reflexivity. }
    simpl.
    set (ds := List.map (fun kv => (WorkingFormat.map_key (fst kv),
                                    WorkingFormat.to_storage_format_walk (snd kv))) d).
    assert (Hget : forall t, tag_is t ds = tag_is t d).
    { intros t. unfold tag_is, ds.
      change (KStr s_type) with (WorkingFormat.map_key (KStr s_type)) at 1.
      rewrite dict_get_stored by (auto; reflexivity).
      destruct (dict_get (KStr s_type) d); simpl; [apply str_is_stored | reflexivity]. }
    assert (Hno : dict_contains (KStr s_hash) ds = false).
    { apply dict_contains_false. unfold ds.
      change (KStr s_hash) with (WorkingFormat.map_key (KStr s_hash)) at 1.
      rewrite dict_get_stored by (auto; reflexivity).
      apply dict_contains_false in Hhash. now rewrite Hhash. }
    unfold StorageFormat.tag_in_sets in *. rewrite !Hget, Hsets, Hpath, Hno. simpl.
    unfold ds. apply forallb_map_true.
    rewrite Forall_forall in *. intros kv Hin. simpl.
    specialize (Hitems _ Hin). apply andb_true_iff in Hitems as [_ Hv]. auto.
Qed.

(** JSON export of what was stored gives plain data back: for a
    document of lists, leaves other than dates, and mappings with
    pairwise distinct string keys without the full-width dot that are not
    tagged and have no "_hash" key, [to_json_mapping] of [store] of the
    document is the document, dotted keys included. *)
Theorem json_export_round_trip (E : pyenv) (w : value) :
  working_doc E w = true -> set_free w = true -> plain_data w = true ->
  StorageFormat.to_json_mapping (store w) = Ok (plain w).
Proof.
  unfold StorageFormat.to_json_mapping, store, get, WorkingFormat.to_storage_format.
  intros Hw Hs Hp.
  rewrite (to_json_plain_data E) by now apply plain_data_stored with E.
  now apply load_store_plain.
Qed.

Lemma json_export_round_trip_witness :
  StorageFormat.to_json_mapping
    (store (VDict false [(KStr (lit "a.b"), VList [VInt 1; VNone]);
                         (KStr s_type, VStr (lit "Widget"))]))
  = Ok (VDict false [(KStr (lit "a.b"), VList [VInt 1; VNone]);
                     (KStr s_type, VStr (lit "Widget"))]).
Proof.
  apply (json_export_round_trip Sample.env
           (VDict false [(KStr (lit "a.b"), VList [VInt 1; VNone]);
                         (KStr s_type, VStr (lit "Widget"))])); reflexivity.
Defined.

(** ** Sets of domain objects do not come back from the database *)

Lemma set_add_nonempty E s x : set_add E s x <> [].
Proof.
  unfold set_add. destruct (existsb _ s) eqn:Hex.
  - intros ->. discriminate.
  - destruct s; discriminate.
Qed.

Lemma fold_set_add_nonempty E l : forall acc,
  acc <> [] -> fold_left (set_add E) l acc <> [].
Proof.
  induction l as [|x l IH]; simpl; intros acc Hacc; [exact Hacc|].
  apply IH. apply set_add_nonempty.
Qed.

Lemma set_elements_nonempty E l :
  set_order_ok E -> l <> [] -> set_elements E l <> [].
Proof.
  intros Hord Hl. unfold set_elements. destruct l as [|x l]; [congruence|].
  simpl. intros Hnil.
  pose proof (Hord (fold_left (set_add E) l (set_add E [] x))) as Hperm.
  rewrite Hnil in Hperm. apply Permutation_nil in Hperm.
  revert Hperm. apply fold_set_add_nonempty. apply set_add_nonempty.
Qed.

Lemma Forall2_nonempty {A B} (R : A -> B -> Prop) l l' :
  Forall2 R l l' -> l <> [] -> l' <> [].
Proof. intros H Hl. destruct H; [congruence | discriminate]. Qed.

(** The encoding of such an instance is a mapping tagged with the name
    of its class. *)
Lemma enc_plain_instance E x y :
  plain_instance E x = true ->
  ObjFormat.to_raw_format_walk E x = Ok y -> tagged_mapping y = true.
Proof.
  destruct x as [| | | | | | | | | | |c fs]; try discriminate.
  intros Hx Hy. simpl in Hx.
  apply andb_true_iff in Hx as [Hx Hname].
  apply andb_true_iff in Hx as [Hnd Hres].
  unfold reserved_free in Hres. apply andb_true_iff in Hres as [Htype Hhash].
  apply negb_true_iff in Htype, Hhash. apply nodupb_NoDup in Hnd.
  destruct (map_items (ObjFormat.to_raw_format_walk E) fs) as [fs'|e] eqn:Hfs.
  - rewrite (to_raw_object E c fs fs' Hnd Htype Hhash Hfs) in Hy.
    injection Hy as <-.
    pose proof (map_items_keys _ _ _ Hfs) as Hkeys.
    assert (Hfresh : forall k, dict_contains k fs = false ->
              existsb (key_eqb k) (dict_keys fs') = false).
    { intros k Hk. rewrite Hkeys. apply not_true_iff_false.
      intros (k' & Hin & Heq)%existsb_exists. apply key_eqb_eq in Heq. subst k'.
      apply dict_contains_keys in Hin. congruence. }
    assert (Hnd' : nodupb (dict_keys fs') = true)
      by (rewrite Hkeys; now apply nodupb_NoDup).
    destruct (obj_hash E c fs); simpl;
      rewrite Hnd', Hname, ?(Hfresh _ Htype), ?(Hfresh _ Hhash); reflexivity.
  - rewrite (to_raw_object_raises E c fs e Hfs) in Hy. discriminate.
Qed.

Lemma down_tagged_mapping E y z :
  tagged_mapping y = true ->
  RawFormat.to_working_format_walk E y = Ok z -> tagged_mapping z = true.
Proof.
  destruct y as [| | | | | | | |h d| | |]; try discriminate.
  intros Hy Hz. simpl in Hy, Hz.
  apply bind_ok in Hz as (d' & Hd' & [= <-]). simpl.
  rewrite (map_items_keys _ _ _ Hd').
  apply andb_true_iff in Hy as [-> Htag]. simpl.
  pose proof (map_items_get _ d d' (KStr s_type) Hd') as Hget.
  destruct (dict_get (KStr s_type) d) as [[]|]; try discriminate.
  destruct Hget as (v' & -> & Hv'). simpl in Hv'. now injection Hv' as <-.
Qed.

Lemma tagged_mapping_unhashable z :
  tagged_mapping z = true -> loads_unhashable (store z) = true.
Proof.
  destruct z as [| | | | | | | |h d| | |]; try discriminate.
  intros Hz. simpl in Hz. apply andb_true_iff in Hz as [Hnd Htag].
  apply nodupb_NoDup in Hnd.
  apply stored_mapping_unhashable; [exact Hnd|].
  unfold tag_is. destruct (dict_get (KStr s_type) d) as [[]|]; try discriminate.
  simpl. apply negb_true_iff in Htag. unfold builtin_tag in Htag.
  apply orb_false_iff in Htag as [Htag _].
  now apply orb_false_iff in Htag as [_ Htag].
Qed.

(** A non-empty set of domain objects does not come back from the
    database: when it is encoded and converted to the Working format,
    what [store] writes for it cannot be loaded, since its elements come
    back as plain mappings. *)
Theorem sets_of_domain_objects_cannot_be_loaded (E : pyenv) (l : list value)
    (r w : value) :
  set_order_ok E ->
  l <> [] -> forallb (plain_instance E) l = true ->
  ObjFormat.to_raw_format E (VSet l) = Ok r ->
  RawFormat.to_working_format E r = Ok w ->
  raises (load E (store w)).
Proof.
  unfold ObjFormat.to_raw_format, RawFormat.to_working_format.
  intros Hord Hl Hinst Hr Hw.
  simpl in Hr. apply bind_ok in Hr as (s1 & Hs1 & [= <-]).
  apply set_of_map_ok in Hs1 as (l1 & Hl1 & _ & ->).
  simpl in Hw. apply bind_ok in Hw as (s2 & Hs2 & [= <-]).
  apply set_of_map_ok in Hs2 as (l2 & Hl2 & _ & ->).
  assert (Ht1 : forallb tagged_mapping l1 = true).
  { apply forallb_Forall in Hinst.
    apply (Forall2_forallb _ _ _ _ _ Hl1 Hinst).
    intros x y _ Hx Hxy. now apply enc_plain_instance with E x. }
  assert (Hs1 : forallb tagged_mapping (set_elements E l1) = true).
  { apply forallb_incl with l1; [|exact Ht1].
    intros y Hy. now apply set_elements_In with E. }
  assert (Ht2 : forallb tagged_mapping l2 = true).
  { apply forallb_Forall in Hs1.
    apply (Forall2_forallb _ _ _ _ _ Hl2 Hs1).
    intros x y _ Hx Hxy. now apply down_tagged_mapping with E x. }
  assert (Hne : set_elements E l2 <> []).
  { apply set_elements_nonempty; [exact Hord|].
    apply (Forall2_nonempty _ _ _ Hl2).
    apply set_elements_nonempty; [exact Hord|].
    now apply (Forall2_nonempty _ _ _ Hl1). }
  destruct (set_elements E l2) as [|x2 s2] eqn:Hs2; [congruence|].
  assert (Hx2 : tagged_mapping x2 = true).
  { rewrite forallb_forall in Ht2. apply Ht2.
    apply set_elements_In with E; [exact Hord|]. rewrite Hs2. now left. }
  apply (stored_set_raises E (x2 :: s2) x2);
    [now left | now apply tagged_mapping_unhashable].
Qed.

(** The set of protection profiles of the sample certificate. *)
Lemma sets_of_domain_objects_cannot_be_loaded_witness :
  exists r w,
    ObjFormat.to_raw_format Sample.env
      (VSet [VObj Sample.Widget [(KStr (lit "n"), VInt 1)];
             VObj Sample.Widget [(KStr (lit "n"), VInt 2)]]) = Ok r
    /\ RawFormat.to_working_format Sample.env r = Ok w
    /\ raises (load Sample.env (store w)).
Proof.
  eexists _, _. split; [reflexivity|]. split; [reflexivity|].
  eapply (sets_of_domain_objects_cannot_be_loaded Sample.env
            [VObj Sample.Widget [(KStr (lit "n"), VInt 1)];
             VObj Sample.Widget [(KStr (lit "n"), VInt 2)]]).
  - exact sample_set_order_ok.
  - discriminate.
  - reflexivity.
  - reflexivity.
  - reflexivity.
Defined.

(** ** Decoding protection profiles *)

Lemma getitem_with_same_values {B} (f : value -> result B) k d d' :
  Forall2 (fun kv kv' : key * value =>
             snd kv = snd kv' /\ key_eqb (fst kv) k = key_eqb (fst kv') k) d d' ->
  getitem_with f k d = getitem_with f k d'.
Proof.
  induction 1 as [|[k0 v0] [k1 v1] d d' [Hv Hk] _ IH]; simpl; [reflexivity|].
  simpl in Hv, Hk. subst v1. rewrite <- Hk. now destruct (key_eqb k0 k).
Qed.

Lemma dict_set_same_values k (v : value) d d' :
  Forall2 (fun kv kv' : key * value =>
             snd kv = snd kv' /\ key_eqb (fst kv) k = key_eqb (fst kv') k) d d' ->
  List.map snd (dict_set k v d) = List.map snd (dict_set k v d').
Proof.
  induction 1 as [|[k0 v0] [k1 v1] d d' [Hv Hk] Hrest IH]; simpl; [reflexivity|].
  simpl in Hv, Hk. subst v1. rewrite <- Hk.
  destruct (key_eqb k0 k); simpl.
  - f_equal. clear -Hrest. induction Hrest as [|? ? ? ? [Hv _] _ IH]; simpl;
      [reflexivity | now rewrite Hv, IH].
  - now rewrite IH.
Qed.

Lemma dict_set_length {A} k (v : A) d :
  dict_contains k d = true -> length (dict_set k v d) = length d.
Proof.
  induction d as [|[k0 v0] d IH]; simpl; [discriminate|].
  destruct (key_eqb k0 k); simpl; [reflexivity|]. intros H. now rewrite IH.
Qed.

Lemma py_eq_opt_str E v : is_opt_str v = true -> py_eq E v v = true.
Proof.
  destruct v; simpl; try discriminate; intros _;
    [reflexivity | apply pystr_eqb_refl].
Qed.

(** [from_dict] goes by position: two mappings with the same values in
    the same order, "pp_ids" at the same place, are decoded alike,
    whatever their other keys are; a mapping without "pp_ids" raises
    [KeyError], and one with more than three items raises [TypeError]. *)
Theorem from_dict_is_positional (E : pyenv)
    (sanitize_string sanitize_link : value -> result value) :
  (forall d d',
      Forall2 (fun kv kv' : key * value =>
                 snd kv = snd kv'
                 /\ key_eqb (fst kv) (KStr ProtectionProfile.s_pp_ids)
                    = key_eqb (fst kv') (KStr ProtectionProfile.s_pp_ids)) d d' ->
      ProtectionProfile.from_dict E sanitize_string sanitize_link d
      = ProtectionProfile.from_dict E sanitize_string sanitize_link d')
  /\ (forall d,
      dict_contains (KStr ProtectionProfile.s_pp_ids) d = false ->
      ProtectionProfile.from_dict E sanitize_string sanitize_link d = Raise KeyError)
  /\ (forall d v ids,
      dict_get (KStr ProtectionProfile.s_pp_ids) d = Some v ->
      ProtectionProfile.ids_of E v = Ok ids ->
      3 < length d ->
      ProtectionProfile.from_dict E sanitize_string sanitize_link d = Raise TypeError).
Proof.
  unfold ProtectionProfile.from_dict. split; [|split].
  - intros d d' H.
    rewrite (getitem_with_same_values _ _ d d' H).
    destruct (getitem_with _ _ d') as [ids|e]; simpl; [|reflexivity].
    now rewrite (dict_set_same_values _ ids d d' H).
  - intros d Hno. now rewrite (getitem_with_missing _ _ _ Hno).
  - intros d v ids Hget Hids Hlen.
    rewrite (getitem_with_get _ _ _ _ Hget), Hids. simpl.
    assert (Hin : dict_contains (KStr ProtectionProfile.s_pp_ids) d = true)
      by (apply dict_contains_get; eauto).
    pose proof (dict_set_length (KStr ProtectionProfile.s_pp_ids) ids d Hin) as Hl.
    rewrite <- (length_map snd) in Hl.
    destruct (List.map snd (dict_set (KStr ProtectionProfile.s_pp_ids) ids d))
      as [|a [|b [|c [|x rest]]]]; simpl in Hl; try reflexivity;
      rewrite <- Hl in Hlen; simpl in Hlen;
      repeat apply PeanoNat.lt_S_n in Hlen; inversion Hlen.
Qed.

(** [{"pp_link": "L", "pp_name": "N", "pp_ids": None}] is decoded like
    [{"pp_name": "L", "pp_link": "N", "pp_ids": None}]. *)
Lemma from_dict_is_positional_witness :
  ProtectionProfile.from_dict Sample.env (fun v => Ok v) (fun v => Ok v)
    [(KStr ProtectionProfile.s_pp_link, VStr (lit "L"));
     (KStr ProtectionProfile.s_pp_name, VStr (lit "N"));
     (KStr ProtectionProfile.s_pp_ids, VNone)]
  = ProtectionProfile.from_dict Sample.env (fun v => Ok v) (fun v => Ok v)
      [(KStr ProtectionProfile.s_pp_name, VStr (lit "L"));
       (KStr ProtectionProfile.s_pp_link, VStr (lit "N"));
       (KStr ProtectionProfile.s_pp_ids, VNone)].
Proof.
  apply (from_dict_is_positional Sample.env (fun v => Ok v) (fun v => Ok v)).
  repeat constructor.
Defined.

(** The decoding contract of [ProtectionProfile]: given the fields of an
    instance in the order of their declaration, whose name and link are
    strings or [None] that sanitizing leaves as they are, [from_dict]
    returns an instance equal to it, whatever is given for "pp_ids"; a
    false "pp_ids" (an empty list, an empty frozenset, [None]) is decoded
    as [None]. *)
Theorem protection_profiles_decode_back (E : pyenv)
    (sanitize_string sanitize_link : value -> result value)
    (x : ProtectionProfile.t) (given ids : value) :
  is_opt_str (ProtectionProfile.pp_name x) = true ->
  is_opt_str (ProtectionProfile.pp_link x) = true ->
  sanitize_string (ProtectionProfile.pp_name x) = Ok (ProtectionProfile.pp_name x) ->
  sanitize_link (ProtectionProfile.pp_link x) = Ok (ProtectionProfile.pp_link x) ->
  ProtectionProfile.ids_of E given = Ok ids ->
  exists x',
    ProtectionProfile.from_dict E sanitize_string sanitize_link
      [(KStr ProtectionProfile.s_pp_name, ProtectionProfile.pp_name x);
       (KStr ProtectionProfile.s_pp_link, ProtectionProfile.pp_link x);
       (KStr ProtectionProfile.s_pp_ids, given)] = Ok x'
    /\ ProtectionProfile.__eq__ E x' x = true
    /\ ProtectionProfile.pp_ids x' = ids
    /\ (ProtectionProfile.truthy given = false -> ProtectionProfile.pp_ids x' = VNone).
Proof.
  intros Hn Hl Hsn Hsl Hids.
  exists {| ProtectionProfile.pp_name := ProtectionProfile.pp_name x;
            ProtectionProfile.pp_link := ProtectionProfile.pp_link x;
            ProtectionProfile.pp_ids := ids |}.
  split; [|split; [|split]].
  - unfold ProtectionProfile.from_dict.
    change (getitem_with (ProtectionProfile.ids_of E) (KStr ProtectionProfile.s_pp_ids)
              [(KStr ProtectionProfile.s_pp_name, ProtectionProfile.pp_name x);
               (KStr ProtectionProfile.s_pp_link, ProtectionProfile.pp_link x);
               (KStr ProtectionProfile.s_pp_ids, given)])
      with (ProtectionProfile.ids_of E given).
    rewrite Hids. simpl.
    change (dict_set (KStr ProtectionProfile.s_pp_ids) ids
              [(KStr ProtectionProfile.s_pp_name, ProtectionProfile.pp_name x);
               (KStr ProtectionProfile.s_pp_link, ProtectionProfile.pp_link x);
               (KStr ProtectionProfile.s_pp_ids, given)])
      with [(KStr ProtectionProfile.s_pp_name, ProtectionProfile.pp_name x);
            (KStr ProtectionProfile.s_pp_link, ProtectionProfile.pp_link x);
            (KStr ProtectionProfile.s_pp_ids, ids)].
    simpl. unfold ProtectionProfile.make, ProtectionProfile.__post_init__. simpl.
    now rewrite Hsn, Hsl.
  - unfold ProtectionProfile.__eq__. simpl.
    now rewrite (py_eq_opt_str E _ Hn), (py_eq_opt_str E _ Hl).
  - reflexivity.
  - intros Hfalse. simpl. unfold ProtectionProfile.ids_of in Hids.
    rewrite Hfalse in Hids. congruence.
Qed.

Lemma protection_profiles_decode_back_witness :
  exists x',
    ProtectionProfile.from_dict Sample.env (fun v => Ok v) (fun v => Ok v)
      [(KStr ProtectionProfile.s_pp_name, VStr (lit "PP-1"));
       (KStr ProtectionProfile.s_pp_link, VNone);
       (KStr ProtectionProfile.s_pp_ids, VFrozenset [])] = Ok x'
    /\ ProtectionProfile.__eq__ Sample.env x'
         {| ProtectionProfile.pp_name := VStr (lit "PP-1");
            ProtectionProfile.pp_link := VNone;
            ProtectionProfile.pp_ids := VFrozenset [] |} = true
    /\ ProtectionProfile.pp_ids x' = VNone.
Proof.
  destruct (protection_profiles_decode_back Sample.env (fun v => Ok v) (fun v => Ok v)
              {| ProtectionProfile.pp_name := VStr (lit "PP-1");
                 ProtectionProfile.pp_link := VNone;
                 ProtectionProfile.pp_ids := VFrozenset [] |}
              (VFrozenset []) VNone)
    as (x' & Hrun & Heq & Hids & _); try reflexivity.
  exists x'. auto.
Defined.

(** The two decoders agree: when the sanitizers succeed on the name and
    the link and leave their own results as they are, [from_old_api_dict]
    of [{"csv_scan": {"cc_pp_name": a, "link_pp_document": b},
    "processed": {"cc_pp_csvid": c}}] is [from_dict] of [{"pp_name": a,
    "pp_link": b, "pp_ids": c}], an exception of the frozenset
    included. *)
Theorem old_api_decoder_agrees (E : pyenv)
    (sanitize_string sanitize_link : value -> result value)
    (dct csv_scan processed a b c name link : value) :
  ProtectionProfile.subscript dct ProtectionProfile.s_csv_scan = Ok csv_scan ->
  ProtectionProfile.subscript csv_scan ProtectionProfile.s_cc_pp_name = Ok a ->
  ProtectionProfile.subscript csv_scan ProtectionProfile.s_link_pp_document = Ok b ->
  ProtectionProfile.subscript dct ProtectionProfile.s_processed = Ok processed ->
  ProtectionProfile.subscript processed ProtectionProfile.s_cc_pp_csvid = Ok c ->
  sanitize_string a = Ok name -> sanitize_string name = Ok name ->
  sanitize_link b = Ok link -> sanitize_link link = Ok link ->
  ProtectionProfile.from_old_api_dict E sanitize_string sanitize_link dct
  = ProtectionProfile.from_dict E sanitize_string sanitize_link
      [(KStr ProtectionProfile.s_pp_name, a);
       (KStr ProtectionProfile.s_pp_link, b);
       (KStr ProtectionProfile.s_pp_ids, c)].
Proof.
  intros Hcsv Ha Hb Hproc Hc Hname Hname' Hlink Hlink'.
  unfold ProtectionProfile.from_old_api_dict, ProtectionProfile.from_dict.
  rewrite Hcsv. simpl. rewrite Ha. simpl. rewrite Hname. simpl.
  rewrite Hb. simpl. rewrite Hlink. simpl. rewrite Hproc. simpl.
  rewrite Hc. simpl.
  change (getitem_with (ProtectionProfile.ids_of E) (KStr ProtectionProfile.s_pp_ids)
            [(KStr ProtectionProfile.s_pp_name, a);
             (KStr ProtectionProfile.s_pp_link, b);
             (KStr ProtectionProfile.s_pp_ids, c)])
    with (ProtectionProfile.ids_of E c).
  unfold ProtectionProfile.ids_of.
  destruct (ProtectionProfile.truthy c).
  - destruct (frozenset_of E c) as [ids|e]; simpl; [|reflexivity].
    change (dict_set (KStr ProtectionProfile.s_pp_ids) ids
              [(KStr ProtectionProfile.s_pp_name, a);
               (KStr ProtectionProfile.s_pp_link, b);
               (KStr ProtectionProfile.s_pp_ids, c)])
      with [(KStr ProtectionProfile.s_pp_name, a);
            (KStr ProtectionProfile.s_pp_link, b);
            (KStr ProtectionProfile.s_pp_ids, ids)].
    simpl. unfold ProtectionProfile.make, ProtectionProfile.__post_init__. simpl.
    now rewrite Hname, Hname', Hlink, Hlink'.
  - simpl.
    change (dict_set (KStr ProtectionProfile.s_pp_ids) VNone
              [(KStr ProtectionProfile.s_pp_name, a);
               (KStr ProtectionProfile.s_pp_link, b);
               (KStr ProtectionProfile.s_pp_ids, c)])
      with [(KStr ProtectionProfile.s_pp_name, a);
            (KStr ProtectionProfile.s_pp_link, b);
            (KStr ProtectionProfile.s_pp_ids, VNone)].
    simpl. unfold ProtectionProfile.make, ProtectionProfile.__post_init__. simpl.
    now rewrite Hname, Hname', Hlink, Hlink'.
Qed.

Lemma old_api_decoder_agrees_witness :
  ProtectionProfile.from_old_api_dict Sample.env (fun v => Ok v) (fun v => Ok v)
    (VDict false
       [(KStr ProtectionProfile.s_csv_scan,
          VDict false [(KStr ProtectionProfile.s_cc_pp_name, VStr (lit "PP-1"));
                       (KStr ProtectionProfile.s_link_pp_document, VNone)]);
        (KStr ProtectionProfile.s_processed,
          VDict false [(KStr ProtectionProfile.s_cc_pp_csvid,
                         VList [VStr (lit "BSI-1")])])])
  = ProtectionProfile.from_dict Sample.env (fun v => Ok v) (fun v => Ok v)
      [(KStr ProtectionProfile.s_pp_name, VStr (lit "PP-1"));
       (KStr ProtectionProfile.s_pp_link, VNone);
       (KStr ProtectionProfile.s_pp_ids, VList [VStr (lit "BSI-1")])].
Proof.
  apply (old_api_decoder_agrees Sample.env (fun v => Ok v) (fun v => Ok v)
           (VDict false
              [(KStr ProtectionProfile.s_csv_scan,
                 VDict false [(KStr ProtectionProfile.s_cc_pp_name, VStr (lit "PP-1"));
                              (KStr ProtectionProfile.s_link_pp_document, VNone)]);
               (KStr ProtectionProfile.s_processed,
                 VDict false [(KStr ProtectionProfile.s_cc_pp_csvid,
                                VList [VStr (lit "BSI-1")])])])
           (VDict false [(KStr ProtectionProfile.s_cc_pp_name, VStr (lit "PP-1"));
                         (KStr ProtectionProfile.s_link_pp_document, VNone)])
           (VDict false [(KStr ProtectionProfile.s_cc_pp_csvid,
                           VList [VStr (lit "BSI-1")])])
           (VStr (lit "PP-1")) VNone (VList [VStr (lit "BSI-1")])
           (VStr (lit "PP-1")) VNone); reflexivity.
Defined.
